(** * rest-smtp-sink: the capture pipeline and the query API of [index.js]

    A shallow embedding of [RestSmtpSink] (index.js): the constructor,
    schema creation, the handler that stores a decoded message and
    publishes it, [deserialize], and the routes of the web server with the
    rows of its page, over models of what the file calls into:
    [JSON.stringify] / [JSON.parse], the [emails] table of the SQLite
    database reached through knex, the [EventEmitter] the sink inherits
    from, and [_.escape] of lodash. *)

From Stdlib Require Import ZArith NArith Bool Lia Decimal DecimalN DecimalFacts.
From stdpp Require Import base list strings sorting.

#[local] Set Warnings "-register-all".

Local Open Scope N_scope.

(** ** Outcomes of a call *)

(** The failures of the [emails] table that the file can meet. *)
Inductive sqlite_error :=
| TableExists        (* SQLITE_ERROR: table `emails` already exists *)
| NoSuchTable        (* SQLITE_ERROR: no such table: emails *)
| Full               (* SQLITE_FULL: the largest rowid has been used *)
| CantOpen           (* SQLITE_CANTOPEN: unable to open database file *)
| IoErr.             (* SQLITE_IOERR: disk I/O error *)

Inductive error :=
| SyntaxError                      (* thrown by JSON.parse *)
| TypeError                        (* a property read or written on undefined *)
| UndefinedBinding                 (* knex: Undefined binding(s) detected *)
| SqliteError (e : sqlite_error).  (* a rejected knex promise *)

(** Inputs the model gives no answer for: a number literal that does not
    denote an integer a double holds exactly, and the end of the fuel of
    the parser, which [JSON.parse] never reaches ([parse_value_fuel]). *)
Inductive gap :=
| NonIntegerLiteral   (* a fraction or an exponent follows the digits *)
| UnsafeInteger       (* beyond Number.MAX_SAFE_INTEGER: the double rounds *)
| NegativeZero        (* the literal -0 *)
| FuelExhausted.

Inductive completion (A : Type) :=
| Returns (a : A)
| Throws (e : error)
| Unmodelled (g : gap).
Arguments Returns {A} a.
Arguments Throws {A} e.
Arguments Unmodelled {A} g.

Definition bind {A B} (m : completion A) (k : A -> completion B) : completion B :=
  match m with
  | Returns a => k a
  | Throws e => Throws e
  | Unmodelled g => Unmodelled g
  end.

Notation "'let*' x ':=' m 'in' k" := (bind m (fun x => k))
  (at level 10, x pattern, m at level 200, k at level 200).

(** ** JavaScript values *)

(** A JavaScript string is a sequence of UTF-16 code units. *)
Definition js_string := list N.

Fixpoint lit (s : string) : js_string :=
  match s with
  | EmptyString => []
  | String a s' => Ascii.N_of_ascii a :: lit s'
  end.

(** Numbers: the integers (those a double holds exactly are the ones up to
    [MAX_SAFE_INTEGER] in magnitude), NaN and the two infinities.  Numbers
    with a fraction are not modelled. *)
Inductive number :=
| Finite (z : Z)
| NaN
| Infinity (negative : bool).

(** An object is the list of its own properties in the order
    [[OwnPropertyKeys]] enumerates them. *)
Inductive value :=
| JUndefined
| JNull
| JBool (b : bool)
| JNum (n : number)
| JStr (s : js_string)
| JArr (elements : list value)
| JObj (properties : list (js_string * value)).

Definition MAX_SAFE_INTEGER : Z := 9007199254740991.

Fixpoint js_string_eqb (s t : js_string) : bool :=
  match s, t with
  | [], [] => true
  | c :: s', d :: t' => (c =? d) && js_string_eqb s' t'
  | _, _ => false
  end.

(** *** Decimal digits *)

Fixpoint uint_units (d : uint) : js_string :=
  match d with
  | Nil => []
  | D0 d => 48 :: uint_units d
  | D1 d => 49 :: uint_units d
  | D2 d => 50 :: uint_units d
  | D3 d => 51 :: uint_units d
  | D4 d => 52 :: uint_units d
  | D5 d => 53 :: uint_units d
  | D6 d => 54 :: uint_units d
  | D7 d => 55 :: uint_units d
  | D8 d => 56 :: uint_units d
  | D9 d => 57 :: uint_units d
  end.

Definition is_digit (c : N) : bool := (48 <=? c) && (c <=? 57).

Definition digit_of (c : N) (d : uint) : uint :=
  match c - 48 with
  | 0 => D0 d
  | 1 => D1 d
  | 2 => D2 d
  | 3 => D3 d
  | 4 => D4 d
  | 5 => D5 d
  | 6 => D6 d
  | 7 => D7 d
  | 8 => D8 d
  | _ => D9 d
  end.

(** The longest run of digits at the head of [s], and what follows it. *)
Fixpoint read_digits (s : js_string) : uint * js_string :=
  match s with
  | [] => (Nil, [])
  | c :: r =>
      if is_digit c
      then let (d, r') := read_digits r in (digit_of c d, r')
      else (Nil, s)
  end.

(** Number::toString, on the numbers of the model: an integer is written
    with all its digits (as JavaScript does below 10^21). *)
Definition NumberToString (n : number) : js_string :=
  match n with
  | Finite z =>
      (if (z <? 0)%Z then [45] else []) ++ uint_units (N.to_uint (Z.abs_N z))
  | NaN => lit "NaN"
  | Infinity false => lit "Infinity"
  | Infinity true => lit "-Infinity"
  end.

Fixpoint join (sep : js_string) (parts : list js_string) : js_string :=
  match parts with
  | [] => []
  | [p] => p
  | p :: ps => p ++ sep ++ join sep ps
  end.

(** ToString, which [JSON.parse] applies to its argument. *)
Fixpoint ToString (v : value) : js_string :=
  match v with
  | JUndefined => lit "undefined"
  | JNull => lit "null"
  | JBool true => lit "true"
  | JBool false => lit "false"
  | JNum n => NumberToString n
  | JStr s => s
  | JArr l =>
      join [44]
        ((fix each (l : list value) : list js_string :=
            match l with
            | [] => []
            | JUndefined :: l' => [] :: each l'
            | JNull :: l' => [] :: each l'
            | e :: l' => ToString e :: each l'
            end) l)
  | JObj _ => lit "[object Object]"
  end.

(** *** Property order of ordinary objects *)

(** An array index is the canonical decimal form of an integer below
    2^32 - 1; such keys are enumerated first, in ascending order, the other
    keys after them in creation order. *)
Definition array_index (k : js_string) : option N :=
  match read_digits k with
  | (d, []) =>
      let n := N.of_uint d in
      if js_string_eqb (uint_units (N.to_uint n)) k && (n <? 4294967295)
      then Some n else None
  | _ => None
  end.

(** [precedes k k']: a new key [k] is enumerated before the existing [k']. *)
Definition precedes (k k' : js_string) : bool :=
  match array_index k, array_index k' with
  | Some i, Some j => i <? j
  | Some _, None => true
  | None, _ => false
  end.

(** CreateDataProperty: an existing key keeps its place and takes the new
    value. *)
Fixpoint CreateDataProperty (o : list (js_string * value)) (k : js_string) (v : value)
  : list (js_string * value) :=
  match o with
  | [] => [(k, v)]
  | (k', v') :: o' =>
      if js_string_eqb k' k then (k, v) :: o'
      else if precedes k k' then (k, v) :: (k', v') :: o'
      else (k', v') :: CreateDataProperty o' k v
  end.

(** ** JSON *)

Module JSON.

(** *** JSON.stringify *)

Definition hex_digit (d : N) : N := if d <? 10 then 48 + d else 87 + d.

(** UnicodeEscape: \u and four lowercase hexadecimal digits. *)
Definition UnicodeEscape (c : N) : js_string :=
  [92; 117; hex_digit (c / 4096 mod 16); hex_digit (c / 256 mod 16);
   hex_digit (c / 16 mod 16); hex_digit (c mod 16)].

Definition is_leading_surrogate (c : N) : bool := (0xD800 <=? c) && (c <=? 0xDBFF).
Definition is_trailing_surrogate (c : N) : bool := (0xDC00 <=? c) && (c <=? 0xDFFF).

(** The text for a code unit that is not half of a surrogate pair. *)
Definition quote_unit (c : N) : js_string :=
  if c =? 8 then [92; 98]                 (* \b *)
  else if c =? 9 then [92; 116]           (* \t *)
  else if c =? 10 then [92; 110]          (* \n *)
  else if c =? 12 then [92; 102]          (* \f *)
  else if c =? 13 then [92; 114]          (* \r *)
  else if c =? 34 then [92; 34]           (* backslash, double quote *)
  else if c =? 92 then [92; 92]           (* two backslashes *)
  else if (c <? 32) || is_leading_surrogate c || is_trailing_surrogate c
       then UnicodeEscape c
  else [c].

Fixpoint quote_units (s : js_string) : js_string :=
  match s with
  | [] => []
  | c :: r =>
      if is_leading_surrogate c then
        match r with
        | d :: r' =>
            if is_trailing_surrogate d then c :: d :: quote_units r'
            else UnicodeEscape c ++ quote_units r
        | [] => UnicodeEscape c
        end
      else quote_unit c ++ quote_units r
  end.

Definition QuoteJSONString (s : js_string) : js_string :=
  34 :: quote_units s ++ [34].

(** SerializeJSONProperty; [None] is the result undefined. *)
Fixpoint SerializeJSONProperty (v : value) : option js_string :=
  match v with
  | JUndefined => None
  | JNull => Some (lit "null")
  | JBool true => Some (lit "true")
  | JBool false => Some (lit "false")
  | JNum (Finite z) => Some (NumberToString (Finite z))
  | JNum _ => Some (lit "null")
  | JStr s => Some (QuoteJSONString s)
  | JArr l =>
      Some (91 :: join [44]
              ((fix each (l : list value) : list js_string :=
                  match l with
                  | [] => []
                  | e :: l' =>
                      match SerializeJSONProperty e with
                      | Some t => t
                      | None => lit "null"
                      end :: each l'
                  end) l) ++ [93])
  | JObj o =>
      Some (123 :: join [44]
              ((fix each (o : list (js_string * value)) : list js_string :=
                  match o with
                  | [] => []
                  | (k, e) :: o' =>
                      match SerializeJSONProperty e with
                      | Some t => (QuoteJSONString k ++ 58 :: t) :: each o'
                      | None => each o'
                      end
                  end) o) ++ [125])
  end.

Definition stringify (v : value) : option js_string := SerializeJSONProperty v.

(** *** JSON.parse *)

Definition is_ws (c : N) : bool :=
  (c =? 9) || (c =? 10) || (c =? 13) || (c =? 32).

Fixpoint skip_ws (s : js_string) : js_string :=
  match s with
  | c :: r => if is_ws c then skip_ws r else s
  | [] => []
  end.

Definition hex_value (c : N) : option N :=
  if is_digit c then Some (c - 48)
  else if (97 <=? c) && (c <=? 102) then Some (c - 87)
  else if (65 <=? c) && (c <=? 70) then Some (c - 55)
  else None.

Definition unescape (e : N) : option N :=
  if e =? 34 then Some 34
  else if e =? 92 then Some 92
  else if e =? 47 then Some 47
  else if e =? 98 then Some 8
  else if e =? 102 then Some 12
  else if e =? 110 then Some 10
  else if e =? 114 then Some 13
  else if e =? 116 then Some 9
  else None.

Definition cons_unit (c : N) (m : completion (js_string * js_string))
  : completion (js_string * js_string) :=
  let* (u, r) := m in Returns (c :: u, r).

(** The code units of a string literal after its opening quote, up to and
    including the closing one. *)
Fixpoint parse_string_units (s : js_string) : completion (js_string * js_string) :=
  match s with
  | [] => Throws SyntaxError
  | c :: r =>
      if c =? 34 then Returns ([], r)
      else if c =? 92 then
        match r with
        | [] => Throws SyntaxError
        | e :: r1 =>
            if e =? 117 then
              match r1 with
              | h3 :: h2 :: h1 :: h0 :: r2 =>
                  match hex_value h3, hex_value h2, hex_value h1, hex_value h0 with
                  | Some a, Some b, Some c', Some d =>
                      cons_unit (((a * 16 + b) * 16 + c') * 16 + d) (parse_string_units r2)
                  | _, _, _, _ => Throws SyntaxError
                  end
              | _ => Throws SyntaxError
              end
            else
              match unescape e with
              | Some u => cons_unit u (parse_string_units r1)
              | None => Throws SyntaxError
              end
        end
      else if c <? 32 then Throws SyntaxError
      else cons_unit c (parse_string_units r)
  end.

Definition starts_fraction_or_exponent (s : js_string) : bool :=
  match s with
  | c :: _ => (c =? 46) || (c =? 101) || (c =? 69)
  | [] => false
  end.

(** A number literal after its optional minus sign. *)
Definition parse_int (neg : bool) (s : js_string) : completion (value * js_string) :=
  match s with
  | [] => Throws SyntaxError
  | c :: r =>
      if negb (is_digit c) then Throws SyntaxError
      else
        let (d, r') := if c =? 48 then (D0 Nil, r) else read_digits s in
        if starts_fraction_or_exponent r' then Unmodelled NonIntegerLiteral
        else
          let n := Z.of_N (N.of_uint d) in
          if neg && (n =? 0)%Z then Unmodelled NegativeZero
          else if (MAX_SAFE_INTEGER <? n)%Z then Unmodelled UnsafeInteger
          else Returns (JNum (Finite (if neg then - n else n)%Z), r')
  end.

Fixpoint expect (word : js_string) (s : js_string) (v : value)
  : completion (value * js_string) :=
  match word, s with
  | [], _ => Returns (v, s)
  | w :: word', c :: r => if c =? w then expect word' r v else Throws SyntaxError
  | _ :: _, [] => Throws SyntaxError
  end.

Fixpoint parse_value (fuel : nat) (s : js_string) {struct fuel}
  : completion (value * js_string) :=
  match fuel with
  | O => Unmodelled FuelExhausted
  | S fuel' =>
      match skip_ws s with
      | [] => Throws SyntaxError
      | c :: r =>
          if c =? 110 then expect (lit "ull") r JNull
          else if c =? 116 then expect (lit "rue") r (JBool true)
          else if c =? 102 then expect (lit "alse") r (JBool false)
          else if c =? 34 then
            let* (u, r') := parse_string_units r in Returns (JStr u, r')
          else if c =? 45 then parse_int true r
          else if is_digit c then parse_int false (c :: r)
          else if c =? 91 then
            match skip_ws r with
            | c' :: r' =>
                if c' =? 93 then Returns (JArr [], r')
                else let* (l, r'') := parse_elements fuel' r in Returns (JArr l, r'')
            | [] => Throws SyntaxError
            end
          else if c =? 123 then
            match skip_ws r with
            | c' :: r' =>
                if c' =? 125 then Returns (JObj [], r')
                else
                  let* (m, r'') := parse_members fuel' r in
                  Returns (JObj (fold_left (fun o kv => CreateDataProperty o (fst kv) (snd kv)) m []), r'')
            | [] => Throws SyntaxError
            end
          else Throws SyntaxError
      end
  end
with parse_elements (fuel : nat) (s : js_string) {struct fuel}
  : completion (list value * js_string) :=
  match fuel with
  | O => Unmodelled FuelExhausted
  | S fuel' =>
      let* (v, r) := parse_value fuel' s in
      match skip_ws r with
      | c :: r' =>
          if c =? 44 then
            let* (l, r'') := parse_elements fuel' r' in Returns (v :: l, r'')
          else if c =? 93 then Returns ([v], r')
          else Throws SyntaxError
      | [] => Throws SyntaxError
      end
  end
with parse_members (fuel : nat) (s : js_string) {struct fuel}
  : completion (list (js_string * value) * js_string) :=
  match fuel with
  | O => Unmodelled FuelExhausted
  | S fuel' =>
      match skip_ws s with
      | c :: r =>
          if c =? 34 then
            let* (k, r1) := parse_string_units r in
            match skip_ws r1 with
            | c1 :: r2 =>
                if c1 =? 58 then
                  let* (v, r3) := parse_value fuel' r2 in
                  match skip_ws r3 with
                  | c3 :: r4 =>
                      if c3 =? 44 then
                        let* (m, r5) := parse_members fuel' r4 in
                        Returns ((k, v) :: m, r5)
                      else if c3 =? 125 then Returns ([(k, v)], r4)
                      else Throws SyntaxError
                  | [] => Throws SyntaxError
                  end
                else Throws SyntaxError
            | [] => Throws SyntaxError
            end
          else Throws SyntaxError
      | [] => Throws SyntaxError
      end
  end.

(** [JSON.parse(arg)]: the argument is converted with ToString, one value
    is read, and only white space may follow it. *)
Definition parse (arg : value) : completion value :=
  let s := ToString arg in
  let* (v, r) := parse_value (S (2 * length s)) s in
  match skip_ws r with
  | [] => Returns v
  | _ :: _ => Throws SyntaxError
  end.

End JSON.

(** *** The values JSON text can hold *)

(** [key_before k k']: an object can enumerate [k] before [k']. *)
Definition key_before (k k' : js_string) : bool :=
  match array_index k, array_index k' with
  | Some i, Some j => i <? j
  | Some _, None => true
  | None, Some _ => false
  | None, None => negb (js_string_eqb k k')
  end.

(** The keys are distinct and in the order [[OwnPropertyKeys]] gives. *)
Fixpoint own_keys_ordered (ks : list js_string) : bool :=
  match ks with
  | [] => true
  | k :: ks' => forallb (key_before k) ks' && own_keys_ordered ks'
  end.

(** The values that JSON text denotes, within the numbers of the model:
    null, booleans, the integers a double holds exactly, strings, and
    arrays and objects of such values.  Not among them: undefined, NaN and
    the infinities, anywhere inside. *)
Fixpoint json_value (v : value) : bool :=
  match v with
  | JUndefined => false
  | JNull => true
  | JBool _ => true
  | JNum (Finite z) => (Z.abs z <=? MAX_SAFE_INTEGER)%Z
  | JNum _ => false
  | JStr _ => true
  | JArr l => forallb json_value l
  | JObj o => own_keys_ordered (map fst o) && forallb (fun kv => json_value (snd kv)) o
  end.

(** The text of an element of an array: undefined is written null. *)
Definition element_text (v : value) : js_string :=
  match JSON.stringify v with
  | Some t => t
  | None => lit "null"
  end.

(** The fuel [JSON.parse_value] uses on the text of a value. *)
Fixpoint need (v : value) : nat :=
  match v with
  | JArr l => S (fold_right (fun e n => S (need e + n)) O l)
  | JObj o => S (fold_right (fun kv n => S (need (snd kv) + n)) O o)
  | _ => 1
  end.

(** A number literal ends where [s] begins. *)
Definition ends_number (s : js_string) : bool :=
  match s with
  | c :: _ => negb (is_digit c || (c =? 46) || (c =? 101) || (c =? 69))
  | [] => true
  end.

(** The values within the numbers and the objects of the model: every
    integer in them is one a double holds exactly, and the keys of every
    object are distinct and in enumeration order.  Undefined, NaN and the
    infinities may occur in them. *)
Fixpoint modelled (v : value) : bool :=
  match v with
  | JNum (Finite z) => (Z.abs z <=? MAX_SAFE_INTEGER)%Z
  | JArr l => forallb modelled l
  | JObj o => own_keys_ordered (map fst o) && forallb (fun kv => modelled (snd kv)) o
  | _ => true
  end.

(** What is left of a value that has gone through JSON text: undefined,
    NaN and the infinities have become null, at the top and in arrays, and
    an object has lost the properties that were undefined. *)
Fixpoint revived (v : value) : value :=
  match v with
  | JUndefined => JNull
  | JNull => JNull
  | JBool b => JBool b
  | JNum (Finite z) => JNum (Finite z)
  | JNum _ => JNull
  | JStr s => JStr s
  | JArr l => JArr (map revived l)
  | JObj o =>
      JObj ((fix each (o : list (js_string * value)) : list (js_string * value) :=
               match o with
               | [] => []
               | (k, e) :: o' =>
                   match e with
                   | JUndefined => each o'
                   | _ => (k, revived e) :: each o'
                   end
               end) o)
  end.

(** ** The emails table *)

(** What a column of the table holds: NULL, an INTEGER, a TEXT, or the
    REAL that an integer too large for an INTEGER becomes.  (Other REALs and
    BLOBs do not occur over the numbers of the model.) *)
Inductive sqlite_value :=
| SqlNull
| SqlInteger (z : Z)
| SqlReal (z : Z)
| SqlText (t : js_string).

(** The affinity of the eight columns made by [table.json]: the column
    compiler of knex declares them [text] or [json] depending on its
    version, which SQLite reads as TEXT or as NUMERIC affinity. *)
Inductive affinity := TEXT | NUMERIC.

Definition is_space (c : N) : bool :=
  (c =? 32) || ((9 <=? c) && (c <=? 13)).

Fixpoint skip_space (s : js_string) : js_string :=
  match s with
  | c :: r => if is_space c then skip_space r else s
  | [] => []
  end.

Definition next_is_digit (s : js_string) : bool :=
  match s with
  | c :: _ => is_digit c
  | [] => false
  end.

(** Whether [r], which follows the digits before the point of a literal
    ([had] tells whether there were any), completes a number with a
    fraction or an exponent: a point and digits, with a digit on one side
    of the point at least; then an exponent mark, a sign if any, and a
    digit at least; then nothing but white space. *)
Definition real_tail (had : bool) (r : js_string) : bool :=
  let (digits, r1) :=
    match r with
    | c :: r' =>
        if c =? 46 then (had || next_is_digit r', snd (read_digits r')) else (had, r)
    | [] => (had, r)
    end in
  let (exponent, r3) :=
    match r1 with
    | c :: r' =>
        if (c =? 101) || (c =? 69) then
          let r2 :=
            match r' with
            | c' :: r'' => if (c' =? 45) || (c' =? 43) then r'' else r'
            | [] => r'
            end in
          (next_is_digit r2, snd (read_digits r2))
        else (true, r1)
    | [] => (true, r1)
    end in
  digits && exponent && match skip_space r3 with [] => true | _ :: _ => false end.

(** How SQLite reads a text where a number is looked for: [Some z] when the
    text is an integer literal (white space around it and a sign allowed);
    [None] when it is no number and so stays text: it does not begin like a
    number, or something other than white space follows the literal.  A
    text that is a literal with a fraction or an exponent is a number that
    the model does not have. *)
Definition numeric_text (s : js_string) : completion (option Z) :=
  let s0 := skip_space s in
  let (neg, s1) :=
    match s0 with
    | c :: r => if c =? 45 then (true, r) else if c =? 43 then (false, r) else (false, s0)
    | [] => (false, s0)
    end in
  match s1 with
  | c :: _ =>
      if is_digit c then
        let (d, r) := read_digits s1 in
        let n := Z.of_N (N.of_uint d) in
        match r with
        | c' :: _ =>
            if (c' =? 46) || (c' =? 101) || (c' =? 69) then
              if real_tail true r then Unmodelled NonIntegerLiteral else Returns None
            else
              match skip_space r with
              | [] => Returns (Some (if neg then - n else n)%Z)
              | _ :: _ => Returns None
              end
        | [] => Returns (Some (if neg then - n else n)%Z)
        end
      else if c =? 46 then
        if real_tail false s1 then Unmodelled NonIntegerLiteral else Returns None
      else Returns None
  | [] => Returns None
  end.

Definition MAX_ROWID : Z := 9223372036854775807.

(** A text bound to a column of the given affinity: under NUMERIC affinity
    an integer literal becomes an INTEGER, or a REAL when it does not fit
    into 64 bits. *)
Definition apply_affinity (a : affinity) (t : js_string) : completion sqlite_value :=
  match a with
  | TEXT => Returns (SqlText t)
  | NUMERIC =>
      let* n := numeric_text t in
      match n with
      | Some z =>
          if ((- MAX_ROWID - 1 <=? z) && (z <=? MAX_ROWID))%Z
          then Returns (SqlInteger z)
          else Returns (SqlReal z)
      | None => Returns (SqlText t)
      end
  end.

(** The eight columns of [table.json], in the order of line 56. *)
Record columns (A : Type) := Columns {
  html : A; text : A; headers : A; subject : A;
  messageId : A; priority : A; from : A; to : A
}.
Arguments Columns {A}.
Arguments html {A}.
Arguments text {A}.
Arguments headers {A}.
Arguments subject {A}.
Arguments messageId {A}.
Arguments priority {A}.
Arguments from {A}.
Arguments to {A}.

(** A row: [table.increments()], [table.timestamps()] and the columns. *)
Record record (A : Type) := Record {
  id : Z; created_at : Z; updated_at : Z; cols : columns A
}.
Arguments Record {A}.
Arguments id {A}.
Arguments created_at {A}.
Arguments updated_at {A}.
Arguments cols {A}.

(** The table in rowid order, which is the order of a scan, and its entry
    in sqlite_sequence: the largest rowid ever given out (the id column is
    INTEGER PRIMARY KEY AUTOINCREMENT). *)
Record table := Table {
  json_affinity : affinity;
  rows : list (record sqlite_value);
  seq : Z
}.

(** The database file: [None] until the table has been created. *)
Definition database := option table.

Definition max_rowid (l : list (record sqlite_value)) : Z :=
  fold_right (fun r m => Z.max (id r) m) 0%Z l.

Inductive comparator := Eq | Le.       (* '=' and '<=' *)

(** A bound parameter: [record[0]] is a number, [req.params.id] a string. *)
Inductive binding :=
| BindNumber (z : Z)
| BindString (s : js_string).

(** The parameter as it is compared with the id column, whose INTEGER
    affinity turns numeric text into the number; other text stays text. *)
Inductive operand := Integer (z : Z) | Text (s : js_string).

Definition operand_of (b : binding) : completion operand :=
  match b with
  | BindNumber z => Returns (Integer z)
  | BindString s =>
      let* n := numeric_text s in
      Returns (match n with Some z => Integer z | None => Text s end)
  end.

(** An INTEGER is less than any TEXT. *)
Definition satisfies (c : comparator) (o : operand) (i : Z) : bool :=
  match c, o with
  | Eq, Integer z => (i =? z)%Z
  | Le, Integer z => (i <=? z)%Z
  | Eq, Text _ => false
  | Le, Text _ => true
  end.

(** What the driver hands to JavaScript for a column: a number for an
    INTEGER and for a REAL (the double it is, which is the integer itself
    when that came from a JavaScript number). *)
Definition column_to_js (c : sqlite_value) : value :=
  match c with
  | SqlNull => JNull
  | SqlInteger z => JNum (Finite z)
  | SqlReal z => JNum (Finite z)
  | SqlText t => JStr t
  end.

Definition map_columns {A B} (f : A -> B) (c : columns A) : columns B :=
  Columns (f (html c)) (f (text c)) (f (headers c)) (f (subject c))
          (f (messageId c)) (f (priority c)) (f (from c)) (f (to c)).

Definition row_to_js (r : record sqlite_value) : record value :=
  Record (id r) (created_at r) (updated_at r) (map_columns column_to_js (cols r)).

(** ** EventEmitter *)

Inductive event_name := email | info.

Definition event_name_eqb (a b : event_name) : bool :=
  match a, b with
  | email, email | info, info => true
  | _, _ => false
  end.

(** A listener is a function object; all that matters of it here is which
    one it is. *)
Definition listener := nat.

(** The listeners of the emitter, in registration order. *)
Definition EventEmitter := list (event_name * listener).

Definition registered (e : event_name) (f : listener) (x : event_name * listener) : bool :=
  event_name_eqb (fst x) e && (snd x =? f)%nat.

Definition on (e : event_name) (f : listener) (em : EventEmitter) : EventEmitter :=
  em ++ [(e, f)].

(** [removeListener] takes out the most recently added instance. *)
Fixpoint removeListener (e : event_name) (f : listener) (em : EventEmitter) : EventEmitter :=
  match em with
  | [] => []
  | x :: em' =>
      if registered e f x && negb (existsb (registered e f) em')
      then em'
      else x :: removeListener e f em'
  end.

(** The listeners [emit] calls, in the order it calls them. *)
Definition listeners_of (e : event_name) (em : EventEmitter) : list listener :=
  map snd (List.filter (fun x => event_name_eqb (fst x) e) em).

(** ** The sink *)

(** The object the parser hands to its "end" listeners, and the connection
    with the envelope collected by the server. *)
Module MailParser.

Record mail_object := {
  html : value; text : value; headers : value;
  subject : value; messageId : value; priority : value
}.

End MailParser.

Module simplesmtp.

Record connection := { from : value; to : value }.

End simplesmtp.

Inductive payload :=
| Mail (o : record value)       (* the argument of an 'email' event *)
| Message (m : js_string).      (* the argument of an 'info' event *)

Record response := Response {
  status : Z;
  written : list js_string      (* the chunks of the body, in order *)
}.

Definition body (r : response) : js_string := concat (written r).

(** What can be observed of a run, oldest first. *)
Inductive event :=
| Inserted (r : record sqlite_value)   (* an insert resolved, with [[id r]] *)
| Reread (mail : list (record value))  (* the select of the handler resolved *)
| Emitted (e : event_name) (a : payload)               (* [self.emit] entered *)
| Called (f : listener) (e : event_name) (a : payload) (* a listener invoked *)
| Done (record : list Z).              (* [connection.donecallback(null, record)] *)

Record sink := Sink {
  db : database;
  emitter : EventEmitter;
  log : list event
}.

(** Code of the file: it reads and writes the sink and may throw. *)
Definition M (A : Type) : Type := sink -> completion A * sink.

Definition ret {A} (a : A) : M A := fun s => (Returns a, s).

Definition throw {A} (e : error) : M A := fun s => (Throws e, s).

Definition lift {A} (c : completion A) : M A := fun s => (c, s).

Definition mbind {A B} (m : M A) (k : A -> M B) : M B :=
  fun s =>
    match m s with
    | (Returns a, s') => k a s'
    | (Throws e, s') => (Throws e, s')
    | (Unmodelled g, s') => (Unmodelled g, s')
    end.

Notation "x <- m ;; k" := (mbind m (fun x => k))
  (at level 100, m at next level, right associativity).
Notation "m ;;; k" := (mbind m (fun _ => k))
  (at level 100, right associativity).

(** try { m } catch (err) { h err } *)
Definition try_catch {A} (m : M A) (h : error -> M A) : M A :=
  fun s =>
    match m s with
    | (Throws e, s') => h e s'
    | other => other
    end.

Definition record_event (ev : event) : M unit :=
  fun s => (Returns tt, Sink (db s) (emitter s) (log s ++ [ev])).

(** [self.emit(e, a)]: every listener registered for [e] is called, in
    registration order, before [emit] returns. *)
Definition emit (e : event_name) (a : payload) : M unit :=
  fun s =>
    (Returns tt,
     Sink (db s) (emitter s)
          (log s ++ Emitted e a :: map (fun f => Called f e a) (listeners_of e (emitter s)))).

Definition self_on (e : event_name) (f : listener) : M unit :=
  fun s => (Returns tt, Sink (db s) (on e f (emitter s)) (log s)).

Definition self_removeListener (e : event_name) (f : listener) : M unit :=
  fun s => (Returns tt, Sink (db s) (removeListener e f (emitter s)) (log s)).

(** *** knex on the emails table *)

(** A query meets, in this order: a failure of the file ([fault], decided by
    the environment), the lack of the table, and then runs. *)
Definition with_table {A} (fault : option sqlite_error)
    (q : table -> completion (A * table)) : M A :=
  fun s =>
    match fault with
    | Some e => (Throws (SqliteError e), s)
    | None =>
        match db s with
        | None => (Throws (SqliteError NoSuchTable), s)
        | Some t =>
            match q t with
            | Returns (a, t') => (Returns a, Sink (Some t') (emitter s) (log s))
            | Throws e => (Throws e, s)
            | Unmodelled g => (Unmodelled g, s)
            end
        end
    end.

(** [self.db.schema.createTable('emails', ...)] with the declared type that
    this version of knex gives a json column. *)
Definition createTable (json : affinity) (fault : option sqlite_error) : M unit :=
  fun s =>
    match fault with
    | Some e => (Throws (SqliteError e), s)
    | None =>
        match db s with
        | Some _ => (Throws (SqliteError TableExists), s)
        | None => (Returns tt, Sink (Some (Table json [] 0%Z)) (emitter s) (log s))
        end
    end.

(** A value of the object given to [insert]: undefined is bound as NULL
    ([useNullAsDefault]), a string as a text under the column's affinity. *)
Definition bind_column (a : affinity) (v : option js_string) : completion sqlite_value :=
  match v with
  | None => Returns SqlNull
  | Some t => apply_affinity a t
  end.

Definition bind_columns (a : affinity) (c : columns (option js_string))
  : completion (columns sqlite_value) :=
  let* h := bind_column a (html c) in
  let* t := bind_column a (text c) in
  let* hd := bind_column a (headers c) in
  let* s := bind_column a (subject c) in
  let* m := bind_column a (messageId c) in
  let* p := bind_column a (priority c) in
  let* f := bind_column a (from c) in
  let* o := bind_column a (to c) in
  Returns (Columns h t hd s m p f o).

(** [self.db('emails').insert({...})]: the rowid is one more than the
    largest ever used; it resolves to [[id]]. *)
Definition insert_row (created updated : Z) (c : columns (option js_string)) (t : table)
  : completion (record sqlite_value * table) :=
  let top := Z.max (seq t) (max_rowid (rows t)) in
  if (MAX_ROWID <=? top)%Z then Throws (SqliteError Full)
  else
    let* c' := bind_columns (json_affinity t) c in
    let r := Record (top + 1)%Z created updated c' in
    Returns (r, Table (json_affinity t) (rows t ++ [r]) (top + 1)%Z).

Definition knex_insert (fault : option sqlite_error) (created updated : Z)
    (c : columns (option js_string)) : M (list Z) :=
  r <- with_table fault (insert_row created updated c) ;;
  record_event (Inserted r) ;;;
  ret [id r].

(** [self.db.select('*').from('emails')] *)
Definition knex_select (fault : option sqlite_error) : M (list (record value)) :=
  with_table fault (fun t => Returns (map row_to_js (rows t), t)).

(** [....where('id', c, b)] *)
Definition knex_select_where (fault : option sqlite_error) (c : comparator) (b : binding)
  : M (list (record value)) :=
  with_table fault (fun t =>
    let* o := operand_of b in
    Returns (map row_to_js (filter (fun r => satisfies c o (id r) = true) (rows t)), t)).

(** [self.db('emails').where('id', c, b).del()] resolves to the number of
    rows removed. *)
Definition knex_del_where (fault : option sqlite_error) (c : comparator) (b : binding)
  : M nat :=
  with_table fault (fun t =>
    let* o := operand_of b in
    Returns (length (filter (fun r => satisfies c o (id r) = true) (rows t)),
             Table (json_affinity t)
                   (filter (fun r => satisfies c o (id r) = false) (rows t))
                   (seq t))).

(** The same delete, for a parameter with which SQLite compares the ids as
    [matched] tells: [matched i] when the row with the id [i] is to go. *)
Definition knex_del_compared (fault : option sqlite_error) (matched : Z -> bool) : M nat :=
  with_table fault (fun t =>
    Returns (length (filter (fun r => matched (id r) = true) (rows t)),
             Table (json_affinity t)
                   (filter (fun r => matched (id r) = false) (rows t))
                   (seq t))).

(** *** RestSmtpSink.prototype.createSchema *)

Definition message (e : error) : js_string :=
  match e with
  | SyntaxError => lit "Unexpected token in JSON"
  | TypeError => lit "Cannot read properties of undefined"
  | UndefinedBinding => lit "Undefined binding(s) detected when compiling SELECT query"
  | SqliteError TableExists => lit "SQLITE_ERROR: table `emails` already exists"
  | SqliteError NoSuchTable => lit "SQLITE_ERROR: no such table: emails"
  | SqliteError Full => lit "SQLITE_FULL: database or disk is full"
  | SqliteError CantOpen => lit "SQLITE_CANTOPEN: unable to open database file"
  | SqliteError IoErr => lit "SQLITE_IOERR: disk I/O error"
  end.

Definition createSchema (json : affinity) (fault : option sqlite_error) : M unit :=
  try_catch
    (createTable json fault)
    (fun err => emit info (Message (message err))).

(** *** RestSmtpSink.prototype.deserialize *)

Definition deserialize (o : record value) : completion (record value) :=
  let* html' := JSON.parse (html (cols o)) in
  let* text' := JSON.parse (text (cols o)) in
  let* headers' := JSON.parse (headers (cols o)) in
  let* subject' := JSON.parse (subject (cols o)) in
  let* messageId' := JSON.parse (messageId (cols o)) in
  let* priority' := JSON.parse (priority (cols o)) in
  let* from' := JSON.parse (from (cols o)) in
  let* to' := JSON.parse (to (cols o)) in
  Returns (Record (id o) (created_at o) (updated_at o)
             (Columns html' text' headers' subject' messageId' priority' from' to')).

(** [deserialize(mail[0])]: reading a property of undefined throws. *)
Definition deserialize_first (mail : list (record value)) : completion (record value) :=
  match mail with
  | o :: _ => deserialize o
  | [] => Throws TypeError
  end.

(** *** RestSmtpSink.prototype.createSmtpSever: the parser's "end" handler *)

(** The object literal of lines 78 to 89. *)
Definition insert_values (mail_object : MailParser.mail_object)
    (connection : simplesmtp.connection) : columns (option js_string) :=
  {| html := JSON.stringify (MailParser.html mail_object);
     text := JSON.stringify (MailParser.text mail_object);
     headers := JSON.stringify (MailParser.headers mail_object);
     subject := JSON.stringify (MailParser.subject mail_object);
     messageId := JSON.stringify (MailParser.messageId mail_object);
     priority := JSON.stringify (MailParser.priority mail_object);
     from := JSON.stringify (simplesmtp.from connection);
     to := JSON.stringify (simplesmtp.to connection) |}.

(** [record[0]] as a binding: knex refuses undefined. *)
Definition first (record : list Z) : M Z :=
  match record with
  | z :: _ => ret z
  | [] => throw UndefinedBinding
  end.

(** What the rest of the process may do while the handler is suspended in
    an [await]: other sessions insert and publish, requests delete and
    purge, viewers come and go.  A delete or a purge removes the rows whose
    id SQLite finds equal to, or at most, its parameter: it is given by the
    ids of which that is so, whatever the parameter is ([satisfies c o] for
    a parameter that is compared as the operand [o]). *)
Inductive activity :=
| OtherInsert (created updated : Z)
    (mail_object : MailParser.mail_object) (connection : simplesmtp.connection)
| OtherDel (matched : Z -> bool)
| OtherEmit (o : record value)
| OtherOn (f : listener)
| OtherRemoveListener (f : listener).

(** An activity that throws fails its own request, not the handler; one
    that leaves the model leaves it for the whole run. *)
Definition discard {A} (m : M A) : M unit :=
  fun s =>
    match m s with
    | (Unmodelled g, s') => (Unmodelled g, s')
    | (_, s') => (Returns tt, s')
    end.

Definition act (a : activity) : M unit :=
  match a with
  | OtherInsert created updated mail_object connection =>
      discard (knex_insert None created updated (insert_values mail_object connection))
  | OtherDel matched => discard (knex_del_compared None matched)
  | OtherEmit o => emit email (Mail o)
  | OtherOn f => self_on email f
  | OtherRemoveListener f => self_removeListener email f
  end.

Fixpoint suspended (env : list activity) : M unit :=
  match env with
  | [] => ret tt
  | a :: env' => act a ;;; suspended env'
  end.

(** The handler of lines 77 to 97.  [env1] runs before the insert is
    executed, [env2] between the insert and the select, [env3] between the
    select and the resumption of the handler; [fault1] and [fault2] are the
    failures the two queries meet, [created] and [updated] the two readings
    of the clock. *)
Definition on_end (env1 env2 env3 : list activity) (fault1 fault2 : option sqlite_error)
    (created updated : Z)
    (mail_object : MailParser.mail_object) (connection : simplesmtp.connection) : M unit :=
  suspended env1 ;;;
  record <- knex_insert fault1 created updated (insert_values mail_object connection) ;;
  suspended env2 ;;;
  record_0 <- first record ;;
  mail <- knex_select_where fault2 Eq (BindNumber record_0) ;;
  record_event (Reread mail) ;;;
  suspended env3 ;;;
  o <- lift (deserialize_first mail) ;;
  emit email (Mail o) ;;;
  record_event (Done record).

(** *** RestSmtpSink.prototype.createWebServer *)

Definition to_object (o : record value) : value :=
  JObj [(lit "id", JNum (Finite (id o)));
        (lit "created_at", JNum (Finite (created_at o)));
        (lit "updated_at", JNum (Finite (updated_at o)));
        (lit "html", html (cols o));
        (lit "text", text (cols o));
        (lit "headers", headers (cols o));
        (lit "subject", subject (cols o));
        (lit "messageId", messageId (cols o));
        (lit "priority", priority (cols o));
        (lit "from", from (cols o));
        (lit "to", to (cols o))].

(** [resp.forEach(self.deserialize)] *)
Fixpoint forEach_deserialize (resp : list (record value)) : completion (list (record value)) :=
  match resp with
  | [] => Returns []
  | o :: resp' =>
      let* o' := deserialize o in
      let* rest := forEach_deserialize resp' in
      Returns (o' :: rest)
  end.

(** [res.json(v)] *)
Definition res_json (v : value) : response :=
  match JSON.stringify v with
  | Some t => Response 200 [t]
  | None => Response 200 []
  end.

(** [res.status(n).send(s)] *)
Definition res_send (n : Z) (s : js_string) : response := Response n [s].

(** [JSONStream.stringify(op, sep, cl)]: the chunks written for the data it
    is piped. *)
Fixpoint JSONStream_rest (sep : js_string) (data : list value) : list js_string :=
  match data with
  | [] => []
  | d :: data' =>
      (sep ++ default [] (JSON.stringify d)) :: JSONStream_rest sep data'
  end.

Definition JSONStream_stringify (op sep cl : js_string) (data : list value) : list js_string :=
  match data with
  | [] => [op; cl]
  | d :: data' =>
      (op ++ default [] (JSON.stringify d)) :: JSONStream_rest sep data' ++ [cl]
  end.

(** GET / : the listing, then the subscription of the viewer's listener;
    the rows rendered are returned in place of their markup. *)
Definition root (f : listener) : M (list (record value)) :=
  resp <- knex_select None ;;
  resp' <- lift (forEach_deserialize resp) ;;
  self_on email f ;;;
  ret resp'.

(** The 'close' handler of the request of GET / . *)
Definition root_close (f : listener) : M unit :=
  self_removeListener email f.

(** GET /api/email *)
Definition api_email : M response :=
  resp <- knex_select None ;;
  resp' <- lift (forEach_deserialize resp) ;;
  ret (res_json (JArr (map to_object resp'))).

(** GET /api/email/stream: the route does not await the stream; a query
    that fails ends the stream without a row, and the response is the one
    of an empty table. *)
Definition api_email_stream : M response :=
  fun s =>
    match knex_select None s with
    | (Returns stream, s') =>
        (Returns (Response 200 (JSONStream_stringify [91] [44] [93] (map to_object stream))),
         s')
    | (Throws _, s') => (Returns (Response 200 (JSONStream_stringify [91] [44] [93] [])), s')
    | (Unmodelled g, s') => (Unmodelled g, s')
    end.

(** GET /api/email/:id *)
Definition api_email_id (params_id : js_string) : M response :=
  resp <- knex_select_where None Eq (BindString params_id) ;;
  match resp with
  | [] => ret (res_send 404 (lit "Not found"))
  | o :: _ => o' <- lift (deserialize o) ;; ret (res_json (to_object o'))
  end.

(** GET /api/email/delete/:id *)
Definition api_email_delete (params_id : js_string) : M response :=
  resp <- knex_select_where None Eq (BindString params_id) ;;
  match resp with
  | [] => ret (res_send 404 (lit "Not found"))
  | _ :: _ =>
      knex_del_where None Eq (BindString params_id) ;;;
      ret (res_send 200 (lit "Removed"))
  end.

(** GET /api/email/purge/:id *)
Definition api_email_purge (params_id : js_string) : M response :=
  resp <- knex_select_where None Le (BindString params_id) ;;
  match resp with
  | [] => ret (res_send 404 (lit "Not found"))
  | _ :: _ =>
      knex_del_where None Le (BindString params_id) ;;;
      ret (res_send 200 (lit "Purged records older than " ++ params_id))
  end.

(** *** The constructor *)

(** ToBoolean *)
Definition ToBoolean (v : value) : bool :=
  match v with
  | JUndefined | JNull => false
  | JBool b => b
  | JNum (Finite z) => negb (z =? 0)%Z
  | JNum NaN => false
  | JNum (Infinity _) => true
  | JStr [] => false
  | JStr (_ :: _) => true
  | JArr _ | JObj _ => true
  end.

(** [a || b] *)
Definition or_else (a b : value) : value := if ToBoolean a then a else b.

Fixpoint own_property (o : list (js_string * value)) (k : js_string) : value :=
  match o with
  | [] => JUndefined
  | (k', v) :: o' => if js_string_eqb k' k then v else own_property o' k
  end.

(** [options.k] for the three keys the constructor reads, which no
    primitive value and no array has: reading them from undefined or null
    throws, from an object gives the property or undefined. *)
Definition Get (options : value) (k : js_string) : completion value :=
  match options with
  | JUndefined | JNull => Throws TypeError
  | JObj o => Returns (own_property o k)
  | _ => Returns JUndefined
  end.

Record settings := Settings {
  smtpport : value;
  httpport : value;
  filename : value
}.

(** [new RestSmtpSink(options)] (lines 18 to 26): the three settings. *)
Definition RestSmtpSink (options : value) : completion settings :=
  let* smtp := Get options (lit "smtp") in
  let* listen := Get options (lit "listen") in
  let* file := Get options (lit "file") in
  Returns {| smtpport := or_else smtp (JNum (Finite 2525));
             httpport := or_else listen (JNum (Finite 2526));
             filename := or_else file (JStr (lit "rest-smtp-sink.sqlite")) |}.

(** *** The routes for the last message and for the page *)

(** [....orderBy('id', 'desc')]: the rows by descending id; rows of the
    same id, which the primary key excludes, would stay in scan order. *)
Fixpoint insert_desc (r : record sqlite_value) (l : list (record sqlite_value))
  : list (record sqlite_value) :=
  match l with
  | [] => [r]
  | x :: l' => if (id x <=? id r)%Z then r :: x :: l' else x :: insert_desc r l'
  end.

Fixpoint orderBy_id_desc (l : list (record sqlite_value)) : list (record sqlite_value) :=
  match l with
  | [] => []
  | r :: l' => insert_desc r (orderBy_id_desc l')
  end.

(** [self.db.select('*').from('emails').orderBy('id', 'desc').limit(n)] *)
Definition knex_select_desc_limit (fault : option sqlite_error) (n : nat)
  : M (list (record value)) :=
  with_table fault (fun t => Returns (map row_to_js (take n (orderBy_id_desc (rows t))), t)).

(** GET /api/email/latest *)
Definition api_email_latest : M response :=
  resp <- knex_select_desc_limit None 1 ;;
  match resp with
  | [] => ret (res_send 404 (lit "Not found"))
  | o :: _ => o' <- lift (deserialize o) ;; ret (res_json (to_object o'))
  end.

(** [_.escape] of lodash.  Two points differ between the versions of the
    library: whether the backtick is escaped as well, and whether the
    elements of an array are converted one by one (null and undefined
    elements then read null and undefined) or by [Array.prototype.join]
    (they then read as the empty string). *)
Module lodash.

Record version := Version {
  escapes_backtick : bool;
  converts_elements : bool
}.

Fixpoint baseToString (v : value) : js_string :=
  match v with
  | JArr l =>
      join [44]
        ((fix each (l : list value) : list js_string :=
            match l with
            | [] => []
            | e :: l' => baseToString e :: each l'
            end) l)
  | _ => ToString v
  end.

Definition toString (ver : version) (v : value) : js_string :=
  match v with
  | JUndefined | JNull => []
  | _ => if converts_elements ver then baseToString v else ToString v
  end.

Definition escapeHtmlChar (ver : version) (c : N) : js_string :=
  if c =? 38 then lit "&amp;"
  else if c =? 60 then lit "&lt;"
  else if c =? 62 then lit "&gt;"
  else if c =? 34 then lit "&quot;"
  else if c =? 39 then lit "&#39;"
  else if (c =? 96) && escapes_backtick ver then lit "&#96;"
  else [c].

Definition escape_string (ver : version) (s : js_string) : js_string :=
  flat_map (escapeHtmlChar ver) s.

Definition escape (ver : version) (v : value) : js_string :=
  escape_string ver (toString ver v).

End lodash.

(** [render_item(item)] of GET / (lines 145 to 147).  [DateToString] is
    the text of [new Date(item.created_at)], which depends on the time
    zone of the process. *)
Definition render_item (ver : lodash.version) (DateToString : Z -> js_string)
    (item : record value) : js_string :=
  let item_id := lodash.escape ver (JNum (Finite (id item))) in
  lit "<tr><td><a href=" ++ [34] ++ lit "/api/email/" ++ item_id ++ [34] ++ lit ">"
    ++ item_id ++ lit "</a>"
    ++ lit "<td><a href=" ++ [34] ++ lit "/api/email/delete/" ++ item_id ++ [34]
    ++ lit "> Del </a>"
    ++ lit "<td><a href=" ++ [34] ++ lit "/api/email/purge/" ++ item_id ++ [34]
    ++ lit "> Purge </a>"
    ++ lit "<td>" ++ lodash.escape ver (to (cols item))
    ++ lit "<td>" ++ lodash.escape ver (from (cols item))
    ++ lit "<td>" ++ lodash.escape ver (subject (cols item))
    ++ lit "<td>" ++ lodash.escape_string ver (DateToString (created_at item)).

(** ** Observations on a run *)

(** The events logged between the states [s] and [s']. *)
Definition new_events (s s' : sink) : list event :=
  drop (length (log s)) (log s').

(** The rows of the table, none while it does not exist. *)
Definition stored (s : sink) : list (record sqlite_value) :=
  match db s with
  | Some t => rows t
  | None => []
  end.

(** The rows whose insert resolved, oldest first. *)
Fixpoint inserted (evs : list event) : list (record sqlite_value) :=
  match evs with
  | [] => []
  | Inserted r :: evs' => r :: inserted evs'
  | _ :: evs' => inserted evs'
  end.

(** The records published by the activities of [env], oldest first. *)
Fixpoint published (env : list activity) : list (record value) :=
  match env with
  | [] => []
  | OtherEmit o :: env' => o :: published env'
  | _ :: env' => published env'
  end.

(** [env] neither registers nor removes a listener that satisfies [P]. *)
Fixpoint leaves_alone (P : listener -> bool) (env : list activity) : bool :=
  match env with
  | [] => true
  | OtherOn f :: env' => negb (P f) && leaves_alone P env'
  | OtherRemoveListener f :: env' => negb (P f) && leaves_alone P env'
  | _ :: env' => leaves_alone P env'
  end.

(** The 'email' events entered and the calls of the listeners that satisfy
    [P], as they follow each other in the log. *)
Definition seen_by (P : listener -> bool) (ev : event) : bool :=
  match ev with
  | Emitted email _ => true
  | Called f email _ => P f
  | _ => false
  end.

(** The fields of a message as the handler takes them. *)
Definition fields (mail_object : MailParser.mail_object)
    (connection : simplesmtp.connection) : columns value :=
  {| html := MailParser.html mail_object;
     text := MailParser.text mail_object;
     headers := MailParser.headers mail_object;
     subject := MailParser.subject mail_object;
     messageId := MailParser.messageId mail_object;
     priority := MailParser.priority mail_object;
     from := simplesmtp.from connection;
     to := simplesmtp.to connection |}.

Definition all_columns {A} (P : A -> bool) (c : columns A) : bool :=
  P (html c) && P (text c) && P (headers c) && P (subject c)
  && P (messageId c) && P (priority c) && P (from c) && P (to c).

(** Every field of every message the activities insert is within the
    model. *)
Fixpoint modelled_activities (env : list activity) : bool :=
  match env with
  | [] => true
  | OtherInsert _ _ mail_object connection :: env' =>
      all_columns modelled (fields mail_object connection) && modelled_activities env'
  | _ :: env' => modelled_activities env'
  end.

(** ** A session *)

(** A message with a plain text body and no html part, from a@x to b@y. *)
Definition sample_mail : MailParser.mail_object :=
  {| MailParser.html := JUndefined;
     MailParser.text := JStr (lit "hello");
     MailParser.headers := JObj [(lit "subject", JStr (lit "Hi"))];
     MailParser.subject := JStr (lit "Hi");
     MailParser.messageId := JUndefined;
     MailParser.priority := JStr (lit "normal") |}.

Definition sample_connection : simplesmtp.connection :=
  {| simplesmtp.from := JStr (lit "a@x");
     simplesmtp.to := JArr [JStr (lit "b@y")] |}.

(** A new database file after [createSchema]. *)
Definition sample_start : sink :=
  snd (createSchema TEXT None (Sink None [] [])).

(** One session delivers the message while a viewer is subscribed. *)
Definition sample_sink : sink :=
  snd (on_end [OtherOn 7%nat] [] [] None None 1000 1001 sample_mail sample_connection
         sample_start).

(** Two messages come in, then the first is deleted. *)
Definition sample_history : list activity :=
  [OtherInsert 1000 1001 sample_mail sample_connection;
   OtherInsert 2000 2001 sample_mail sample_connection;
   OtherDel (satisfies Eq (Integer 1))].

(** The row of the message, and the record [deserialize] makes of it. *)
Definition sample_row : record sqlite_value :=
  Record 1 1000 1001
    {| html := SqlNull;
       text := SqlText ([34] ++ lit "hello" ++ [34]);
       headers := SqlText (lit "{" ++ [34] ++ lit "subject" ++ [34] ++ lit ":"
                             ++ [34] ++ lit "Hi" ++ [34] ++ lit "}");
       subject := SqlText ([34] ++ lit "Hi" ++ [34]);
       messageId := SqlNull;
       priority := SqlText ([34] ++ lit "normal" ++ [34]);
       from := SqlText ([34] ++ lit "a@x" ++ [34]);
       to := SqlText (lit "[" ++ [34] ++ lit "b@y" ++ [34] ++ lit "]") |}.

Definition sample_record : record value :=
  Record 1 1000 1001
    {| html := JNull;
       text := JStr (lit "hello");
       headers := JObj [(lit "subject", JStr (lit "Hi"))];
       subject := JStr (lit "Hi");
       messageId := JNull;
       priority := JStr (lit "normal");
       from := JStr (lit "a@x");
       to := JArr [JStr (lit "b@y")] |}.

(** ** Notions used in the proofs *)

Import JSON.

Definition starts_digit (s : js_string) : bool :=
  match s with
  | c :: _ => is_digit c
  | [] => false
  end.

(** The text of a property of an object. *)
Definition property_text (kv : js_string * value) : js_string :=
  QuoteJSONString (fst kv) ++ 58 :: element_text (snd kv).

(** The text begins as the text of a value does. *)
Definition starts_value (s : js_string) : Prop :=
  match s with
  | c :: _ => is_ws c = false /\ c <> 93 /\ c <> 125
  | [] => False
  end.

(** The properties that [JSON.stringify] writes. *)
Fixpoint kept (o : list (js_string * value)) : list (js_string * value) :=
  match o with
  | [] => []
  | (k, e) :: o' =>
      match e with
      | JUndefined => kept o'
      | _ => (k, e) :: kept o'
      end
  end.

Definition revived_property (kv : js_string * value) : js_string * value :=
  (fst kv, revived (snd kv)).

Definition need_elements (l : list value) : nat :=
  fold_right (fun e n => S (need e + n)) O l.

Definition need_properties (o : list (js_string * value)) : nat :=
  fold_right (fun kv n => S (need (snd kv) + n)) O o.

(** [parse_value] reads from the text of [v] what is left of [v], and
    leaves what follows the text. *)
Definition parses_back (v : value) : Prop :=
  forall fuel rest,
    (need (revived v) <= fuel)%nat -> ends_number rest = true ->
    parse_value fuel (element_text v ++ rest) = Returns (revived v, rest).

(** The events that the handler alone logs are the others. *)
Definition foreign (ev : event) : bool :=
  match ev with
  | Done _ | Reread _ => false
  | _ => true
  end.

(** The largest id given out so far. *)
Definition seq_of (s : sink) : Z :=
  match db s with
  | Some t => seq t
  | None => 0%Z
  end.

(** No row has an id beyond the largest given out, and the rows are in
    ascending order of id. *)
Definition consistent (s : sink) : Prop :=
  Forall (fun r => (id r <= seq_of s)%Z) (stored s)
  /\ StronglySorted Z.lt (map id (stored s)).

Definition decodable (r : record sqlite_value) : Prop :=
  exists o, deserialize (row_to_js r) = Returns o /\ id o = id r.

Definition modelled_activity (a : activity) : bool :=
  match a with
  | OtherInsert _ _ mail_object connection =>
      all_columns modelled (fields mail_object connection)
  | _ => true
  end.

(** [l] without its last [f]. *)
Fixpoint remove_last (f : listener) (l : list listener) : list listener :=
  match l with
  | [] => []
  | h :: l' =>
      if (h =? f)%nat && negb (existsb (fun h' => (h' =? f)%nat) l')
      then l'
      else h :: remove_last f l'
  end.

(** A call of the listener [f] for an 'email' event. *)
Definition called (f : listener) (ev : event) : bool :=
  match ev with
  | Called h email _ => (h =? f)%nat
  | _ => false
  end.

Definition activity_leaves_alone (P : listener -> bool) (a : activity) : bool :=
  match a with
  | OtherOn f | OtherRemoveListener f => negb (P f)
  | _ => true
  end.

(** The failure that [createTable] meets, if any. *)
Definition creation_failure (fault : option sqlite_error) (d : database) : option error :=
  match fault, d with
  | Some e, _ => Some (SqliteError e)
  | None, Some _ => Some (SqliteError TableExists)
  | None, None => None
  end.

(** An integer that a double holds exactly. *)
Definition safe (z : Z) : bool := (Z.abs z <=? MAX_SAFE_INTEGER)%Z.


(** The id and the two timestamps of the row are such integers. *)
Definition safe_key {A} (r : record A) : bool :=
  safe (id r) && safe (created_at r) && safe (updated_at r).


(** The characters that open and close tags and attribute values. *)
Definition markup (c : N) : bool :=
  (c =? 60) || (c =? 62) || (c =? 34) || (c =? 39).

(** No delete and no purge among [env] takes the row with the id [i]. *)
Fixpoint spares (i : Z) (env : list activity) : bool :=
  match env with
  | [] => true
  | OtherDel matched :: env' => negb (matched i) && spares i env'
  | _ :: env' => spares i env'
  end.

(** The number of inserts among the activities. *)
Fixpoint inserts (env : list activity) : nat :=
  match env with
  | [] => O
  | OtherInsert _ _ _ _ :: env' => S (inserts env')
  | _ :: env' => inserts env'
  end.

(** What the listing is to be after the activities [env], when the largest
    id given out was [i] and the listing was [acc]: every message inserted
    while an id is left, under the next id, with the two readings of the
    clock and with its fields as they come back from JSON text, in the
    order of the inserts, less the records deleted or purged since. *)
Fixpoint expected_listing (i : Z) (acc : list (record value)) (env : list activity)
  : list (record value) :=
  match env with
  | [] => acc
  | OtherInsert created updated mail_object connection :: env' =>
      if (i <? MAX_ROWID)%Z
      then expected_listing (i + 1)%Z
             (acc ++ [Record (i + 1)%Z created updated
                        (map_columns revived (fields mail_object connection))])
             env'
      else expected_listing i acc env'
  | OtherDel matched :: env' =>
      expected_listing i (List.filter (fun r => negb (matched (id r))) acc) env'
  | _ :: env' => expected_listing i acc env'
  end.

(** What publications are to log on the emitter [em] during the activities
    [env]: each 'email' event, followed at once by the calls of the
    listeners registered at that time, in registration order. *)
Fixpoint deliveries (em : EventEmitter) (env : list activity) : list event :=
  match env with
  | [] => []
  | OtherEmit o :: env' =>
      Emitted email (Mail o)
        :: map (fun f => Called f email (Mail o)) (listeners_of email em)
        ++ deliveries em env'
  | OtherOn f :: env' => deliveries (on email f em) env'
  | OtherRemoveListener f :: env' => deliveries (removeListener email f em) env'
  | _ :: env' => deliveries em env'
  end.

(** The listener of one viewer. *)
Definition viewer (f : listener) (h : listener) : bool := (h =? f)%nat.

(** Every 'email' event and every call of a listener for one. *)
Definition delivery (ev : event) : bool :=
  match ev with
  | Emitted email _ | Called _ email _ => true
  | _ => false
  end.

(** What the listener [f] is called with during the activities [env],
    when it is registered [n] times at their start: once per registration
    for every record published while it is registered. *)
Fixpoint received (f : listener) (n : nat) (env : list activity) : list event :=
  match env with
  | [] => []
  | OtherEmit o :: env' => repeat (Called f email (Mail o)) n ++ received f n env'
  | OtherOn g :: env' => received f (if (g =? f)%nat then S n else n) env'
  | OtherRemoveListener g :: env' => received f (if (g =? f)%nat then Nat.pred n else n) env'
  | _ :: env' => received f n env'
  end.

(** The readings of the clock that the inserts of [env] store are integers
    a double holds exactly (those of [Date] are, being milliseconds within
    8.64e15 of the epoch). *)
Fixpoint safe_clock (env : list activity) : bool :=
  match env with
  | [] => true
  | OtherInsert created updated _ _ :: env' =>
      safe created && safe updated && safe_clock env'
  | _ :: env' => safe_clock env'
  end.

(** * Proofs *)

Ltac unbool :=
  unfold is_leading_surrogate, is_trailing_surrogate, is_digit, is_ws, is_space in *;
  repeat match goal with
  | H : _ |- _ =>
      first [ rewrite orb_true_iff in H | rewrite andb_true_iff in H
            | rewrite orb_false_iff in H | rewrite andb_false_iff in H
            | rewrite negb_true_iff in H | rewrite negb_false_iff in H
            | rewrite N.leb_le in H | rewrite N.ltb_lt in H | rewrite N.eqb_eq in H
            | rewrite N.leb_gt in H | rewrite N.ltb_ge in H | rewrite N.eqb_neq in H ]
  end.
Ltac blia := unbool; lia.

Lemma hex_value_digit d : d < 16 -> hex_value (hex_digit d) = Some d.
Proof.
  intros H. destruct d as [|p]; [reflexivity|].
  do 5 (destruct p as [p|p|]; try lia; try reflexivity).
Qed.

Lemma hex_digits_value c :
  c < 65536 ->
  ((c / 4096 mod 16 * 16 + c / 256 mod 16) * 16 + c / 16 mod 16) * 16 + c mod 16 = c.
Proof.
  intros H.
  zify. Z.to_euclidean_division_equations. lia.
Qed.

Lemma parse_unicode_escape c rest :
  c < 65536 ->
  parse_string_units (UnicodeEscape c ++ rest) = cons_unit c (parse_string_units rest).
Proof.
  intros H. unfold UnicodeEscape.
  cbn [app parse_string_units].
  change (92 =? 34) with false. change (92 =? 92) with true. change (117 =? 117) with true.
  cbv iota.
  rewrite !hex_value_digit by (apply N.mod_lt; lia).
  rewrite hex_digits_value by assumption. reflexivity.
Qed.

Lemma surrogate_lt c : is_leading_surrogate c || is_trailing_surrogate c = true -> c < 65536 /\ 92 < c.
Proof. intros; blia. Qed.

Lemma parse_literal_unit c rest :
  c <> 34 -> c <> 92 -> 32 <= c ->
  parse_string_units (c :: rest) = cons_unit c (parse_string_units rest).
Proof.
  intros H1 H2 H3. cbn [parse_string_units].
  destruct (N.eqb_spec c 34); [lia|]. destruct (N.eqb_spec c 92); [lia|].
  destruct (N.ltb_spec c 32); [lia|]. reflexivity.
Qed.

Lemma parse_quote_unit c rest :
  parse_string_units (quote_unit c ++ rest) = cons_unit c (parse_string_units rest).
Proof.
  unfold quote_unit.
  repeat match goal with
  | |- context [if ?a =? ?b then _ else _] =>
      destruct (N.eqb_spec a b); [subst; reflexivity|]
  end.
  destruct (_ || _ || _) eqn:E.
  - apply parse_unicode_escape. blia.
  - apply parse_literal_unit; try assumption.
    blia.
Qed.

Lemma parse_quote_units_le n : forall s rest,
  (length s <= n)%nat ->
  parse_string_units (quote_units s ++ 34 :: rest) = Returns (s, rest).
Proof.
  induction n as [|n IH]; intros s rest Hn.
  - destruct s; [reflexivity | simpl in Hn; lia].
  - destruct s as [|c r]; [reflexivity|]. simpl in Hn.
    cbn [quote_units].
    destruct (is_leading_surrogate c) eqn:Hc.
    + destruct r as [|d r'].
      * rewrite parse_unicode_escape by blia. reflexivity.
      * destruct (is_trailing_surrogate d) eqn:Hd.
        -- cbn [app]. rewrite parse_literal_unit by blia.
           rewrite parse_literal_unit by blia.
           rewrite (IH r') by (simpl in Hn; lia). reflexivity.
        -- rewrite <- app_assoc, parse_unicode_escape by blia.
           rewrite (IH (d :: r')) by (simpl in *; lia). reflexivity.
    + rewrite <- app_assoc, parse_quote_unit, (IH r) by lia. reflexivity.
Qed.

Lemma parse_QuoteJSONString s rest :
  parse_string_units (quote_units s ++ 34 :: rest) = Returns (s, rest).
Proof. apply (parse_quote_units_le (length s) s). lia. Qed.

Lemma is_digit_true c : 48 <= c <= 57 -> is_digit c = true.
Proof. intros H. unfold is_digit. apply andb_true_iff. rewrite !N.leb_le. lia. Qed.

Lemma is_ws_false c : 32 < c -> is_ws c = false.
Proof.
  intros H. unfold is_ws. rewrite !orb_false_iff, !N.eqb_neq. lia.
Qed.

Lemma read_digits_units d rest :
  starts_digit rest = false ->
  read_digits (uint_units d ++ rest) = (d, rest).
Proof.
  intros Hr. induction d; simpl;
    try (rewrite IHd; reflexivity).
  destruct rest as [|c r]; [reflexivity|]. simpl in Hr. simpl. rewrite Hr. reflexivity.
Qed.

Lemma to_uint_unorm n : N.to_uint n = unorm (N.to_uint n).
Proof. rewrite <- (Unsigned.to_of (N.to_uint n)), Unsigned.of_to. reflexivity. Qed.

(** The decimal digits of [n] are 0 alone or begin with a digit from 1 to 9. *)
Lemma to_uint_shape n :
  N.to_uint n = D0 Nil \/
  exists c r, uint_units (N.to_uint n) = c :: r /\ 49 <= c <= 57.
Proof.
  rewrite (to_uint_unorm n). unfold unorm.
  destruct (nzhead (N.to_uint n)) eqn:E; simpl; eauto;
    try (right; eexists _, _; split; [reflexivity | lia]).
  exfalso. exact (nzhead_nonzero _ _ E).
Qed.

Lemma to_uint_head n :
  exists c r, uint_units (N.to_uint n) = c :: r /\ 48 <= c <= 57.
Proof.
  destruct (to_uint_shape n) as [E | (c & r & E & Hc)].
  - rewrite E. eexists _, _. split; [reflexivity | lia].
  - eexists _, _. split; [eassumption | lia].
Qed.

Lemma ends_number_digit rest : ends_number rest = true -> starts_digit rest = false.
Proof. destruct rest as [|c r]; simpl; [reflexivity|]. intros H. destruct (is_digit c); simpl in *; congruence. Qed.

Lemma ends_number_fraction rest : ends_number rest = true -> starts_fraction_or_exponent rest = false.
Proof.
  destruct rest as [|c r]; simpl; [reflexivity|]. intros H.
  apply negb_true_iff in H. rewrite !orb_false_iff in H. destruct H as [[[_ H1] H2] H3].
  rewrite H1, H2, H3. reflexivity.
Qed.

Lemma parse_int_units neg n rest :
  ends_number rest = true ->
  (Z.of_N n <= MAX_SAFE_INTEGER)%Z ->
  (neg = true -> n <> 0) ->
  parse_int neg (uint_units (N.to_uint n) ++ rest)
  = Returns (JNum (Finite (if neg then - Z.of_N n else Z.of_N n)%Z), rest).
Proof.
  intros Hr Hn Hneg.
  assert (Hfin : forall d r', d = N.to_uint n -> r' = rest ->
     (if starts_fraction_or_exponent r' then Unmodelled NonIntegerLiteral
      else
        let m := Z.of_N (N.of_uint d) in
        if neg && (m =? 0)%Z then Unmodelled NegativeZero
        else if (MAX_SAFE_INTEGER <? m)%Z then Unmodelled UnsafeInteger
        else Returns (JNum (Finite (if neg then - m else m)%Z), r'))
     = Returns (JNum (Finite (if neg then - Z.of_N n else Z.of_N n)%Z), rest)).
  { intros d r' -> ->. rewrite ends_number_fraction by assumption.
    rewrite Unsigned.of_to. cbv zeta.
    replace (neg && (Z.of_N n =? 0)%Z) with false.
    2:{ destruct neg; [|reflexivity]. symmetry. simpl. apply Z.eqb_neq. specialize (Hneg eq_refl). lia. }
    replace (MAX_SAFE_INTEGER <? Z.of_N n)%Z with false by (symmetry; apply Z.ltb_ge; lia).
    reflexivity. }
  destruct (to_uint_shape n) as [E | (c & r & E & Hc)].
  - rewrite E. simpl. apply (Hfin (D0 Nil) rest); auto.
  - pose proof (read_digits_units (N.to_uint n) rest (ends_number_digit _ Hr)) as Hrd.
    rewrite E in *. cbn [app] in *. unfold parse_int.
    rewrite (is_digit_true c) by lia. cbn [negb].
    replace (c =? 48) with false by (symmetry; apply N.eqb_neq; lia).
    rewrite Hrd. apply Hfin; reflexivity.
Qed.

Lemma skip_ws_start c r : is_ws c = false -> skip_ws (c :: r) = c :: r.
Proof. intros H. simpl. rewrite H. reflexivity. Qed.

Lemma parse_value_number fuel z rest :
  (Z.abs z <= MAX_SAFE_INTEGER)%Z ->
  ends_number rest = true ->
  parse_value (S fuel) (NumberToString (Finite z) ++ rest) = Returns (JNum (Finite z), rest).
Proof.
  intros Hz Hr. unfold NumberToString.
  destruct (Z.ltb_spec z 0) as [Hneg | Hpos].
  - cbn [app parse_value]. cbn.
    rewrite (parse_int_units true (Z.abs_N z) rest Hr) by lia.
    replace (- Z.of_N (Z.abs_N z))%Z with z by lia. reflexivity.
  - cbn [app].
    destruct (to_uint_head (Z.abs_N z)) as (c & r & E & Hc).
    pose proof (parse_int_units false (Z.abs_N z) rest Hr) as Hp.
    rewrite E in *. cbn [app] in *. cbn [parse_value].
    rewrite skip_ws_start by (apply is_ws_false; lia).
    repeat match goal with
    | |- context [if ?a =? ?b then _ else _] =>
        destruct (N.eqb_spec a b); [lia|]
    end.
    rewrite (is_digit_true c) by lia.
    rewrite Hp by (try lia; discriminate).
    replace (Z.of_N (Z.abs_N z)) with z by lia. reflexivity.
Qed.



Lemma value_ind' (P : value -> Prop) :
  P JUndefined -> P JNull -> (forall b, P (JBool b)) -> (forall n, P (JNum n)) ->
  (forall s, P (JStr s)) ->
  (forall l, Forall P l -> P (JArr l)) ->
  (forall o, Forall (fun kv => P (snd kv)) o -> P (JObj o)) ->
  forall v, P v.
Proof.
  intros Hu Hn Hb Hnum Hs Ha Ho.
  fix IH 1. intros [| |b|n|s|l|o].
  - exact Hu.
  - exact Hn.
  - apply Hb.
  - apply Hnum.
  - apply Hs.
  - apply Ha. induction l as [|e l IHl]; constructor; [apply IH | exact IHl].
  - apply Ho. induction o as [|[k e] o IHo]; constructor; [apply IH | exact IHo].
Qed.

Lemma stringify_array l :
  JSON.stringify (JArr l) = Some (91 :: join [44] (map element_text l) ++ [93]).
Proof. reflexivity. Qed.

Lemma stringify_defined v :
  v <> JUndefined -> JSON.stringify v = Some (element_text v).
Proof.
  unfold element_text. destruct (JSON.stringify v) eqn:E; [reflexivity|].
  destruct v as [| |[]|[]| | |]; (discriminate || congruence).
Qed.

Lemma stringify_object o :
  JSON.stringify (JObj o) = Some (123 :: join [44] (map property_text (kept o)) ++ [125]).
Proof.
  unfold JSON.stringify. cbn [SerializeJSONProperty]. do 4 f_equal.
  induction o as [|[k e] o IH]; [reflexivity|].
  destruct e as [| |[]|[z| |]|s|l|o']; cbn [kept map]; rewrite <- IH; reflexivity.
Qed.

Lemma revived_object o : revived (JObj o) = JObj (map revived_property (kept o)).
Proof.
  cbn [revived]. f_equal.
  induction o as [|[k e] o IH]; [reflexivity|].
  destruct e; cbn [kept map]; rewrite <- ?IH; reflexivity.
Qed.

Lemma kept_defined o : Forall (fun kv => snd kv <> JUndefined) (kept o).
Proof.
  induction o as [|[k e] o IH]; [constructor|].
  destruct e; cbn [kept]; try exact IH; constructor; (discriminate || exact IH).
Qed.

Lemma kept_sublist o : kept o `sublist_of` o.
Proof.
  induction o as [|[k e] o IH]; [constructor|].
  destruct e; cbn [kept]; (apply sublist_cons; exact IH) || (apply sublist_skip; exact IH).
Qed.

Lemma element_text_starts v : starts_value (element_text v).
Proof.
  unfold element_text, JSON.stringify.
  destruct v as [| |[]|[z| |]|s|l|o]; cbn; try (repeat split; (reflexivity || discriminate)).
  destruct (Z.ltb_spec z 0); cbn [app].
  - repeat split; (reflexivity || discriminate).
  - destruct (to_uint_head (Z.abs_N z)) as (c & r & -> & Hc).
    repeat split; [apply is_ws_false; lia | lia | lia].
Qed.

Lemma skip_ws_starts s : starts_value s -> skip_ws s = s.
Proof. destruct s as [|c r]; [intros []|]. intros (H & _). simpl. rewrite H. reflexivity. Qed.

Lemma starts_value_app s r : starts_value s -> starts_value (s ++ r).
Proof. destruct s; [intros []|]. exact (fun H => H). Qed.

(** *** Property order *)

Lemma js_string_eqb_eq s t : js_string_eqb s t = true -> s = t.
Proof.
  revert t. induction s as [|c s IH]; intros [|d t] E; simpl in E; try discriminate.
  - reflexivity.
  - apply andb_true_iff in E as [E1 E2]. apply N.eqb_eq in E1. f_equal; auto.
Qed.

Lemma js_string_eqb_refl s : js_string_eqb s s = true.
Proof. induction s as [|c s IH]; simpl; [reflexivity|]. rewrite N.eqb_refl. exact IH. Qed.

(** A key that may follow [k'] is another key, and is not put before it. *)
Lemma key_before_create k k' :
  key_before k' k = true -> js_string_eqb k' k = false /\ precedes k k' = false.
Proof.
  unfold key_before, precedes. intros H.
  assert (Hne : js_string_eqb k' k = true -> False).
  { intros E. apply js_string_eqb_eq in E. subst k'.
    destruct (array_index k); [apply N.ltb_lt in H; lia|].
    rewrite js_string_eqb_refl in H. discriminate. }
  split; [destruct (js_string_eqb k' k); [exfalso; auto | reflexivity]|].
  destruct (array_index k') as [i|], (array_index k) as [j|]; try discriminate; try reflexivity.
  apply N.ltb_ge. apply N.ltb_lt in H. lia.
Qed.

Lemma CreateDataProperty_last o k v :
  forallb (fun k' => key_before k' k) (map fst o) = true ->
  CreateDataProperty o k v = o ++ [(k, v)].
Proof.
  induction o as [|[k' v'] o IH]; intros H; [reflexivity|].
  cbn [map fst forallb] in H. apply andb_true_iff in H as [Hk Ho].
  destruct (key_before_create _ _ Hk) as [E1 E2].
  cbn [CreateDataProperty]. rewrite E1, E2, (IH Ho). reflexivity.
Qed.

Lemma own_keys_ordered_snoc ks k :
  own_keys_ordered (ks ++ [k]) = true ->
  own_keys_ordered ks = true /\ forallb (fun k' => key_before k' k) ks = true.
Proof.
  induction ks as [|k0 ks IH]; cbn [app own_keys_ordered forallb]; [auto|].
  rewrite forallb_app. cbn [forallb]. rewrite !andb_true_iff.
  intros ((H1 & H2 & _) & H3). destruct (IH H3) as [H4 H5]. auto.
Qed.

(** Creating the properties of an object one after the other gives the
    object back. *)
Lemma create_properties o :
  own_keys_ordered (map fst o) = true ->
  fold_left (fun o kv => CreateDataProperty o (fst kv) (snd kv)) o [] = o.
Proof.
  induction o as [|[k v] o IH] using rev_ind; intros H; [reflexivity|].
  rewrite map_app in H. cbn [map fst] in H.
  apply own_keys_ordered_snoc in H as [H1 H2].
  rewrite fold_left_app. cbn [fold_left fst snd]. rewrite (IH H1).
  apply CreateDataProperty_last. exact H2.
Qed.

(** *** Values *)

Lemma parse_elements_join l :
  l <> [] -> Forall parses_back l ->
  forall fuel rest,
    (need_elements (map revived l) <= fuel)%nat ->
    parse_elements fuel (join [44] (map element_text l) ++ 93 :: rest)
    = Returns (map revived l, rest).
Proof.
  intros Hl Hall. induction Hall as [|e l He Hall IH]; [congruence|]. clear Hl.
  intros fuel rest Hfuel. cbn [map need_elements fold_right] in Hfuel.
  fold (need_elements (map revived l)) in Hfuel.
  destruct fuel as [|fuel]; [lia|].
  cbn [parse_elements]. destruct l as [|e2 l].
  - cbn [map join]. rewrite He by (try reflexivity; lia). cbn.
    reflexivity.
  - change (join [44] (map element_text (e :: e2 :: l)))
      with (element_text e ++ [44] ++ join [44] (map element_text (e2 :: l))).
    rewrite <- !app_assoc. rewrite He by (try reflexivity; lia). cbn [bind app].
    change (skip_ws (44 :: ?r)) with (44 :: r). cbv iota. change (44 =? 44) with true. cbv iota.
    rewrite IH by (try discriminate; lia).
    reflexivity.
Qed.

(** *** Objects and the main lemma *)

Lemma parse_members_join o :
  o <> [] -> Forall (fun kv => parses_back (snd kv)) o ->
  forall fuel rest,
    (need_properties (map revived_property o) <= fuel)%nat ->
    parse_members fuel (join [44] (map property_text o) ++ 125 :: rest)
    = Returns (map revived_property o, rest).
Proof.
  intros Ho Hall. induction Hall as [|[k e] o He Hall IH]; [congruence|]. clear Ho.
  intros fuel rest Hfuel. cbn [map need_properties fold_right revived_property fst snd] in Hfuel.
  fold (need_properties (map revived_property o)) in Hfuel. cbn [snd] in He.
  destruct fuel as [|fuel]; [lia|].
  assert (Hone : forall c3 r4,
    ends_number (c3 :: r4) = true ->
    parse_members (S fuel) (property_text (k, e) ++ c3 :: r4)
    = let* (v, r3) := Returns (revived e, c3 :: r4) in
      match skip_ws r3 with
      | c3 :: r4 =>
          if c3 =? 44 then
            let* (m, r5) := parse_members fuel r4 in Returns ((k, v) :: m, r5)
          else if c3 =? 125 then Returns ([(k, v)], r4)
          else Throws SyntaxError
      | [] => Throws SyntaxError
      end).
  { intros c3 r4 Hc. unfold property_text, QuoteJSONString. cbn [fst snd].
    cbn [parse_members app]. change (skip_ws (34 :: ?r)) with (34 :: r). cbv iota.
    change (34 =? 34) with true. cbv iota.
    rewrite <- !app_assoc. cbn [app]. rewrite parse_QuoteJSONString. cbn [bind].
    change (skip_ws (58 :: ?r)) with (58 :: r). cbv iota. change (58 =? 58) with true. cbv iota.
    rewrite He by (try assumption; lia). reflexivity. }
  destruct o as [|kv2 o].
  - cbn [map join]. rewrite Hone by reflexivity. reflexivity.
  - change (join [44] (map property_text ((k, e) :: kv2 :: o)))
      with (property_text (k, e) ++ [44] ++ join [44] (map property_text (kv2 :: o))).
    rewrite <- !app_assoc. cbn [app]. rewrite Hone by reflexivity.
    cbn [bind]. change (skip_ws (44 :: ?r)) with (44 :: r). cbv iota.
    change (44 =? 44) with true. cbv iota.
    rewrite IH by (try discriminate; lia).
    reflexivity.
Qed.

Lemma forallb_sublist {A} (p : A -> bool) (l k : list A) :
  l `sublist_of` k -> forallb p k = true -> forallb p l = true.
Proof.
  induction 1 as [|x l k _ IH|x l k _ IH]; cbn [forallb]; [reflexivity| |];
    rewrite andb_true_iff; intros [Hx Hk]; [rewrite Hx|]; auto.
Qed.

(** Leaving keys out keeps the others in order. *)
Lemma own_keys_ordered_sublist ks ks' :
  ks' `sublist_of` ks -> own_keys_ordered ks = true -> own_keys_ordered ks' = true.
Proof.
  induction 1 as [|k ks' ks Hsub IH|k ks' ks Hsub IH]; cbn [own_keys_ordered];
    [reflexivity| |]; rewrite andb_true_iff; intros [Hk Hks]; [|auto].
  apply andb_true_iff. split; [|auto]. exact (forallb_sublist _ _ _ Hsub Hk).
Qed.

Lemma map_fst_revived o : map fst (map revived_property o) = map fst o.
Proof. induction o as [|[k e] o IH]; [reflexivity|]. cbn [map revived_property fst]. rewrite IH. reflexivity. Qed.

(** [parse_value] reads back the text of a value and leaves what follows. *)
Lemma parse_value_text v : modelled v = true -> parses_back v.
Proof.
  induction v as [| |b|n|s|l IH|o IH] using value_ind'; intros Hv fuel rest Hfuel Hrest;
    (destruct fuel as [|fuel]; [try (destruct n as [z| |]); simpl in Hfuel; lia|]).
  - reflexivity.
  - reflexivity.
  - destruct b; reflexivity.
  - destruct n as [z| |]; [|reflexivity|reflexivity].
    apply parse_value_number; [|assumption]. simpl in Hv. lia.
  - unfold element_text, JSON.stringify, SerializeJSONProperty, QuoteJSONString.
    cbn [app parse_value]. change (skip_ws (34 :: ?r)) with (34 :: r). cbv iota.
    change (34 =? 110) with false. change (34 =? 116) with false.
    change (34 =? 102) with false. change (34 =? 34) with true. cbv iota.
    rewrite <- app_assoc. cbn [app]. rewrite parse_QuoteJSONString. reflexivity.
  - cbn [modelled] in Hv. unfold element_text. rewrite stringify_array.
    cbn [revived] in *.
    cbn [app parse_value]. change (skip_ws (91 :: ?r)) with (91 :: r). cbv iota.
    change (91 =? 110) with false. change (91 =? 116) with false.
    change (91 =? 102) with false. change (91 =? 34) with false.
    change (91 =? 45) with false. change (is_digit 91) with false.
    change (91 =? 91) with true. cbv iota.
    rewrite <- app_assoc. cbn [app].
    destruct l as [|e l]; [reflexivity|].
    assert (Hs : starts_value (join [44] (map element_text (e :: l)) ++ 93 :: rest)).
    { apply starts_value_app. cbn [map join]. destruct (map element_text l);
        [|apply starts_value_app]; apply element_text_starts. }
    rewrite (skip_ws_starts _ Hs).
    destruct (join [44] (map element_text (e :: l)) ++ 93 :: rest) as [|c' r'] eqn:E; [destruct Hs|].
    destruct Hs as (_ & Hc & _). destruct (N.eqb_spec c' 93); [congruence|].
    rewrite <- E. rewrite parse_elements_join; [reflexivity | discriminate | | ].
    + apply List.Forall_forall. intros x Hx. rewrite List.Forall_forall in IH. apply IH; [exact Hx|].
      rewrite forallb_forall in Hv. apply Hv. exact Hx.
    + cbn [need] in Hfuel. unfold need_elements. lia.
  - cbn [modelled] in Hv. apply andb_true_iff in Hv as [Hk Hv].
    unfold element_text. rewrite stringify_object. rewrite revived_object in *.
    cbn [app parse_value]. change (skip_ws (123 :: ?r)) with (123 :: r). cbv iota.
    change (123 =? 110) with false. change (123 =? 116) with false.
    change (123 =? 102) with false. change (123 =? 34) with false.
    change (123 =? 45) with false. change (is_digit 123) with false.
    change (123 =? 91) with false. change (123 =? 123) with true. cbv iota.
    rewrite <- app_assoc. cbn [app].
    pose proof (kept_sublist o) as Hsub.
    destruct (kept o) as [|[k e] o'] eqn:Ekept; [reflexivity|].
    assert (Hs : starts_value (join [44] (map property_text ((k, e) :: o')) ++ 125 :: rest)).
    { apply starts_value_app. cbn [map join]. destruct (map property_text o');
        [|apply starts_value_app]; repeat split; (reflexivity || discriminate). }
    rewrite (skip_ws_starts _ Hs).
    destruct (join [44] (map property_text ((k, e) :: o')) ++ 125 :: rest) as [|c' r'] eqn:E; [destruct Hs|].
    destruct Hs as (_ & _ & Hc). destruct (N.eqb_spec c' 125); [congruence|].
    rewrite <- E. rewrite parse_members_join; [| discriminate | | ].
    + cbn [bind]. rewrite create_properties; [reflexivity|].
      rewrite map_fst_revived. apply (own_keys_ordered_sublist (map fst o)); [|exact Hk].
      apply (fmap_sublist fst). exact Hsub.
    + apply List.Forall_forall. intros x Hx. rewrite List.Forall_forall in IH.
      assert (Hin : In x o).
      { apply list_elem_of_In. eapply elem_of_sublist; [|exact Hsub].
        apply list_elem_of_In. exact Hx. }
      apply IH; [exact Hin|]. rewrite forallb_forall in Hv. apply Hv. exact Hin.
    + cbn [need] in Hfuel. unfold need_properties. lia.
Qed.

(** *** The fuel of JSON.parse is enough *)

Lemma element_text_length v : (1 <= length (element_text v))%nat.
Proof.
  pose proof (element_text_starts v) as H.
  destruct (element_text v); [destruct H | simpl; lia].
Qed.

Lemma need_elements_length l :
  Forall (fun e => need (revived e) <= 2 * length (element_text e))%nat l ->
  (need_elements (map revived l) <= 2 * length (join [44%N] (map element_text l)) + 1)%nat.
Proof.
  induction 1 as [|e l He Hall IH]; [simpl; lia|].
  cbn [need_elements fold_right map]. fold (need_elements (map revived l)).
  destruct l as [|e2 l]; [simpl in *; lia|].
  change (join [44] (element_text e :: map element_text (e2 :: l)))
    with (element_text e ++ [44] ++ join [44] (map element_text (e2 :: l))).
  rewrite !length_app. simpl length at 2. lia.
Qed.

Lemma need_properties_length o :
  Forall (fun kv => need (revived (snd kv)) <= 2 * length (element_text (snd kv)))%nat o ->
  (need_properties (map revived_property o)
   <= 2 * length (join [44%N] (map property_text o)) + 1)%nat.
Proof.
  induction 1 as [|[k e] o He Hall IH]; [simpl; lia|].
  cbn [need_properties fold_right map revived_property fst snd] in *.
  fold (need_properties (map revived_property o)).
  assert (Hp : (length (element_text e) <= length (property_text (k, e)))%nat).
  { unfold property_text, QuoteJSONString. cbn [fst snd]. rewrite !length_app. simpl. lia. }
  destruct o as [|kv2 o]; [simpl in *; lia|].
  change (join [44] (property_text (k, e) :: map property_text (kv2 :: o)))
    with (property_text (k, e) ++ [44] ++ join [44] (map property_text (kv2 :: o))).
  rewrite !length_app. simpl length at 2. lia.
Qed.

Lemma need_length v : (need (revived v) <= 2 * length (element_text v))%nat.
Proof.
  induction v as [| |b|n|s|l IH|o IH] using value_ind';
    try (match goal with
         | |- context [element_text ?v] => pose proof (element_text_length v)
         end; try (destruct n as [z| |]); cbn [revived need]; lia).
  - unfold element_text. rewrite stringify_array.
    cbn [revived need length]. rewrite length_app. fold (need_elements (map revived l)).
    pose proof (need_elements_length l IH). simpl. lia.
  - unfold element_text. rewrite stringify_object, revived_object.
    cbn [need length]. rewrite length_app. fold (need_properties (map revived_property (kept o))).
    assert (H : Forall (fun kv => need (revived (snd kv))
                                  <= 2 * length (element_text (snd kv)))%nat (kept o)).
    { apply List.Forall_forall. intros x Hx. rewrite List.Forall_forall in IH. apply IH.
      apply list_elem_of_In. eapply elem_of_sublist; [|apply kept_sublist].
      apply list_elem_of_In. exact Hx. }
    pose proof (need_properties_length _ H). simpl. lia.
Qed.

(** [JSON.parse] of anything whose ToString is the text of [v] is what is
    left of [v]. *)
Lemma parse_text arg v :
  modelled v = true -> ToString arg = element_text v -> JSON.parse arg = Returns (revived v).
Proof.
  intros Hv Harg. unfold JSON.parse. rewrite Harg.
  rewrite <- (app_nil_r (element_text v)) at 2.
  rewrite (parse_value_text v Hv) by (try reflexivity; pose proof (need_length v); lia).
  reflexivity.
Qed.

Lemma parse_stringify v t :
  modelled v = true -> JSON.stringify v = Some t -> JSON.parse (JStr t) = Returns (revived v).
Proof.
  intros Hv Ht. apply parse_text; [exact Hv|].
  unfold element_text. rewrite Ht. reflexivity.
Qed.

(** A value that JSON text can hold is within the model and comes back
    as it is. *)
Lemma json_value_modelled v : json_value v = true -> modelled v = true.
Proof.
  induction v as [| |b|n|s|l IH|o IH] using value_ind'; intros Hv; try reflexivity.
  - destruct n; (exact Hv || discriminate).
  - cbn [json_value modelled] in *. rewrite forallb_forall in *.
    rewrite List.Forall_forall in IH. auto.
  - cbn [json_value modelled] in *. apply andb_true_iff in Hv as [Hk Hv].
    rewrite Hk. cbn [andb]. rewrite forallb_forall in *.
    rewrite List.Forall_forall in IH. auto.
Qed.

Lemma revived_json_value v : json_value v = true -> revived v = v.
Proof.
  induction v as [| |b|n|s|l IH|o IH] using value_ind'; intros Hv;
    try reflexivity; try discriminate.
  - destruct n; (reflexivity || discriminate).
  - cbn [json_value revived] in *. f_equal.
    induction IH as [|e l He Hl IHl]; [reflexivity|].
    cbn [forallb map] in *. apply andb_true_iff in Hv as [H1 H2].
    rewrite (He H1), (IHl H2). reflexivity.
  - cbn [json_value] in Hv. apply andb_true_iff in Hv as [_ Hv].
    rewrite revived_object. f_equal.
    induction IH as [|[k e] o He Ho IHo]; [reflexivity|].
    cbn [forallb snd] in *. apply andb_true_iff in Hv as [H1 H2].
    destruct e; try discriminate; cbn [kept map]; unfold revived_property at 1;
      cbn [fst snd]; rewrite (He H1), (IHo H2); reflexivity.
Qed.

(** *** Texts bound to a column, and compared with the id column *)

Lemma is_space_false c : 32 < c -> is_space c = false.
Proof. intros H. unfold is_space. rewrite orb_false_iff, andb_false_iff, N.eqb_neq, N.leb_gt, N.leb_gt. lia. Qed.

Lemma read_digits_all d : read_digits (uint_units d) = (d, []).
Proof. rewrite <- (app_nil_r (uint_units d)). apply read_digits_units. reflexivity. Qed.

(** SQLite reads the decimal text of an integer as that integer. *)
Lemma numeric_text_number z : numeric_text (NumberToString (Finite z)) = Returns (Some z).
Proof.
  unfold NumberToString.
  destruct (to_uint_head (Z.abs_N z)) as (c & r & E & Hc).
  pose proof (read_digits_all (N.to_uint (Z.abs_N z))) as Hrd. rewrite E in Hrd.
  destruct (Z.ltb_spec z 0) as [Hneg | Hpos]; cbn [app]; unfold numeric_text.
  - change (skip_space (45 :: ?r)) with (45 :: r). cbv iota. change (45 =? 45) with true. cbv iota.
    rewrite E. rewrite (is_digit_true c) by lia. rewrite Hrd. cbn [skip_space].
    rewrite Unsigned.of_to. do 2 f_equal. lia.
  - rewrite E. cbn [skip_space]. rewrite is_space_false by lia.
    replace (c =? 45) with false by (symmetry; apply N.eqb_neq; lia).
    replace (c =? 43) with false by (symmetry; apply N.eqb_neq; lia).
    rewrite (is_digit_true c) by lia. rewrite Hrd. cbn [skip_space].
    rewrite Unsigned.of_to. do 2 f_equal. lia.
Qed.

(** Text that begins with none of what a number begins with stays text. *)
Lemma numeric_text_other c r :
  32 < c -> c <> 45 -> c <> 43 -> c <> 46 -> is_digit c = false ->
  numeric_text (c :: r) = Returns None.
Proof.
  intros H1 H2 H3 H4 H5. unfold numeric_text. cbn [skip_space].
  rewrite is_space_false by lia.
  replace (c =? 45) with false by (symmetry; apply N.eqb_neq; lia).
  replace (c =? 43) with false by (symmetry; apply N.eqb_neq; lia).
  rewrite H5. replace (c =? 46) with false by (symmetry; apply N.eqb_neq; lia).
  reflexivity.
Qed.

(** The text of a value that is not a number begins with no sign, digit
    or white space. *)
Lemma element_text_head v :
  (exists z, v = JNum (Finite z)) \/
  (exists c r, element_text v = c :: r /\
     (c = 110 \/ c = 116 \/ c = 102 \/ c = 34 \/ c = 91 \/ c = 123)).
Proof.
  destruct v as [| |b|[z| |]|s|l|o].
  - right. exists 110, (lit "ull"). split; [reflexivity | lia].
  - right. exists 110, (lit "ull"). split; [reflexivity | lia].
  - right. destruct b.
    + exists 116, (lit "rue"). split; [reflexivity | lia].
    + exists 102, (lit "alse"). split; [reflexivity | lia].
  - left. exists z. reflexivity.
  - right. exists 110, (lit "ull"). split; [reflexivity | lia].
  - right. exists 110, (lit "ull"). split; [reflexivity | lia].
  - right. exists 34, (JSON.quote_units s ++ [34]). split; [reflexivity | lia].
  - right. unfold element_text. rewrite stringify_array.
    eexists 91, _. split; [reflexivity | lia].
  - right. unfold element_text. rewrite stringify_object.
    eexists 123, _. split; [reflexivity | lia].
Qed.

(** Whatever the affinity of the column, JavaScript reads back from it a
    value whose ToString is the text that was bound. *)
Lemma bind_column_text a v :
  modelled v = true -> v <> JUndefined ->
  exists c, bind_column a (JSON.stringify v) = Returns c
            /\ ToString (column_to_js c) = element_text v.
Proof.
  intros Hv Hdef. rewrite (stringify_defined v Hdef). cbn [bind_column].
  destruct a; cbn [apply_affinity].
  - exists (SqlText (element_text v)). split; reflexivity.
  - destruct (element_text_head v) as [(z & ->) | (c & r & E & Hc)].
    + change (element_text (JNum (Finite z))) with (NumberToString (Finite z)).
      rewrite numeric_text_number. cbn [bind].
      cbn [modelled] in Hv. apply Z.leb_le in Hv.
      assert (Hz : ((- MAX_ROWID - 1 <=? z) && (z <=? MAX_ROWID))%Z = true).
      { apply andb_true_iff. rewrite !Z.leb_le. unfold MAX_ROWID, MAX_SAFE_INTEGER in *. lia. }
      rewrite Hz. exists (SqlInteger z). split; reflexivity.
    + rewrite E, numeric_text_other; cycle 1.
      { lia. } { lia. } { lia. } { lia. }
      { unfold is_digit. apply andb_false_iff. rewrite N.leb_gt, N.leb_gt. lia. }
      cbn [bind]. exists (SqlText (c :: r)). split; reflexivity.
Qed.

Lemma bind_column_undefined a : bind_column a (JSON.stringify JUndefined) = Returns SqlNull.
Proof. reflexivity. Qed.

(** Whatever value the handler encodes, its text can be bound: it is an
    integer literal or does not begin like a number. *)
Lemma bind_column_total a v : exists c, bind_column a (JSON.stringify v) = Returns c.
Proof.
  destruct (JSON.stringify v) as [t|] eqn:E; [|exists SqlNull; reflexivity].
  assert (Ht : t = element_text v) by (unfold element_text; rewrite E; reflexivity).
  subst t. cbn [bind_column]. destruct a; cbn [apply_affinity]; [eauto|].
  destruct (element_text_head v) as [(z & ->) | (c & r & E' & Hc)].
  - change (element_text (JNum (Finite z))) with (NumberToString (Finite z)).
    rewrite numeric_text_number. cbn [bind].
    destruct ((- MAX_ROWID - 1 <=? z) && (z <=? MAX_ROWID))%Z; eauto.
  - rewrite E', numeric_text_other; cycle 1.
    { lia. } { lia. } { lia. } { lia. }
    { unfold is_digit. apply andb_false_iff. rewrite N.leb_gt, N.leb_gt. lia. }
    cbn [bind]. eauto.
Qed.

Lemma bind_columns_total a mail_object connection :
  exists c, bind_columns a (insert_values mail_object connection) = Returns c.
Proof.
  unfold bind_columns, insert_values.
  cbn [html text headers subject messageId priority from to].
  destruct (bind_column_total a (MailParser.html mail_object)) as (c1 & ->).
  destruct (bind_column_total a (MailParser.text mail_object)) as (c2 & ->).
  destruct (bind_column_total a (MailParser.headers mail_object)) as (c3 & ->).
  destruct (bind_column_total a (MailParser.subject mail_object)) as (c4 & ->).
  destruct (bind_column_total a (MailParser.messageId mail_object)) as (c5 & ->).
  destruct (bind_column_total a (MailParser.priority mail_object)) as (c6 & ->).
  destruct (bind_column_total a (simplesmtp.from connection)) as (c7 & ->).
  destruct (bind_column_total a (simplesmtp.to connection)) as (c8 & ->).
  cbn [bind]. eauto.
Qed.

(** The insert of a message stays within the model. *)
Lemma insert_row_modelled cr up mail_object connection t g :
  insert_row cr up (insert_values mail_object connection) t <> Unmodelled g.
Proof.
  unfold insert_row. destruct (MAX_ROWID <=? _)%Z; [discriminate|].
  destruct (bind_columns_total (json_affinity t) mail_object connection) as (c & ->).
  discriminate.
Qed.

(** *** The fuel of the parser *)

Lemma bind_returns {A B} (m : completion A) (k : A -> completion B) b :
  bind m k = Returns b -> exists a, m = Returns a /\ k a = Returns b.
Proof. destruct m; try discriminate. eauto. Qed.

Lemma bind_exhausted {A B} (m : completion A) (k : A -> completion B) :
  bind m k = Unmodelled FuelExhausted ->
  m = Unmodelled FuelExhausted \/ exists a, m = Returns a /\ k a = Unmodelled FuelExhausted.
Proof.
  intros H. destruct m as [a|e|g]; cbn [bind] in H;
    [right; eauto | discriminate | left; injection H as ->; reflexivity].
Qed.

Lemma skip_ws_length s : (length (skip_ws s) <= length s)%nat.
Proof.
  induction s as [|c s IH]; [reflexivity|]. cbn [skip_ws].
  destruct (is_ws c); cbn [length]; lia.
Qed.

Lemma read_digits_length s d r : read_digits s = (d, r) -> (length r <= length s)%nat.
Proof.
  revert d r. induction s as [|c s IH]; intros d r H; cbn [read_digits] in H.
  - injection H as <- <-. reflexivity.
  - destruct (is_digit c).
    + destruct (read_digits s) as [d' r'] eqn:E. injection H as <- <-.
      specialize (IH _ _ eq_refl). cbn [length]. lia.
    + injection H as <- <-. reflexivity.
Qed.

Lemma expect_length w : forall s v v' r,
  expect w s v = Returns (v', r) -> (length r <= length s)%nat.
Proof.
  induction w as [|c w IH]; intros s v v' r H; cbn [expect] in H.
  - injection H as <- <-. reflexivity.
  - destruct s as [|d s]; [discriminate|]. destruct (d =? c); [|discriminate].
    specialize (IH _ _ _ _ H). cbn [length]. lia.
Qed.

Lemma expect_modelled w : forall s v g, expect w s v <> Unmodelled g.
Proof.
  induction w as [|c w IH]; intros s v g; cbn [expect]; [discriminate|].
  destruct s as [|d s]; [discriminate|]. destruct (d =? c); [apply IH | discriminate].
Qed.

Lemma cons_unit_returns c m u r :
  cons_unit c m = Returns (u, r) -> exists u', m = Returns (u', r) /\ u = c :: u'.
Proof.
  unfold cons_unit. intros H. apply bind_returns in H as ([u' r'] & -> & H).
  injection H as <- <-. eauto.
Qed.

Lemma parse_string_units_length n : forall s u r,
  (length s <= n)%nat ->
  parse_string_units s = Returns (u, r) -> (length r < length s)%nat.
Proof.
  induction n as [|n IH]; intros s u r Hn H.
  - destruct s; [discriminate | simpl in Hn; lia].
  - destruct s as [|c s]; [discriminate|]. cbn [parse_string_units] in H. cbn [length] in *.
    destruct (c =? 34); [injection H as <- <-; lia|].
    destruct (c =? 92).
    + destruct s as [|e s]; [discriminate|]. cbn [length] in *.
      destruct (e =? 117).
      * destruct s as [|h3 [|h2 [|h1 [|h0 s]]]]; try discriminate. cbn [length] in *.
        destruct (hex_value h3), (hex_value h2), (hex_value h1), (hex_value h0); try discriminate.
        apply cons_unit_returns in H as (u' & H & _). apply IH in H; lia.
      * destruct (unescape e); [|discriminate].
        apply cons_unit_returns in H as (u' & H & _). apply IH in H; lia.
    + destruct (c <? 32); [discriminate|].
      apply cons_unit_returns in H as (u' & H & _). apply IH in H; lia.
Qed.

Lemma parse_string_units_modelled n : forall s g,
  (length s <= n)%nat -> parse_string_units s <> Unmodelled g.
Proof.
  assert (Hc : forall c m g, m <> Unmodelled g -> cons_unit c m <> Unmodelled g).
  { intros c m g H. destruct m as [[u r]|e|g']; [discriminate | discriminate | exact H]. }
  induction n as [|n IH]; intros s g Hn.
  - destruct s; [discriminate | simpl in Hn; lia].
  - destruct s as [|c s]; [discriminate|]. cbn [parse_string_units]. cbn [length] in *.
    destruct (c =? 34); [discriminate|].
    destruct (c =? 92).
    + destruct s as [|e s]; [discriminate|]. cbn [length] in *.
      destruct (e =? 117).
      * destruct s as [|h3 [|h2 [|h1 [|h0 s]]]]; try discriminate. cbn [length] in *.
        destruct (hex_value h3), (hex_value h2), (hex_value h1), (hex_value h0); try discriminate.
        apply Hc, IH. lia.
      * destruct (unescape e); [|discriminate]. apply Hc, IH. lia.
    + destruct (c <? 32); [discriminate|]. apply Hc, IH. lia.
Qed.

Lemma parse_int_length neg s v r :
  parse_int neg s = Returns (v, r) -> (length r < length s)%nat.
Proof.
  unfold parse_int. destruct s as [|c s]; [discriminate|].
  destruct (is_digit c) eqn:Hc; [|discriminate]. cbn [negb].
  destruct (c =? 48).
  - destruct (starts_fraction_or_exponent s); [discriminate|]. cbv zeta.
    destruct (neg && _); [discriminate|]. destruct (_ <? _)%Z; [discriminate|].
    intros H. injection H as _ <-. cbn [length]. lia.
  - destruct (read_digits (c :: s)) as [d r'] eqn:E.
    destruct (starts_fraction_or_exponent r'); [discriminate|]. cbv zeta.
    destruct (neg && _); [discriminate|]. destruct (_ <? _)%Z; [discriminate|].
    intros H. injection H as _ <-.
    cbn [read_digits] in E. rewrite Hc in E.
    destruct (read_digits s) as [d' r''] eqn:E'. injection E as _ <-.
    apply read_digits_length in E'. cbn [length]. lia.
Qed.

Lemma parse_int_fuel neg s : parse_int neg s <> Unmodelled FuelExhausted.
Proof.
  unfold parse_int. destruct s as [|c s]; [discriminate|].
  destruct (negb (is_digit c)); [discriminate|].
  destruct (if c =? 48 then _ else _) as [d r'].
  destruct (starts_fraction_or_exponent r'); [discriminate|]. cbv zeta.
  destruct (neg && _); [discriminate|]. destruct (_ <? _)%Z; discriminate.
Qed.

(** Whatever is read, the text left is shorter. *)
Lemma parse_consumes fuel :
  (forall s v r, parse_value fuel s = Returns (v, r) -> (length r < length s)%nat)
  /\ (forall s l r, parse_elements fuel s = Returns (l, r) -> (length r < length s)%nat)
  /\ (forall s m r, parse_members fuel s = Returns (m, r) -> (length r < length s)%nat).
Proof.
  induction fuel as [|fuel (IHv & IHe & IHm)]; [repeat split; discriminate|].
  split; [|split].
  - intros s v r H. cbn [parse_value] in H.
    pose proof (skip_ws_length s) as Hs.
    destruct (skip_ws s) as [|c s']; [discriminate|]. cbn [length] in Hs.
    destruct (c =? 110); [apply expect_length in H; lia|].
    destruct (c =? 116); [apply expect_length in H; lia|].
    destruct (c =? 102); [apply expect_length in H; lia|].
    destruct (c =? 34).
    { apply bind_returns in H as ([u r'] & H & E). injection E as _ <-.
      apply (parse_string_units_length _ _ _ _ (Nat.le_refl _)) in H. lia. }
    destruct (c =? 45); [apply parse_int_length in H; lia|].
    destruct (is_digit c); [apply parse_int_length in H; cbn [length] in H; lia|].
    destruct (c =? 91).
    { pose proof (skip_ws_length s') as Hs'.
      destruct (skip_ws s') as [|c' r']; [discriminate|]. cbn [length] in Hs'.
      destruct (c' =? 93); [injection H as _ <-; lia|].
      apply bind_returns in H as ([l r''] & H & E). injection E as _ <-.
      apply IHe in H. lia. }
    destruct (c =? 123); [|discriminate].
    pose proof (skip_ws_length s') as Hs'.
    destruct (skip_ws s') as [|c' r']; [discriminate|]. cbn [length] in Hs'.
    destruct (c' =? 125); [injection H as _ <-; lia|].
    apply bind_returns in H as ([m r''] & H & E). injection E as _ <-.
    apply IHm in H. lia.
  - intros s l r H. cbn [parse_elements] in H.
    apply bind_returns in H as ([v r1] & Hv & H). apply IHv in Hv.
    pose proof (skip_ws_length r1) as Hs.
    destruct (skip_ws r1) as [|c r2]; [discriminate|]. cbn [length] in Hs.
    destruct (c =? 44).
    { apply bind_returns in H as ([l' r3] & H & E). injection E as _ <-.
      apply IHe in H. lia. }
    destruct (c =? 93); [|discriminate]. injection H as _ <-. lia.
  - intros s m r H. cbn [parse_members] in H.
    pose proof (skip_ws_length s) as Hs.
    destruct (skip_ws s) as [|c s1]; [discriminate|]. cbn [length] in Hs.
    destruct (c =? 34); [|discriminate].
    apply bind_returns in H as ([k r1] & Hk & H).
    apply (parse_string_units_length _ _ _ _ (Nat.le_refl _)) in Hk.
    pose proof (skip_ws_length r1) as Hs1.
    destruct (skip_ws r1) as [|c1 r2]; [discriminate|]. cbn [length] in Hs1.
    destruct (c1 =? 58); [|discriminate].
    apply bind_returns in H as ([v r3] & Hv & H). apply IHv in Hv.
    pose proof (skip_ws_length r3) as Hs3.
    destruct (skip_ws r3) as [|c3 r4]; [discriminate|]. cbn [length] in Hs3.
    destruct (c3 =? 44).
    { apply bind_returns in H as ([m' r5] & H & E). injection E as _ <-.
      apply IHm in H. lia. }
    destruct (c3 =? 125); [|discriminate]. injection H as _ <-. lia.
Qed.

(** Two units of fuel for each code unit are enough. *)
Lemma parse_fuel fuel :
  (forall s, (2 * length s < fuel)%nat -> parse_value fuel s <> Unmodelled FuelExhausted)
  /\ (forall s, (2 * length s + 1 < fuel)%nat ->
        parse_elements fuel s <> Unmodelled FuelExhausted)
  /\ (forall s, (2 * length s + 1 < fuel)%nat ->
        parse_members fuel s <> Unmodelled FuelExhausted).
Proof.
  induction fuel as [|fuel (IHv & IHe & IHm)]; [repeat split; intros; lia|].
  destruct (parse_consumes fuel) as (Cv & Ce & Cm).
  split; [|split].
  - intros s Hf H. cbn [parse_value] in H.
    pose proof (skip_ws_length s) as Hs.
    destruct (skip_ws s) as [|c s']; [discriminate|]. cbn [length] in Hs.
    destruct (c =? 110); [exact (expect_modelled _ _ _ _ H)|].
    destruct (c =? 116); [exact (expect_modelled _ _ _ _ H)|].
    destruct (c =? 102); [exact (expect_modelled _ _ _ _ H)|].
    destruct (c =? 34).
    { apply bind_exhausted in H as [H | ([u r'] & _ & H)]; [|discriminate].
      exact (parse_string_units_modelled _ _ _ (Nat.le_refl _) H). }
    destruct (c =? 45); [exact (parse_int_fuel _ _ H)|].
    destruct (is_digit c); [exact (parse_int_fuel _ _ H)|].
    destruct (c =? 91).
    { destruct (skip_ws s') as [|c' r']; [discriminate|].
      destruct (c' =? 93); [discriminate|].
      apply bind_exhausted in H as [H | ([l r''] & _ & H)]; [|discriminate].
      apply IHe in H; [exact H | lia]. }
    destruct (c =? 123); [|discriminate].
    destruct (skip_ws s') as [|c' r']; [discriminate|].
    destruct (c' =? 125); [discriminate|].
    apply bind_exhausted in H as [H | ([m r''] & _ & H)]; [|discriminate].
    apply IHm in H; [exact H | lia].
  - intros s Hf H. cbn [parse_elements] in H.
    apply bind_exhausted in H as [H | ([v r1] & Hv & H)]; [apply IHv in H; [exact H | lia]|].
    apply Cv in Hv.
    pose proof (skip_ws_length r1) as Hs.
    destruct (skip_ws r1) as [|c r2]; [discriminate|]. cbn [length] in Hs.
    destruct (c =? 44).
    { apply bind_exhausted in H as [H | ([l' r3] & _ & H)]; [|discriminate].
      apply IHe in H; [exact H | lia]. }
    destruct (c =? 93); discriminate.
  - intros s Hf H. cbn [parse_members] in H.
    pose proof (skip_ws_length s) as Hs.
    destruct (skip_ws s) as [|c s1]; [discriminate|]. cbn [length] in Hs.
    destruct (c =? 34); [|discriminate].
    apply bind_exhausted in H as [H | ([k r1] & Hk & H)];
      [exact (parse_string_units_modelled _ _ _ (Nat.le_refl _) H)|].
    apply (parse_string_units_length _ _ _ _ (Nat.le_refl _)) in Hk.
    pose proof (skip_ws_length r1) as Hs1.
    destruct (skip_ws r1) as [|c1 r2]; [discriminate|]. cbn [length] in Hs1.
    destruct (c1 =? 58); [|discriminate].
    apply bind_exhausted in H as [H | ([v r3] & Hv & H)]; [apply IHv in H; [exact H | lia]|].
    apply Cv in Hv.
    pose proof (skip_ws_length r3) as Hs3.
    destruct (skip_ws r3) as [|c3 r4]; [discriminate|]. cbn [length] in Hs3.
    destruct (c3 =? 44).
    { apply bind_exhausted in H as [H | ([m' r5] & _ & H)]; [|discriminate].
      apply IHm in H; [exact H | lia]. }
    destruct (c3 =? 125); discriminate.
Qed.

(** [JSON.parse] never runs out of fuel. *)
Lemma parse_value_fuel arg : JSON.parse arg <> Unmodelled FuelExhausted.
Proof.
  unfold JSON.parse. intros H.
  apply bind_exhausted in H as [H | ([v r] & _ & H)].
  - apply (proj1 (parse_fuel _)) in H; [exact H | lia].
  - destruct (skip_ws r); discriminate.
Qed.

(** ** Fields through the table *)

(** One field, from the handler to [deserialize]. *)
Lemma store_read_field a v :
  modelled v = true ->
  exists c, bind_column a (JSON.stringify v) = Returns c
            /\ JSON.parse (column_to_js c) = Returns (revived v).
Proof.
  intros Hv.
  assert (Hcases : v = JUndefined \/ v <> JUndefined)
    by (destruct v; (left; reflexivity) || (right; discriminate)).
  destruct Hcases as [-> | Hdef].
  - exists SqlNull. split; reflexivity.
  - destruct (bind_column_text a v Hv Hdef) as (c & Hc & Ht).
    exists c. split; [exact Hc|]. apply parse_text; assumption.
Qed.

Lemma all_columns_fields {A} (P : A -> bool) c :
  all_columns P c = true ->
  P (html c) = true /\ P (text c) = true /\ P (headers c) = true /\ P (subject c) = true
  /\ P (messageId c) = true /\ P (priority c) = true /\ P (from c) = true /\ P (to c) = true.
Proof. unfold all_columns. rewrite !andb_true_iff. tauto. Qed.

Lemma store_read_fields a i cr up mail_object connection :
  all_columns modelled (fields mail_object connection) = true ->
  exists c,
    bind_columns a (insert_values mail_object connection) = Returns c
    /\ deserialize (row_to_js (Record i cr up c))
       = Returns (Record i cr up (map_columns revived (fields mail_object connection))).
Proof.
  intros H. apply all_columns_fields in H. cbn [fields html text headers subject messageId priority from to] in H.
  destruct H as (H1 & H2 & H3 & H4 & H5 & H6 & H7 & H8).
  destruct (store_read_field a _ H1) as (c1 & B1 & P1).
  destruct (store_read_field a _ H2) as (c2 & B2 & P2).
  destruct (store_read_field a _ H3) as (c3 & B3 & P3).
  destruct (store_read_field a _ H4) as (c4 & B4 & P4).
  destruct (store_read_field a _ H5) as (c5 & B5 & P5).
  destruct (store_read_field a _ H6) as (c6 & B6 & P6).
  destruct (store_read_field a _ H7) as (c7 & B7 & P7).
  destruct (store_read_field a _ H8) as (c8 & B8 & P8).
  exists (Columns c1 c2 c3 c4 c5 c6 c7 c8). split.
  - unfold bind_columns, insert_values. cbn [html text headers subject messageId priority from to].
    rewrite B1, B2, B3, B4, B5, B6, B7, B8. reflexivity.
  - unfold deserialize, row_to_js, map_columns.
    cbn [cols id created_at updated_at html text headers subject messageId priority from to].
    rewrite P1, P2, P3, P4, P5, P6, P7, P8. reflexivity.
Qed.

(** ** The handler of the parser's "end" event *)

Lemma knex_insert_run fault cr up c s :
  knex_insert fault cr up c s =
  match fault with
  | Some e => (Throws (SqliteError e), s)
  | None =>
      match db s with
      | None => (Throws (SqliteError NoSuchTable), s)
      | Some t =>
          match insert_row cr up c t with
          | Returns (r, t') =>
              (Returns [id r], Sink (Some t') (emitter s) (log s ++ [Inserted r]))
          | Throws e => (Throws e, s)
          | Unmodelled g => (Unmodelled g, s)
          end
      end
  end.
Proof.
  unfold knex_insert, mbind, with_table.
  destruct fault; [reflexivity|]. destruct (db s); [|reflexivity].
  destruct (insert_row cr up c t) as [[r t']| |]; reflexivity.
Qed.

Lemma knex_select_where_run fault c b s :
  knex_select_where fault c b s =
  match fault with
  | Some e => (Throws (SqliteError e), s)
  | None =>
      match db s with
      | None => (Throws (SqliteError NoSuchTable), s)
      | Some t =>
          match operand_of b with
          | Returns o =>
              (Returns (map row_to_js (filter (fun r => satisfies c o (id r) = true) (rows t))),
               Sink (Some t) (emitter s) (log s))
          | Throws e => (Throws e, s)
          | Unmodelled g => (Unmodelled g, s)
          end
      end
  end.
Proof.
  unfold knex_select_where, with_table.
  destruct fault; [reflexivity|]. destruct (db s); [|reflexivity].
  destruct (operand_of b); reflexivity.
Qed.

Lemma knex_del_where_run fault c b s :
  knex_del_where fault c b s =
  match fault with
  | Some e => (Throws (SqliteError e), s)
  | None =>
      match db s with
      | None => (Throws (SqliteError NoSuchTable), s)
      | Some t =>
          match operand_of b with
          | Returns o =>
              (Returns (length (filter (fun r => satisfies c o (id r) = true) (rows t))),
               Sink (Some (Table (json_affinity t)
                             (filter (fun r => satisfies c o (id r) = false) (rows t))
                             (seq t)))
                    (emitter s) (log s))
          | Throws e => (Throws e, s)
          | Unmodelled g => (Unmodelled g, s)
          end
      end
  end.
Proof.
  unfold knex_del_where, with_table.
  destruct fault; [reflexivity|]. destruct (db s); [|reflexivity].
  destruct (operand_of b); reflexivity.
Qed.

Lemma sink_eta s : Sink (db s) (emitter s) (log s) = s.
Proof. destruct s; reflexivity. Qed.

(** The delete of a route is the delete for what its parameter is compared
    as. *)
Lemma knex_del_where_compared fault c b o s :
  operand_of b = Returns o ->
  knex_del_where fault c b s = knex_del_compared fault (satisfies c o) s.
Proof.
  intros H. unfold knex_del_where, knex_del_compared, with_table.
  destruct fault; [reflexivity|]. destruct (db s); [|reflexivity]. rewrite H. reflexivity.
Qed.

(** The insert of another session: a row when the table is there and an id
    is left, nothing otherwise. *)
Lemma act_insert_run cr up mail_object connection s :
  act (OtherInsert cr up mail_object connection) s
  = match db s with
    | None => (Returns tt, s)
    | Some t =>
        match insert_row cr up (insert_values mail_object connection) t with
        | Returns (r, t') => (Returns tt, Sink (Some t') (emitter s) (log s ++ [Inserted r]))
        | _ => (Returns tt, s)
        end
    end.
Proof.
  cbn [act]. unfold discard. rewrite knex_insert_run.
  destruct (db s) as [t|]; [|reflexivity].
  pose proof (insert_row_modelled cr up mail_object connection t) as Hm.
  destruct (insert_row cr up _ t) as [[r t']|e|g]; [reflexivity | reflexivity|].
  exfalso. exact (Hm g eq_refl).
Qed.

(** The delete or purge of another request. *)
Lemma act_del_run matched s :
  act (OtherDel matched) s
  = match db s with
    | None => (Returns tt, s)
    | Some t =>
        (Returns tt,
         Sink (Some (Table (json_affinity t)
                       (filter (fun r => matched (id r) = false) (rows t))
                       (seq t)))
              (emitter s) (log s))
    end.
Proof.
  cbn [act]. unfold discard, knex_del_compared, with_table.
  destruct (db s); reflexivity.
Qed.

(** A query that does not return leaves the sink as it was, and one that
    returns adds nothing to the log but its own event. *)
Lemma act_log a s :
  fst (act a s) = Returns tt /\
  exists evs, log (snd (act a s)) = log s ++ evs /\ forallb foreign evs = true.
Proof.
  destruct a as [cr up m c|q|o|f|f].
  - rewrite act_insert_run.
    destruct (db s) as [t|]; [|split; [reflexivity|]; exists []; rewrite app_nil_r; split; reflexivity].
    destruct (insert_row cr up _ t) as [[r t']| |]; cbn [fst snd log];
      (split; [reflexivity|]);
      [exists [Inserted r] | exists [] | exists []]; rewrite ?app_nil_r; split; reflexivity.
  - rewrite act_del_run.
    destruct (db s) as [t|]; cbn [fst snd log]; (split; [reflexivity|]);
      exists []; rewrite app_nil_r; split; reflexivity.
  - cbn [act]. split; [reflexivity|]. unfold emit. cbn [snd log]. eexists. split; [reflexivity|].
    cbn [forallb foreign andb]. induction (listeners_of email (emitter s)); [reflexivity | assumption].
  - split; [reflexivity|]. exists []. rewrite app_nil_r. split; reflexivity.
  - split; [reflexivity|]. exists []. rewrite app_nil_r. split; reflexivity.
Qed.

Lemma suspended_cons a env s :
  suspended (a :: env) s = suspended env (snd (act a s)).
Proof.
  cbn [suspended]. unfold mbind. pose proof (proj1 (act_log a s)) as H.
  destruct (act a s) as [c s']. cbn [fst snd] in *. rewrite H. reflexivity.
Qed.

Lemma suspended_log env : forall s,
  fst (suspended env s) = Returns tt /\
  exists evs, log (snd (suspended env s)) = log s ++ evs /\ forallb foreign evs = true.
Proof.
  induction env as [|a env IH]; intros s.
  - split; [reflexivity|]. exists []. rewrite app_nil_r. split; reflexivity.
  - rewrite suspended_cons. destruct (IH (snd (act a s))) as (H1 & evs2 & H2 & H3).
    destruct (act_log a s) as (_ & evs1 & H4 & H5).
    split; [exact H1|]. exists (evs1 ++ evs2). rewrite H2, H4, app_assoc, forallb_app, H5, H3.
    split; reflexivity.
Qed.

Lemma mbind_suspended {A} env (k : unit -> M A) s :
  mbind (suspended env) k s = k tt (snd (suspended env s)).
Proof.
  unfold mbind. pose proof (proj1 (suspended_log env s)) as H.
  destruct (suspended env s) as [c s']. cbn [fst snd] in *. rewrite H. reflexivity.
Qed.

Lemma suspended_app env1 env2 s :
  snd (suspended (env1 ++ env2) s) = snd (suspended env2 (snd (suspended env1 s))).
Proof.
  revert s. induction env1 as [|a env1 IH]; intros s; [reflexivity|].
  cbn [app]. rewrite !suspended_cons. apply IH.
Qed.

Lemma new_events_app s s' evs : log s' = log s ++ evs -> new_events s s' = evs.
Proof. intros H. unfold new_events. rewrite H. apply drop_app_length. Qed.

(** The handler, with its suspensions resolved. *)
Lemma on_end_unfold env1 env2 env3 fault1 fault2 cr up mail_object connection s :
  on_end env1 env2 env3 fault1 fault2 cr up mail_object connection s =
  let s1 := snd (suspended env1 s) in
  match knex_insert fault1 cr up (insert_values mail_object connection) s1 with
  | (Returns record, s1') =>
      let s2 := snd (suspended env2 s1') in
      match record with
      | [] => (Throws UndefinedBinding, s2)
      | record_0 :: _ =>
          match knex_select_where fault2 Eq (BindNumber record_0) s2 with
          | (Returns mail, s2') =>
              let s3 := snd (suspended env3
                               (Sink (db s2') (emitter s2') (log s2' ++ [Reread mail]))) in
              match deserialize_first mail with
              | Returns o =>
                  (Returns tt,
                   Sink (db s3) (emitter s3)
                        ((log s3 ++ Emitted email (Mail o)
                            :: map (fun f => Called f email (Mail o))
                                 (listeners_of email (emitter s3)))
                         ++ [Done record]))
              | Throws e => (Throws e, s3)
              | Unmodelled g => (Unmodelled g, s3)
              end
          | (Throws e, s2') => (Throws e, s2')
          | (Unmodelled g, s2') => (Unmodelled g, s2')
          end
      end
  | (Throws e, s1') => (Throws e, s1')
  | (Unmodelled g, s1') => (Unmodelled g, s1')
  end.
Proof.
  unfold on_end. rewrite mbind_suspended. cbv zeta. unfold mbind at 1.
  destruct (knex_insert fault1 cr up _ _) as [[record| |] s1']; try reflexivity.
  rewrite mbind_suspended. unfold mbind at 1.
  destruct record as [|record_0 record]; [reflexivity|].
  unfold first at 1, ret at 1. unfold mbind at 1.
  destruct (knex_select_where fault2 Eq _ _) as [[mail| |] s2']; try reflexivity.
  unfold mbind at 1, record_event at 1. rewrite mbind_suspended.
  unfold mbind at 1, lift at 1.
  destruct (deserialize_first mail); reflexivity.
Qed.

(** The two ways a run of the handler ends: it has stored, read back,
    published and acknowledged, in this order; or it stopped on a failure
    and acknowledged nothing. *)
Lemma on_end_cases env1 env2 env3 fault1 fault2 cr up mail_object connection s final :
  final = on_end env1 env2 env3 fault1 fault2 cr up mail_object connection s ->
  let s1 := snd (suspended env1 s) in
  (exists t r t' mail o,
     fault1 = None /\ db s1 = Some t /\
     insert_row cr up (insert_values mail_object connection) t = Returns (r, t') /\
     let s2 := snd (suspended env2 (Sink (Some t') (emitter s1) (log s1 ++ [Inserted r]))) in
     knex_select_where fault2 Eq (BindNumber (id r)) s2 = (Returns mail, s2) /\
     deserialize_first mail = Returns o /\
     let s3 := snd (suspended env3 (Sink (db s2) (emitter s2) (log s2 ++ [Reread mail]))) in
     final = (Returns tt,
              Sink (db s3) (emitter s3)
                   ((log s3 ++ Emitted email (Mail o)
                       :: map (fun f => Called f email (Mail o)) (listeners_of email (emitter s3)))
                    ++ [Done [id r]])))
  \/ (fst final <> Returns tt /\
      exists evs, log (snd final) = log s ++ evs /\
                  forallb (fun ev => match ev with Done _ => false | _ => true end) evs = true).
Proof.
  intros Hfinal s1. rewrite on_end_unfold in Hfinal. cbv zeta in Hfinal. fold s1 in Hfinal.
  destruct (suspended_log env1 s) as (_ & evs1 & L1 & F1). fold s1 in L1.
  assert (Hweak : forall evs, forallb foreign evs = true ->
            forallb (fun ev => match ev with Done _ => false | _ => true end) evs = true).
  { intros evs H. rewrite forallb_forall in *. intros x Hx. specialize (H x Hx).
    destruct x; (reflexivity || discriminate). }
  rewrite knex_insert_run in Hfinal.
  destruct fault1 as [e|].
  { right. subst final. cbn [fst snd]. split; [discriminate|]. exists evs1. auto. }
  destruct (db s1) as [t|] eqn:Hdb.
  2:{ right. subst final. cbn [fst snd]. split; [discriminate|]. exists evs1. auto. }
  destruct (insert_row cr up (insert_values mail_object connection) t) as [[r t']|e|g] eqn:Hins.
  2,3: right; subst final; cbn [fst snd]; split; [discriminate|]; exists evs1; auto.
  set (s1' := Sink (Some t') (emitter s1) (log s1 ++ [Inserted r])) in *.
  destruct (suspended_log env2 s1') as (_ & evs2 & L2 & F2).
  set (s2 := snd (suspended env2 s1')) in *.
  destruct (knex_select_where fault2 Eq (BindNumber (id r)) s2) as [[mail|e|g] s2'] eqn:Hsel.
  2,3: right; subst final; cbn [fst snd]; split; [discriminate|];
       rewrite knex_select_where_run in Hsel;
       assert (s2' = s2) as -> by
         (destruct fault2; [congruence|]; destruct (db s2); [|congruence];
          cbn [operand_of] in Hsel; congruence);
       exists (evs1 ++ [Inserted r] ++ evs2);
       rewrite L2; subst s1'; cbn [log]; rewrite L1, !forallb_app, (Hweak _ F1), (Hweak _ F2);
       rewrite <- !app_assoc; split; reflexivity.
  assert (s2' = s2) as ->.
  { rewrite knex_select_where_run in Hsel. destruct fault2; [congruence|].
    destruct (db s2) eqn:E; [|congruence]. cbn [operand_of bind] in Hsel.
    injection Hsel as _ <-. rewrite <- E. apply sink_eta. }
  set (s2r := Sink (db s2) (emitter s2) (log s2 ++ [Reread mail])) in *.
  destruct (suspended_log env3 s2r) as (_ & evs3 & L3 & F3).
  set (s3 := snd (suspended env3 s2r)) in *.
  destruct (deserialize_first mail) as [o|e|g] eqn:Hdes.
  2,3: right; subst final; cbn [fst snd]; split; [discriminate|];
       exists (evs1 ++ [Inserted r] ++ evs2 ++ [Reread mail] ++ evs3);
       rewrite L3; subst s2r; cbn [log]; rewrite L2; subst s1'; cbn [log];
       rewrite L1, !forallb_app, (Hweak _ F1), (Hweak _ F2), (Hweak _ F3);
       rewrite <- !app_assoc; split; reflexivity.
  left. exists t, r, t', mail, o. repeat split; try assumption; try reflexivity.
Qed.

Lemma insert_row_spec cr up c t r t' :
  insert_row cr up c t = Returns (r, t') ->
  rows t' = rows t ++ [r] /\ seq t' = id r /\ json_affinity t' = json_affinity t
  /\ id r = (Z.max (seq t) (max_rowid (rows t)) + 1)%Z
  /\ created_at r = cr /\ updated_at r = up
  /\ bind_columns (json_affinity t) c = Returns (cols r).
Proof.
  unfold insert_row. destruct (MAX_ROWID <=? _)%Z; [discriminate|].
  destruct (bind_columns (json_affinity t) c) as [c'| |]; try discriminate.
  cbn [bind]. intros H. injection H as <- <-. repeat split; reflexivity.
Qed.

Lemma not_done_in evs record :
  forallb (fun ev => match ev with Done _ => false | _ => true end) evs = true ->
  ~ In (Done record) evs.
Proof. rewrite forallb_forall. intros H Hin. specialize (H _ Hin). discriminate. Qed.

Lemma foreign_not_done evs :
  forallb foreign evs = true ->
  forallb (fun ev => match ev with Done _ => false | _ => true end) evs = true.
Proof.
  rewrite !forallb_forall. intros H x Hx. specialize (H x Hx).
  destruct x; (reflexivity || discriminate).
Qed.

Lemma calls_not_done (o : payload) e ls :
  forallb (fun ev => match ev with Done _ => false | _ => true end)
          (map (fun f => Called f e o) ls) = true.
Proof. induction ls; [reflexivity | assumption]. Qed.

(** A route parameter that is the decimal text of [k] is compared as [k]. *)
Lemma operand_of_number_text k :
  operand_of (BindString (NumberToString (Finite k))) = operand_of (BindNumber k).
Proof. cbn [operand_of]. rewrite numeric_text_number. reflexivity. Qed.

Lemma knex_select_where_text fault c k s :
  knex_select_where fault c (BindString (NumberToString (Finite k))) s
  = knex_select_where fault c (BindNumber k) s.
Proof. rewrite !knex_select_where_run, operand_of_number_text. reflexivity. Qed.

Lemma knex_del_where_text fault c k s :
  knex_del_where fault c (BindString (NumberToString (Finite k))) s
  = knex_del_where fault c (BindNumber k) s.
Proof. rewrite !knex_del_where_run, operand_of_number_text. reflexivity. Qed.

Local Close Scope N_scope.
Local Open Scope Z_scope.

(** ** The table over the lifetime of the store *)

Lemma modelled_activities_cons a env :
  modelled_activities (a :: env) = modelled_activity a && modelled_activities env.
Proof. destruct a; reflexivity. Qed.

(** What an activity does to the table and to the log. *)
Lemma act_effect a s :
  (exists cr up m c t r t',
      a = OtherInsert cr up m c /\ db s = Some t
      /\ insert_row cr up (insert_values m c) t = Returns (r, t')
      /\ snd (act a s) = Sink (Some t') (emitter s) (log s ++ [Inserted r]))
  \/ (exists matched t,
      a = OtherDel matched /\ db s = Some t
      /\ snd (act a s)
         = Sink (Some (Table (json_affinity t)
                         (filter (fun r => matched (id r) = false) (rows t))
                         (seq t)))
                (emitter s) (log s))
  \/ (exists em evs,
      snd (act a s) = Sink (db s) em (log s ++ evs) /\ inserted evs = []).
Proof.
  destruct a as [cr up m c|q|o|f|f].
  - rewrite act_insert_run. destruct (db s) as [t|] eqn:E.
    + destruct (insert_row cr up _ t) as [[r t']| |] eqn:Hins; cbn [snd].
      * left. exists cr, up, m, c, t, r, t'. auto.
      * right. right. exists (emitter s), []. rewrite app_nil_r, <- E, sink_eta. auto.
      * right. right. exists (emitter s), []. rewrite app_nil_r, <- E, sink_eta. auto.
    + right. right. exists (emitter s), []. cbn [snd]. rewrite app_nil_r, <- E, sink_eta. auto.
  - rewrite act_del_run. destruct (db s) as [t|] eqn:E; cbn [snd].
    + right. left. exists q, t. auto.
    + right. right. exists (emitter s), []. rewrite app_nil_r, <- E, sink_eta. auto.
  - right. right. cbn [act]. unfold emit. cbn [snd]. eexists _, _. split; [reflexivity|].
    cbn [inserted]. induction (listeners_of email (emitter s)); [reflexivity | assumption].
  - right. right. exists (on email f (emitter s)), []. rewrite app_nil_r. auto.
  - right. right. exists (removeListener email f (emitter s)), []. rewrite app_nil_r. auto.
Qed.

Lemma max_rowid_bound l m :
  0 <= m -> Forall (fun r : record sqlite_value => id r <= m) l -> max_rowid l <= m.
Proof. intros Hm. induction 1; cbn [max_rowid fold_right]; [lia|]. fold (max_rowid l). lia. Qed.

Lemma max_rowid_ge l r : In r l -> id r <= max_rowid l.
Proof.
  induction l as [|x l IH]; intros Hin; [destruct Hin|].
  cbn [max_rowid fold_right]. fold (max_rowid l). destruct Hin as [->|Hin].
  - lia.
  - specialize (IH Hin). lia.
Qed.

Lemma StronglySorted_filter_map {A} (f : A -> Z) (P : A -> Prop) `{!forall x, Decision (P x)} l :
  StronglySorted Z.lt (map f l) -> StronglySorted Z.lt (map f (filter P l)).
Proof.
  induction l as [|x l IH]; intros Hs; [constructor|].
  cbn [map] in Hs. apply StronglySorted_inv in Hs as [H1 H2].
  rewrite filter_cons. destruct (decide (P x)); [|auto].
  cbn [map]. constructor; [auto|].
  rewrite List.Forall_forall in *. intros y Hy. apply H2.
  apply in_map_iff in Hy as (z & <- & Hz). apply in_map_iff. exists z. split; [reflexivity|].
  apply list_elem_of_In. apply list_elem_of_In in Hz. apply list_elem_of_filter in Hz. tauto.
Qed.

Lemma Forall_filter_keep {A} (Q : A -> Prop) (P : A -> Prop) `{!forall x, Decision (P x)} l :
  Forall Q l -> Forall Q (filter P l).
Proof.
  induction 1 as [|x l Hx Hl IH]; [constructor|].
  rewrite filter_cons. destruct (decide (P x)); [constructor|]; assumption.
Qed.

(** An insert gives out an id above every id given out before. *)
Lemma insert_row_fresh cr up c t r t' :
  insert_row cr up c t = Returns (r, t') ->
  seq t < id r /\ Forall (fun r' => id r' < id r) (rows t).
Proof.
  intros H. destruct (insert_row_spec _ _ _ _ _ _ H) as (_ & _ & _ & Hid & _).
  split; [lia|]. apply List.Forall_forall. intros x Hx.
  pose proof (max_rowid_ge _ _ Hx). lia.
Qed.

(** One activity keeps the table consistent. *)
Lemma act_consistent a s :
  consistent s ->
  exists evs,
    log (snd (act a s)) = log s ++ evs
    /\ consistent (snd (act a s))
    /\ seq_of s <= seq_of (snd (act a s))
    /\ Forall (fun r => seq_of s < id r <= seq_of (snd (act a s))) (inserted evs)
    /\ StronglySorted Z.lt (map id (inserted evs))
    /\ stored (snd (act a s)) `sublist_of` stored s ++ inserted evs.
Proof.
  intros [Hle Hsorted].
  destruct (act_effect a s)
    as [(cr & up & m & c & t & r & t' & -> & Hdb & Hins & ->)
       |[(q & t & -> & Hdb & ->)
        |(em & evs & -> & Hevs)]].
  - destruct (insert_row_spec _ _ _ _ _ _ Hins) as (Hrows & Hseq & _ & Hid & _).
    destruct (insert_row_fresh _ _ _ _ _ _ Hins) as (Hfresh & Hall).
    unfold consistent, stored, seq_of in *. cbn [db log]. rewrite Hdb in *. rewrite Hrows, Hseq.
    exists [Inserted r]. cbn [inserted map].
    split; [reflexivity|]. split; [split|].
    + apply Forall_app. split; [|repeat constructor; lia].
      eapply Forall_impl; [exact Hle|]. cbn. intros; lia.
    + rewrite map_app. apply StronglySorted_app_2; [|exact Hsorted|repeat constructor].
      intros x y Hx Hy. apply list_elem_of_In in Hx, Hy. cbn in Hy. destruct Hy as [<-|[]].
      apply in_map_iff in Hx as (z & <- & Hz). rewrite List.Forall_forall in Hall. auto.
    + split; [lia|]. split; [repeat constructor; lia|]. split; [repeat constructor|]. reflexivity.
  - unfold consistent, stored, seq_of in *. cbn [db log seq rows]. rewrite Hdb in *.
    exists []. rewrite !app_nil_r. cbn [inserted map].
    split; [reflexivity|]. split; [split|].
    + apply Forall_filter_keep. exact Hle.
    + apply StronglySorted_filter_map. exact Hsorted.
    + split; [lia|]. split; [constructor|]. split; [constructor|]. apply sublist_filter.
  - unfold consistent, stored, seq_of in *. cbn [db log]. exists evs. rewrite Hevs. cbn [map].
    rewrite app_nil_r. repeat split; try assumption; try constructor; try lia. reflexivity.
Qed.

Lemma inserted_app evs1 evs2 : inserted (evs1 ++ evs2) = inserted evs1 ++ inserted evs2.
Proof.
  induction evs1 as [|ev evs1 IH]; [reflexivity|].
  destruct ev; cbn [app inserted]; rewrite IH; reflexivity.
Qed.

(** Any activity keeps the table consistent; the ids it gives out ascend
    and lie above the ones given out before. *)
Lemma suspended_consistent env : forall s,
  consistent s ->
  exists evs,
    log (snd (suspended env s)) = log s ++ evs
    /\ consistent (snd (suspended env s))
    /\ seq_of s <= seq_of (snd (suspended env s))
    /\ Forall (fun r => seq_of s < id r <= seq_of (snd (suspended env s))) (inserted evs)
    /\ StronglySorted Z.lt (map id (inserted evs))
    /\ stored (snd (suspended env s)) `sublist_of` stored s ++ inserted evs.
Proof.
  induction env as [|a env IH]; intros s Hs.
  - exists []. rewrite app_nil_r. cbn [suspended ret snd inserted map].
    repeat split; try (apply Hs); try constructor; try lia. rewrite app_nil_r. reflexivity.
  - rewrite suspended_cons.
    destruct (act_consistent a s Hs) as (evs1 & L1 & C1 & S1 & F1 & O1 & B1).
    destruct (IH _ C1) as (evs2 & L2 & C2 & S2 & F2 & O2 & B2).
    set (s1 := snd (act a s)) in *. set (s2 := snd (suspended env s1)) in *.
    exists (evs1 ++ evs2). rewrite inserted_app, map_app.
    split; [rewrite L2, L1, app_assoc; reflexivity|].
    split; [exact C2|]. split; [lia|].
    split; [|split].
    + apply Forall_app. split.
      * eapply Forall_impl; [exact F1|]. cbn. intros; lia.
      * eapply Forall_impl; [exact F2|]. cbn. intros; lia.
    + apply StronglySorted_app_2; [|exact O1|exact O2].
      intros x y Hx Hy. apply list_elem_of_In in Hx, Hy.
      apply in_map_iff in Hx as (rx & <- & Hx). apply in_map_iff in Hy as (ry & <- & Hy).
      rewrite List.Forall_forall in F1, F2. specialize (F1 _ Hx). specialize (F2 _ Hy). lia.
    + etransitivity; [exact B2|]. rewrite app_assoc. apply sublist_app; [exact B1 | reflexivity].
Qed.

Lemma createSchema_new json em lg :
  createSchema json None (Sink None em lg) = (Returns tt, Sink (Some (Table json [] 0)) em lg).
Proof. reflexivity. Qed.

(** ** The listing *)

Lemma record_eta {A} (r : record A) :
  Record (id r) (created_at r) (updated_at r) (cols r) = r.
Proof. destruct r; reflexivity. Qed.

Lemma act_decodable a s :
  modelled_activity a = true ->
  Forall decodable (stored s) -> Forall decodable (stored (snd (act a s))).
Proof.
  intros Ha Hs.
  destruct (act_effect a s)
    as [(cr & up & m & c & t & r & t' & -> & Hdb & Hins & ->)
       |[(q & t & -> & Hdb & ->)
        |(em & evs & -> & Hevs)]]; unfold stored in *; cbn [db rows] in *.
  - rewrite Hdb in Hs.
    destruct (insert_row_spec _ _ _ _ _ _ Hins) as (-> & _ & _ & _ & Hcr & Hup & Hbind).
    apply Forall_app. split; [exact Hs|]. constructor; [|constructor].
    cbn [modelled_activity] in Ha.
    destruct (store_read_fields (json_affinity t) (id r) cr up m c Ha) as (c' & Hc' & Hd).
    rewrite Hbind in Hc'. injection Hc' as <-. rewrite <- Hcr, <- Hup, record_eta in Hd.
    eexists. split; [exact Hd | reflexivity].
  - rewrite Hdb in Hs. apply Forall_filter_keep. exact Hs.
  - exact Hs.
Qed.

Lemma act_table a s : is_Some (db s) -> is_Some (db (snd (act a s))).
Proof.
  intros Hs.
  destruct (act_effect a s)
    as [(cr & up & m & c & t & r & t' & -> & Hdb & Hins & ->)
       |[(q & t & -> & Hdb & ->)
        |(em & evs & -> & Hevs)]]; cbn [db]; eauto.
Qed.

Lemma suspended_decodable env : forall s,
  modelled_activities env = true ->
  is_Some (db s) -> Forall decodable (stored s) ->
  is_Some (db (snd (suspended env s))) /\ Forall decodable (stored (snd (suspended env s))).
Proof.
  induction env as [|a env IH]; intros s Henv Hdb Hs; [auto|].
  rewrite modelled_activities_cons in Henv. apply andb_true_iff in Henv as [Ha Henv].
  rewrite suspended_cons. apply IH; [exact Henv | apply act_table; exact Hdb |].
  apply act_decodable; assumption.
Qed.

Lemma forEach_deserialize_decodable l :
  Forall decodable l ->
  exists resp, forEach_deserialize (map row_to_js l) = Returns resp /\ map id resp = map id l.
Proof.
  induction 1 as [|r l (o & Ho & Hid) Hl (resp & IH & Hids)].
  - exists []. split; reflexivity.
  - exists (o :: resp). cbn [map forEach_deserialize]. rewrite Ho, IH. cbn [bind].
    rewrite Hid, Hids. split; reflexivity.
Qed.

Lemma knex_select_table s t :
  db s = Some t -> knex_select None s = (Returns (map row_to_js (rows t)), s).
Proof.
  intros H. unfold knex_select, with_table. rewrite H. cbn [bind].
  rewrite <- H, sink_eta. reflexivity.
Qed.

(** ** The ids given out *)

Lemma createSchema_consistent json em lg :
  consistent (snd (createSchema json None (Sink None em lg))).
Proof. split; constructor. Qed.

Lemma suspended_table env s : is_Some (db s) -> is_Some (db (snd (suspended env s))).
Proof.
  revert s. induction env as [|a env IH]; intros s Hs; [exact Hs|].
  rewrite suspended_cons. apply IH, act_table, Hs.
Qed.

Lemma insert_row_full cr up c t :
  MAX_ROWID <= seq t -> insert_row cr up c t = Throws (SqliteError Full).
Proof.
  intros H. unfold insert_row.
  destruct (Z.leb_spec MAX_ROWID (Z.max (seq t) (max_rowid (rows t)))); [reflexivity | lia].
Qed.

(** In a table whose rows have ids up to the largest given out, an insert
    stores the message under the next id while an id is left. *)
Lemma insert_row_next_id cr up mail_object connection s t :
  db s = Some t -> consistent s -> 0 <= seq t -> seq t < MAX_ROWID ->
  exists c,
    bind_columns (json_affinity t) (insert_values mail_object connection) = Returns c
    /\ insert_row cr up (insert_values mail_object connection) t
       = Returns (Record (seq t + 1) cr up c,
                  Table (json_affinity t) (rows t ++ [Record (seq t + 1) cr up c]) (seq t + 1)).
Proof.
  intros Hdb [Hle _] H0 Hseq. unfold stored, seq_of in Hle. rewrite Hdb in Hle.
  pose proof (max_rowid_bound (rows t) (seq t) H0 Hle) as Hmax.
  destruct (bind_columns_total (json_affinity t) mail_object connection) as (c & Hc).
  exists c. split; [exact Hc|].
  unfold insert_row. rewrite (Z.max_l (seq t) (max_rowid (rows t))) by lia.
  destruct (Z.leb_spec MAX_ROWID (seq t)); [lia|]. rewrite Hc. reflexivity.
Qed.

Lemma act_insert s t cr up mail_object connection r t' :
  db s = Some t ->
  insert_row cr up (insert_values mail_object connection) t = Returns (r, t') ->
  snd (act (OtherInsert cr up mail_object connection) s)
  = Sink (Some t') (emitter s) (log s ++ [Inserted r]).
Proof. intros Hdb Hins. rewrite act_insert_run, Hdb, Hins. reflexivity. Qed.

(** What is not an insert gives out no id. *)
Lemma act_other a s :
  inserts [a] = O ->
  seq_of (snd (act a s)) = seq_of s
  /\ exists evs, log (snd (act a s)) = log s ++ evs /\ inserted evs = [].
Proof.
  intros Ha.
  destruct (act_effect a s)
    as [(cr & up & m & c & t & r & t' & -> & Hdb & Hins & ->)
       |[(q & t & -> & Hdb & ->)
        |(em' & evs & -> & Hevs)]]; [discriminate| |].
  - unfold seq_of. cbn [db seq log]. rewrite Hdb. split; [reflexivity|].
    exists []. rewrite app_nil_r. split; reflexivity.
  - split; [reflexivity | eauto].
Qed.

Lemma seq_ids i n :
  i + 1 :: map (fun k => i + 1 + Z.of_nat k) (List.seq 1 n)
  = map (fun k => i + Z.of_nat k) (List.seq 1 (S n)).
Proof.
  cbn [List.seq map]. f_equal; try lia.
  rewrite <- (List.seq_shift n 1), List.map_map. apply map_ext. intros k. lia.
Qed.

(** While ids are left, every insert of the history is given the next id. *)
Lemma suspended_ids env : forall s,
  consistent s -> 0 <= seq_of s -> is_Some (db s) ->
  seq_of s + Z.of_nat (inserts env) <= MAX_ROWID ->
  exists evs,
    log (snd (suspended env s)) = log s ++ evs
    /\ map id (inserted evs)
       = map (fun k => seq_of s + Z.of_nat k) (List.seq 1 (inserts env)).
Proof.
  induction env as [|a env IH]; intros s Hc H0 Hdb Hn.
  - exists []. rewrite app_nil_r. split; reflexivity.
  - rewrite suspended_cons.
    destruct (act_consistent a s Hc) as (_ & _ & C1 & S1 & _).
    pose proof (act_table a s Hdb) as Hdb1.
    destruct (inserts [a]) eqn:Ea.
    + destruct (act_other a s Ea) as (Hs & evs1 & L1 & I1).
      assert (En : inserts (a :: env) = inserts env) by (destruct a; (discriminate || reflexivity)).
      rewrite En in *.
      destruct (IH (snd (act a s)) C1 ltac:(lia) Hdb1 ltac:(lia)) as (evs2 & L2 & I2).
      exists (evs1 ++ evs2). split.
      * rewrite L2, L1, app_assoc. reflexivity.
      * rewrite inserted_app, I1. cbn [app]. rewrite I2, Hs. reflexivity.
    + destruct a as [cr up m c| | | |]; try discriminate. cbn [inserts] in *.
      destruct Hdb as [t Ht].
      assert (Hs : seq_of s = seq t) by (unfold seq_of; rewrite Ht; reflexivity).
      destruct (insert_row_next_id cr up m c s t Ht Hc ltac:(lia) ltac:(lia)) as (c' & _ & Hins).
      rewrite (act_insert s t _ _ _ _ _ _ Ht Hins) in *.
      set (r := Record (seq t + 1) cr up c') in *.
      set (s1 := Sink _ (emitter s) (log s ++ [Inserted r])) in *.
      assert (Hs1 : seq_of s1 = seq_of s + 1) by (rewrite Hs; reflexivity).
      destruct (IH s1 C1 ltac:(lia) Hdb1 ltac:(lia)) as (evs2 & L2 & I2).
      exists (Inserted r :: evs2). split.
      * rewrite L2. subst s1. cbn [log]. rewrite <- app_assoc. reflexivity.
      * cbn [inserted map]. rewrite I2, Hs1. change (id r) with (seq t + 1).
        rewrite <- Hs. apply seq_ids.
Qed.

(** C3.  From the creation of the table on, whatever is inserted, deleted
    and purged (the activities [env1], then [env2]), while ids are left
    every insert is given an id, and the N inserts of the history are
    given the ids 1 to N in the order of the inserts: they are strictly
    increasing, hence distinct, and every row that was in the table at
    some time ([s1]) has an id below the id of every row inserted later,
    whether it has been deleted in between or not. *)
Theorem ids_ascend_and_are_not_reused json em lg env1 env2 :
  Z.of_nat (inserts (env1 ++ env2)) <= MAX_ROWID ->
  let s0 := snd (createSchema json None (Sink None em lg)) in
  let s1 := snd (suspended env1 s0) in
  let s2 := snd (suspended env2 s1) in
  map id (inserted (new_events s0 s2)) = map Z.of_nat (List.seq 1 (inserts (env1 ++ env2)))
  /\ StronglySorted Z.lt (map id (inserted (new_events s0 s2)))
  /\ NoDup (map id (inserted (new_events s0 s2)))
  /\ Forall (fun r => Forall (fun r' => id r < id r') (inserted (new_events s1 s2)))
            (stored s1).
Proof.
  intros Hn s0 s1 s2.
  assert (H0 : consistent s0) by (split; constructor).
  destruct (suspended_consistent (env1 ++ env2) s0 H0) as (evs & L & _ & _ & _ & O & _).
  destruct (suspended_consistent env1 s0 H0) as (evs1 & L1 & C1 & _).
  fold s1 in L1, C1.
  destruct (suspended_consistent env2 s1 C1) as (evs2 & L2 & _ & _ & F2 & _).
  fold s2 in L2, F2.
  destruct (suspended_ids (env1 ++ env2) s0 H0) as (evs' & L' & I');
    [reflexivity | eexists; reflexivity | exact Hn |].
  rewrite suspended_app in L, L'. fold s1 s2 in L, L'.
  rewrite (new_events_app _ _ _ L2).
  split; [|split; [|split]].
  - rewrite (new_events_app _ _ _ L'), I'. apply map_ext. intros k. reflexivity.
  - rewrite (new_events_app _ _ _ L). exact O.
  - rewrite (new_events_app _ _ _ L). clear -O.
    induction O as [|x l Hs IH Hx]; constructor; [|exact IH].
    intros Hin. apply list_elem_of_In in Hin. rewrite List.Forall_forall in Hx.
    specialize (Hx _ Hin). lia.
  - destruct C1 as [Hle _]. eapply Forall_impl; [exact Hle|]. cbn. intros r Hr.
    eapply Forall_impl; [exact F2|]. cbn. intros; lia.
Qed.

(** ** The listing as the history makes it *)

Lemma deserialize_returns o o' :
  deserialize o = Returns o' ->
  id o' = id o /\ created_at o' = created_at o /\ updated_at o' = updated_at o
  /\ JSON.parse (html (cols o)) = Returns (html (cols o'))
  /\ JSON.parse (text (cols o)) = Returns (text (cols o'))
  /\ JSON.parse (headers (cols o)) = Returns (headers (cols o'))
  /\ JSON.parse (subject (cols o)) = Returns (subject (cols o'))
  /\ JSON.parse (messageId (cols o)) = Returns (messageId (cols o'))
  /\ JSON.parse (priority (cols o)) = Returns (priority (cols o'))
  /\ JSON.parse (from (cols o)) = Returns (from (cols o'))
  /\ JSON.parse (to (cols o)) = Returns (to (cols o')).
Proof.
  unfold deserialize. intros H.
  repeat match type of H with
  | bind ?m _ = Returns _ =>
      let x := fresh "x" in let E := fresh "E" in
      apply bind_returns in H as (x & E & H)
  end.
  injection H as <-. cbn. repeat split; assumption.
Qed.

(** The row of a message within the model decodes to the fields of the
    message as JSON text gives them back. *)
Lemma inserted_row_decodes cr up mail_object connection t r t' :
  all_columns modelled (fields mail_object connection) = true ->
  insert_row cr up (insert_values mail_object connection) t = Returns (r, t') ->
  deserialize (row_to_js r)
  = Returns (Record (id r) cr up (map_columns revived (fields mail_object connection))).
Proof.
  intros Hm Hins.
  destruct (insert_row_spec _ _ _ _ _ _ Hins) as (_ & _ & _ & _ & Hcr & Hup & Hbind).
  destruct (store_read_fields (json_affinity t) (id r) cr up mail_object connection Hm)
    as (c' & Hc' & Hd).
  rewrite Hbind in Hc'. injection Hc' as <-. rewrite <- Hcr, <- Hup, record_eta in Hd.
  rewrite <- Hcr, <- Hup. exact Hd.
Qed.

Lemma Forall2_decoded_filter (q : Z -> bool) l acc :
  Forall2 (fun r o' => deserialize (row_to_js r) = Returns o') l acc ->
  Forall2 (fun r o' => deserialize (row_to_js r) = Returns o')
    (filter (fun r => q (id r) = false) l)
    (List.filter (fun r => negb (q (id r))) acc).
Proof.
  induction 1 as [|r o' l acc Hr _ IH]; [constructor|].
  destruct (deserialize_returns _ _ Hr) as (Hid & _). cbn [row_to_js id] in Hid.
  rewrite filter_cons. cbn [List.filter]. rewrite Hid.
  destruct (q (id r)) eqn:E; cbn [negb].
  - destruct (decide (true = false)); [discriminate | exact IH].
  - destruct (decide (false = false)); [constructor; assumption | contradiction].
Qed.

Lemma forEach_deserialize_decoded l acc :
  Forall2 (fun r o' => deserialize (row_to_js r) = Returns o') l acc ->
  forEach_deserialize (map row_to_js l) = Returns acc /\ map id acc = map id l.
Proof.
  induction 1 as [|r o' l acc Hr _ [IH1 IH2]]; [split; reflexivity|].
  cbn [map forEach_deserialize]. rewrite Hr, IH1. cbn [bind].
  destruct (deserialize_returns _ _ Hr) as (Hid & _). cbn [row_to_js id] in Hid.
  rewrite Hid, IH2. split; reflexivity.
Qed.

(** The rows of the table decode, one by one, to the listing that the
    history is to give. *)
Lemma suspended_listing env : forall s acc,
  modelled_activities env = true ->
  consistent s -> 0 <= seq_of s -> is_Some (db s) ->
  Forall2 (fun r o' => deserialize (row_to_js r) = Returns o') (stored s) acc ->
  Forall2 (fun r o' => deserialize (row_to_js r) = Returns o')
    (stored (snd (suspended env s))) (expected_listing (seq_of s) acc env).
Proof.
  induction env as [|a env IH]; intros s acc Henv Hc H0 Hdb Hacc; [exact Hacc|].
  rewrite modelled_activities_cons in Henv. apply andb_true_iff in Henv as [Ha Henv].
  rewrite suspended_cons.
  destruct (act_consistent a s Hc) as (_ & _ & C1 & S1 & _).
  pose proof (act_table a s Hdb) as Hdb1.
  destruct a as [cr up m c|q|o|f|f].
  - cbn [expected_listing modelled_activity] in *. destruct Hdb as [t Ht].
    assert (Hs : seq_of s = seq t) by (unfold seq_of; rewrite Ht; reflexivity).
    destruct (Z.ltb_spec (seq_of s) MAX_ROWID) as [Hlt | Hge].
    + destruct (insert_row_next_id cr up m c s t Ht Hc ltac:(lia) ltac:(lia))
        as (c' & _ & Hins).
      pose proof (inserted_row_decodes cr up m c t _ _ Ha Hins) as Hdec. cbn [id] in Hdec.
      rewrite (act_insert s t _ _ _ _ _ _ Ht Hins) in *.
      set (s1 := Sink _ (emitter s) (log s ++ [Inserted _])) in *.
      assert (Hs1 : seq_of s1 = seq_of s + 1) by (rewrite Hs; reflexivity).
      rewrite <- Hs1. apply IH; [exact Henv | exact C1 | lia | exact Hdb1 |].
      unfold stored in *. subst s1. cbn [db rows]. rewrite Ht in Hacc.
      apply Forall2_app; [exact Hacc|]. constructor; [|constructor].
      rewrite Hs1, Hs. exact Hdec.
    + assert (Hact : snd (act (OtherInsert cr up m c) s) = s).
      { rewrite act_insert_run, Ht, insert_row_full by lia. reflexivity. }
      rewrite Hact in *. apply IH; assumption.
  - cbn [expected_listing]. destruct Hdb as [t Ht].
    assert (Hact : snd (act (OtherDel q) s)
                   = Sink (Some (Table (json_affinity t)
                                   (filter (fun r => q (id r) = false) (rows t))
                                   (seq t))) (emitter s) (log s))
      by (rewrite act_del_run, Ht; reflexivity).
    rewrite Hact in *.
    assert (Hs : seq_of s = seq t) by (unfold seq_of; rewrite Ht; reflexivity).
    rewrite Hs. change (seq t) with (seq_of (Sink (Some (Table (json_affinity t)
                                   (filter (fun r => q (id r) = false) (rows t))
                                   (seq t))) (emitter s) (log s))) at 2.
    apply IH; [exact Henv | exact C1 | unfold seq_of; cbn [db seq]; lia | exact Hdb1 |].
    unfold stored in *. cbn [db rows]. rewrite Ht in Hacc.
    apply Forall2_decoded_filter. exact Hacc.
  - cbn [expected_listing act emit snd] in *.
    apply (IH (Sink (db s) (emitter s) _)); assumption.
  - cbn [expected_listing act self_on snd] in *.
    apply (IH (Sink (db s) _ (log s))); assumption.
  - cbn [expected_listing act self_removeListener snd] in *.
    apply (IH (Sink (db s) _ (log s))); assumption.
Qed.

(** GET /api/email after a history on a new table. *)
Lemma api_email_expected json em lg env :
  modelled_activities env = true ->
  let s := snd (suspended env (snd (createSchema json None (Sink None em lg)))) in
  api_email s = (Returns (res_json (JArr (map to_object (expected_listing 0 [] env)))), s)
  /\ forEach_deserialize (map row_to_js (stored s)) = Returns (expected_listing 0 [] env)
  /\ map id (expected_listing 0 [] env) = map id (stored s).
Proof.
  intros Henv s.
  pose proof (suspended_listing env (snd (createSchema json None (Sink None em lg))) []
                Henv (createSchema_consistent json em lg)) as H.
  change (seq_of (snd (createSchema json None (Sink None em lg)))) with 0 in H.
  specialize (H ltac:(lia) ltac:(eexists; reflexivity) ltac:(constructor)). fold s in H.
  destruct (forEach_deserialize_decoded _ _ H) as [H1 H2].
  destruct (suspended_table env (snd (createSchema json None (Sink None em lg))))
    as [t Ht]; [eexists; reflexivity|]. fold s in Ht.
  split; [|split; assumption].
  unfold api_email, mbind. rewrite (knex_select_table s t Ht).
  unfold stored in H1. rewrite Ht in H1. unfold lift. rewrite H1. reflexivity.
Qed.

(** C9.  After any activity on a new table (the fields of the messages
    inserted being values of the model), GET /api/email answers with the
    JSON text of the array of all rows of the table, each one decoded, in
    the order of the table: these are the messages inserted and not
    deleted or purged since, each with its id, its two timestamps and its
    fields as [JSON.parse] gives them back from the stored text, in the
    order in which they were inserted, which is the ascending order of
    their ids. *)
Theorem api_email_lists_in_insertion_order json em lg env :
  modelled_activities env = true ->
  let s0 := snd (createSchema json None (Sink None em lg)) in
  let s := snd (suspended env s0) in
  let resp := expected_listing 0 [] env in
  api_email s = (Returns (res_json (JArr (map to_object resp))), s)
  /\ forEach_deserialize (map row_to_js (stored s)) = Returns resp
  /\ map id resp = map id (stored s)
  /\ stored s `sublist_of` inserted (new_events s0 s)
  /\ StronglySorted Z.lt (map id resp).
Proof.
  intros Henv s0 s resp.
  destruct (api_email_expected json em lg env Henv) as (H1 & H2 & H3).
  fold s0 s resp in H1, H2, H3.
  destruct (suspended_consistent env s0 (createSchema_consistent json em lg))
    as (evs & L & [_ Hsorted] & _ & _ & _ & Hsub).
  fold s in L, Hsorted, Hsub.
  split; [exact H1|]. split; [exact H2|]. split; [exact H3|]. split.
  - rewrite (new_events_app _ _ _ L). exact Hsub.
  - rewrite H3. exact Hsorted.
Qed.

(** ** The row of a session *)

Lemma sublist_singleton {A} (l : list A) x : l `sublist_of` [x] -> l = [] \/ l = [x].
Proof.
  intros H. destruct l as [|y l]; [left; reflexivity|]. right.
  apply sublist_cons_l in H as (k1 & k2 & Hk & Hl).
  destruct k1 as [|z k1].
  - cbn in Hk. injection Hk as -> <-. apply sublist_nil_r in Hl. rewrite Hl. reflexivity.
  - cbn in Hk. injection Hk as _ Hk. destruct k1; discriminate.
Qed.

Lemma filter_sublist_mono {A} (P : A -> Prop) `{!forall x, Decision (P x)} (l k : list A) :
  l `sublist_of` k -> filter P l `sublist_of` filter P k.
Proof.
  induction 1 as [|x l k _ IH|x l k _ IH]; [constructor| |].
  - rewrite !filter_cons. destruct (decide (P x)); [constructor|]; exact IH.
  - rewrite filter_cons. destruct (decide (P x)); [constructor|]; exact IH.
Qed.

(** Once a row has its id, no other row gets it: the ids given out later
    lie above it, and deleting adds no row. *)
Lemma act_keeps_own r a s :
  is_Some (db s) -> id r <= seq_of s ->
  filter (fun r' => satisfies Eq (Integer (id r)) (id r') = true) (stored s) `sublist_of` [r] ->
  is_Some (db (snd (act a s))) /\ id r <= seq_of (snd (act a s))
  /\ filter (fun r' => satisfies Eq (Integer (id r)) (id r') = true) (stored (snd (act a s)))
       `sublist_of` [r].
Proof.
  intros Hdb Hle Hown.
  destruct (act_effect a s)
    as [(cr & up & m & c & t & x & t' & -> & Ht & Hins & ->)
       |[(q & t & -> & Ht & ->)
        |(em & evs & -> & _)]].
  - destruct (insert_row_spec _ _ _ _ _ _ Hins) as (Hrows & Hseq & _ & _).
    destruct (insert_row_fresh _ _ _ _ _ _ Hins) as (Hfresh & _).
    unfold stored, seq_of in *. cbn [db]. rewrite Ht in *. rewrite Hrows, Hseq.
    split; [eexists; reflexivity|]. split; [lia|].
    rewrite filter_app, filter_cons, filter_nil.
    destruct (decide _) as [E|_]; [|rewrite app_nil_r; exact Hown].
    cbn [satisfies] in E. apply Z.eqb_eq in E. lia.
  - unfold stored, seq_of in *. cbn [db rows seq]. rewrite Ht in *.
    split; [eexists; reflexivity|]. split; [lia|].
    etransitivity; [|exact Hown]. apply filter_sublist_mono, sublist_filter.
  - unfold stored, seq_of in *. cbn [db]. auto.
Qed.

Lemma suspended_keeps_own r env : forall s,
  is_Some (db s) -> id r <= seq_of s ->
  filter (fun r' => satisfies Eq (Integer (id r)) (id r') = true) (stored s) `sublist_of` [r] ->
  filter (fun r' => satisfies Eq (Integer (id r)) (id r') = true)
    (stored (snd (suspended env s))) `sublist_of` [r].
Proof.
  induction env as [|a env IH]; intros s Hdb Hle Hown; [exact Hown|].
  rewrite suspended_cons.
  destruct (act_keeps_own r a s Hdb Hle Hown) as (H1 & H2 & H3). apply IH; assumption.
Qed.

(** The row that an insert has just put into the table is the only one
    with its id, there and after any activity. *)
Lemma inserted_row_own cr up c t r t' em lg env :
  insert_row cr up c t = Returns (r, t') ->
  filter (fun r' => satisfies Eq (Integer (id r)) (id r') = true)
    (stored (snd (suspended env (Sink (Some t') em lg)))) `sublist_of` [r].
Proof.
  intros Hins.
  destruct (insert_row_spec _ _ _ _ _ _ Hins) as (Hrows & Hseq & _ & _).
  destruct (insert_row_fresh _ _ _ _ _ _ Hins) as (_ & Hall).
  apply suspended_keeps_own.
  - eexists; reflexivity.
  - unfold seq_of. cbn [db]. lia.
  - unfold stored. cbn [db]. rewrite Hrows, filter_app.
    assert (filter (fun r' => satisfies Eq (Integer (id r)) (id r') = true) (rows t) = []) as ->.
    { clear Hrows. induction Hall as [|x l Hx _ IH]; [reflexivity|].
      rewrite filter_cons. destruct (decide _) as [E|_]; [|exact IH].
      cbn [satisfies] in E. apply Z.eqb_eq in E. lia. }
    cbn [app]. apply sublist_filter.
Qed.

(** A row stays in the table while no delete and no purge takes its id. *)
Lemma suspended_spares r env : forall s,
  spares (id r) env = true -> In r (stored s) -> In r (stored (snd (suspended env s))).
Proof.
  induction env as [|a env IH]; intros s Hsp Hin; [exact Hin|].
  rewrite suspended_cons. apply IH.
  { destruct a; cbn [spares] in Hsp; try exact Hsp. apply andb_true_iff in Hsp. tauto. }
  destruct (act_effect a s)
    as [(cr & up & m & c & t & x & t' & -> & Ht & Hins & ->)
       |[(q & t & -> & Ht & ->)
        |(em & evs & -> & _)]].
  - destruct (insert_row_spec _ _ _ _ _ _ Hins) as (Hrows & _).
    unfold stored in *. cbn [db]. rewrite Ht in Hin. rewrite Hrows. apply in_app_iff. tauto.
  - cbn [spares] in Hsp. apply andb_true_iff in Hsp as [Hsp _].
    apply negb_true_iff in Hsp.
    unfold stored in *. cbn [db rows]. rewrite Ht in Hin.
    apply list_elem_of_In, list_elem_of_filter. split; [exact Hsp|].
    apply list_elem_of_In. exact Hin.
  - exact Hin.
Qed.

(** A run of the handler that acknowledged: the sink after its insert,
    at its select and at the acknowledgement, and the events in between. *)
Lemma on_end_done env1 env2 env3 fault1 fault2 cr up mail_object connection s record :
  In (Done record)
     (new_events s (snd (on_end env1 env2 env3 fault1 fault2 cr up mail_object connection s))) ->
  let s1 := snd (suspended env1 s) in
  exists t r t' o evs1 evs2 evs3,
    let s1' := Sink (Some t') (emitter s1) (log s1 ++ [Inserted r]) in
    let s2 := snd (suspended env2 s1') in
    let mail := [row_to_js r] in
    let s3 := snd (suspended env3 (Sink (db s2) (emitter s2) (log s2 ++ [Reread mail]))) in
    record = [id r] /\ fault1 = None /\ db s1 = Some t /\
    insert_row cr up (insert_values mail_object connection) t = Returns (r, t') /\
    knex_select_where fault2 Eq (BindNumber (id r)) s2 = (Returns mail, s2) /\
    In r (stored s2) /\
    deserialize (row_to_js r) = Returns o /\
    snd (on_end env1 env2 env3 fault1 fault2 cr up mail_object connection s)
    = Sink (db s3) (emitter s3)
        ((log s3 ++ Emitted email (Mail o)
            :: map (fun f => Called f email (Mail o)) (listeners_of email (emitter s3)))
         ++ [Done record]) /\
    forallb foreign evs1 = true /\ forallb foreign evs2 = true /\ forallb foreign evs3 = true /\
    new_events s (snd (on_end env1 env2 env3 fault1 fault2 cr up mail_object connection s))
    = (evs1 ++ Inserted r :: evs2 ++ Reread mail :: evs3)
      ++ Emitted email (Mail o)
           :: map (fun f => Called f email (Mail o)) (listeners_of email (emitter s3))
           ++ [Done record].
Proof.
  intros Hin s1.
  destruct (on_end_cases env1 env2 env3 fault1 fault2 cr up mail_object connection s _ eq_refl)
    as [(t & r & t' & mail & o & Hf & Hdb & Hins & Hsel & Hdes & Hfinal) | (_ & evs & Hlog & Hnd)].
  2:{ rewrite (new_events_app _ _ _ Hlog) in Hin. exfalso. exact (not_done_in _ _ Hnd Hin). }
  fold s1 in Hdb, Hsel, Hfinal. cbv zeta in Hsel, Hfinal.
  destruct (suspended_log env1 s) as (_ & evs1 & L1 & F1). fold s1 in L1.
  pose proof (inserted_row_own _ _ _ _ _ _ (emitter s1) (log s1 ++ [Inserted r]) env2 Hins)
    as Hown.
  set (s1' := Sink (Some t') (emitter s1) (log s1 ++ [Inserted r])) in *.
  destruct (suspended_log env2 s1') as (_ & evs2 & L2 & F2).
  set (s2 := snd (suspended env2 s1')) in *.
  assert (Hmail : mail = [row_to_js r] /\ In r (stored s2)).
  { rewrite knex_select_where_run in Hsel. destruct fault2; [discriminate|].
    unfold stored in *. destruct (db s2) as [t2|]; [|discriminate].
    cbn [operand_of bind] in Hsel. injection Hsel as Hmail _. cbn [satisfies] in Hown, Hmail.
    destruct (sublist_singleton _ _ Hown) as [E|E].
    - rewrite E in Hmail. subst mail. discriminate.
    - rewrite E in Hmail. split; [symmetry; exact Hmail|].
      apply list_elem_of_In.
      assert (Hr : elem_of r (filter (fun r' => (id r' =? id r) = true) (rows t2)))
        by (rewrite E; left).
      apply list_elem_of_filter in Hr. tauto. }
  destruct Hmail as [-> Hr]. cbn [deserialize_first] in Hdes.
  set (s2r := Sink (db s2) (emitter s2) (log s2 ++ [Reread [row_to_js r]])) in *.
  destruct (suspended_log env3 s2r) as (_ & evs3 & L3 & F3).
  set (s3 := snd (suspended env3 s2r)) in *.
  assert (Hnew : new_events s (snd (on_end env1 env2 env3 fault1 fault2 cr up mail_object connection s))
    = (evs1 ++ Inserted r :: evs2 ++ Reread [row_to_js r] :: evs3)
      ++ Emitted email (Mail o)
           :: map (fun f => Called f email (Mail o)) (listeners_of email (emitter s3))
           ++ [Done [id r]]).
  { apply new_events_app. rewrite Hfinal. cbn [snd log]. rewrite L3. subst s2r. cbn [log].
    rewrite L2. subst s1'. cbn [log]. rewrite L1.
    rewrite <- !app_assoc. cbn [app]. rewrite <- !app_assoc. reflexivity. }
  assert (record = [id r]) as ->.
  { rewrite Hnew in Hin.
    repeat first [rewrite in_app_iff in Hin | progress cbn [In] in Hin].
    pose proof (not_done_in _ record (foreign_not_done _ F1)).
    pose proof (not_done_in _ record (foreign_not_done _ F2)).
    pose proof (not_done_in _ record (foreign_not_done _ F3)).
    pose proof (not_done_in _ record (calls_not_done (Mail o) email (listeners_of email (emitter s3)))).
    intuition (try discriminate; try congruence). }
  exists t, r, t', o, evs1, evs2, evs3. cbv zeta. fold s1' s2 s2r s3.
  split; [reflexivity|]. split; [exact Hf|]. split; [exact Hdb|]. split; [exact Hins|].
  split; [exact Hsel|]. split; [exact Hr|]. split; [exact Hdes|].
  split; [rewrite Hfinal; reflexivity|].
  split; [exact F1|]. split; [exact F2|]. split; [exact F3|]. exact Hnew.
Qed.

(** C2.  Whenever the handler of a session calls the done callback of the
    connection with [record], the insert of this session has resolved
    before: the insert of the handler returned [record] and left a sink
    whose table holds the row with the id in [record]; the table still
    held that row when the handler read it back; the call is the last
    thing the handler does, the event of the insert precedes it in the
    log, and the table the handler leaves is the one the rest of the
    process made of it since, which holds the row unless a delete or a
    purge of another request took it after the handler had read it back.
    This holds whatever the rest of the process does while the handler is
    suspended and whichever failures its two queries meet; when the insert
    fails there is no call at all. *)
Theorem done_only_after_insert
    env1 env2 env3 fault1 fault2 cr up mail_object connection s record :
  In (Done record)
     (new_events s (snd (on_end env1 env2 env3 fault1 fault2 cr up mail_object connection s))) ->
  exists t r t' pre,
    let s1 := snd (suspended env1 s) in
    let s1' := Sink (Some t') (emitter s1) (log s1 ++ [Inserted r]) in
    let s2 := snd (suspended env2 s1') in
    let s3 := snd (suspended env3
                     (Sink (db s2) (emitter s2) (log s2 ++ [Reread [row_to_js r]]))) in
    let final := snd (on_end env1 env2 env3 fault1 fault2 cr up mail_object connection s) in
    db s1 = Some t
    /\ insert_row cr up (insert_values mail_object connection) t = Returns (r, t')
    /\ In r (rows t')
    /\ record = [id r]
    /\ knex_insert fault1 cr up (insert_values mail_object connection) s1
       = (Returns record, s1')
    /\ In r (stored s1')
    /\ In r (stored s2)
    /\ knex_select_where fault2 Eq (BindNumber (id r)) s2 = (Returns [row_to_js r], s2)
    /\ stored final = stored s3
    /\ (spares (id r) env3 = true -> In r (stored final))
    /\ new_events s final = pre ++ [Done record]
    /\ In (Inserted r) pre
    /\ ~ In (Done record) pre.
Proof.
  intros Hin.
  destruct (on_end_done _ _ _ _ _ _ _ _ _ _ _ Hin)
    as (t & r & t' & o & evs1 & evs2 & evs3
        & -> & -> & Hdb & Hins & Hsel & Hr & _ & Hfinal & F1 & F2 & F3 & Hnew).
  cbv zeta in Hsel, Hr, Hfinal, Hnew.
  exists t, r, t',
    ((evs1 ++ Inserted r :: evs2 ++ Reread [row_to_js r] :: evs3)
     ++ Emitted email (Mail o)
          :: map (fun f => Called f email (Mail o))
               (listeners_of email
                  (emitter
                     (snd (suspended env3
                             (Sink (db (snd (suspended env2
                                         (Sink (Some t') (emitter (snd (suspended env1 s)))
                                               (log (snd (suspended env1 s)) ++ [Inserted r])))))
                                   (emitter (snd (suspended env2
                                         (Sink (Some t') (emitter (snd (suspended env1 s)))
                                               (log (snd (suspended env1 s)) ++ [Inserted r])))))
                                   (log (snd (suspended env2
                                         (Sink (Some t') (emitter (snd (suspended env1 s)))
                                               (log (snd (suspended env1 s)) ++ [Inserted r]))))
                                      ++ [Reread [row_to_js r]]))))))).
  cbv zeta.
  set (s1 := snd (suspended env1 s)) in *.
  set (s1' := Sink (Some t') (emitter s1) (log s1 ++ [Inserted r])) in *.
  set (s2 := snd (suspended env2 s1')) in *.
  set (s2r := Sink (db s2) (emitter s2) (log s2 ++ [Reread [row_to_js r]])) in *.
  set (s3 := snd (suspended env3 s2r)) in *.
  assert (Hrows : In r (rows t')).
  { destruct (insert_row_spec _ _ _ _ _ _ Hins) as (-> & _). apply in_app_iff. right. left.
    reflexivity. }
  split; [exact Hdb|]. split; [exact Hins|]. split; [exact Hrows|].
  split; [reflexivity|].
  split. { rewrite knex_insert_run, Hdb, Hins. reflexivity. }
  split; [exact Hrows|]. split; [exact Hr|]. split; [exact Hsel|].
  split. { rewrite Hfinal. reflexivity. }
  split.
  { intros Hsp. rewrite Hfinal. change (In r (stored s3)).
    apply suspended_spares; [exact Hsp | exact Hr]. }
  split. { rewrite Hnew. rewrite <- !app_assoc. cbn [app]. rewrite <- !app_assoc. reflexivity. }
  split. { apply in_app_iff. left. apply in_app_iff. right. left. reflexivity. }
  repeat first [rewrite in_app_iff | progress cbn [In]].
  pose proof (not_done_in _ [id r] (foreign_not_done _ F1)).
  pose proof (not_done_in _ [id r] (foreign_not_done _ F2)).
  pose proof (not_done_in _ [id r] (foreign_not_done _ F3)).
  pose proof (not_done_in _ [id r] (calls_not_done (Mail o) email (listeners_of email (emitter s3)))).
  intuition (try discriminate; try congruence).
Qed.


(** ** Deleting *)

Lemma existsb_filter {A} (p : A -> bool) l :
  existsb p l = match filter (fun x => p x = true) l with [] => false | _ :: _ => true end.
Proof.
  induction l as [|x l IH]; [reflexivity|]. cbn [existsb]. rewrite filter_cons.
  destruct (decide (p x = true)) as [->|Hx]; [reflexivity|].
  apply not_true_is_false in Hx. rewrite Hx. exact IH.
Qed.

Lemma map_nil_inv {A B} (f : A -> B) l : map f l = [] -> l = [].
Proof. destruct l; [reflexivity | discriminate]. Qed.

(** The two routes, for a parameter that is the decimal text of [k]. *)
Lemma delete_route c k t em lg reply :
  (resp <- knex_select_where None c (BindString (NumberToString (Finite k))) ;;
   match resp with
   | [] => ret (res_send 404 (lit "Not found"))
   | _ :: _ =>
       knex_del_where None c (BindString (NumberToString (Finite k))) ;;;
       ret reply
   end) (Sink (Some t) em lg)
  = if existsb (fun r => satisfies c (Integer k) (id r)) (rows t)
    then (Returns reply,
          Sink (Some (Table (json_affinity t)
                        (filter (fun r => satisfies c (Integer k) (id r) = false) (rows t))
                        (seq t))) em lg)
    else (Returns (res_send 404 (lit "Not found")), Sink (Some t) em lg).
Proof.
  unfold mbind at 1. rewrite knex_select_where_text, knex_select_where_run.
  cbn [db operand_of emitter log]. rewrite existsb_filter.
  destruct (filter (fun r => satisfies c (Integer k) (id r) = true) (rows t)) as [|r l] eqn:E;
    cbn [map]; [reflexivity|].
  unfold mbind. rewrite knex_del_where_text, knex_del_where_run.
  cbn [db operand_of emitter log]. reflexivity.
Qed.

(** C6.  For every table and every integer [k], GET /api/email/purge/k
    leaves exactly the rows with an id above [k], each as it was and in
    the same order, and answers 200 when some row had an id up to [k];
    when none had, it answers 404 and the table is as before. *)
Theorem purge_removes_exactly_up_to k t em lg :
  api_email_purge (NumberToString (Finite k)) (Sink (Some t) em lg)
  = if existsb (fun r => id r <=? k) (rows t)
    then (Returns (res_send 200 (lit "Purged records older than " ++ NumberToString (Finite k))),
          Sink (Some (Table (json_affinity t)
                        (filter (fun r => k < id r) (rows t))
                        (seq t))) em lg)
    else (Returns (res_send 404 (lit "Not found")), Sink (Some t) em lg).
Proof.
  unfold api_email_purge. rewrite delete_route. cbn [satisfies].
  destruct (existsb _ _); [|reflexivity]. do 4 f_equal.
  apply list_filter_iff. intros r. rewrite Z.leb_gt. reflexivity.
Qed.

(** C7.  For every table and every integer [k], GET /api/email/delete/k
    answers 200 and leaves exactly the rows with another id, each as it
    was, when a row has the id [k]; when none has, it answers 404 and the
    sink is as before. *)
Theorem delete_removes_exactly_one k t em lg :
  api_email_delete (NumberToString (Finite k)) (Sink (Some t) em lg)
  = if existsb (fun r => id r =? k) (rows t)
    then (Returns (res_send 200 (lit "Removed")),
          Sink (Some (Table (json_affinity t)
                        (filter (fun r => id r <> k) (rows t))
                        (seq t))) em lg)
    else (Returns (res_send 404 (lit "Not found")), Sink (Some t) em lg).
Proof.
  unfold api_email_delete. rewrite delete_route. cbn [satisfies].
  destruct (existsb _ _); [|reflexivity]. do 4 f_equal.
  apply list_filter_iff. intros r. rewrite Z.eqb_neq. reflexivity.
Qed.

(** ** The emitter *)

Lemma listeners_of_cons e x em :
  listeners_of e (x :: em)
  = (if event_name_eqb (fst x) e then [snd x] else []) ++ listeners_of e em.
Proof.
  unfold listeners_of. cbn [List.filter].
  destruct (event_name_eqb (fst x) e); reflexivity.
Qed.

Lemma listeners_of_on e f em : listeners_of e (on e f em) = listeners_of e em ++ [f].
Proof.
  unfold on. induction em as [|x em IH].
  - cbn [app]. rewrite listeners_of_cons. cbn [fst snd]. destruct e; reflexivity.
  - cbn [app]. rewrite !listeners_of_cons, IH, app_assoc. reflexivity.
Qed.

Lemma existsb_registered f em :
  existsb (registered email f) em = existsb (fun h => (h =? f)%nat) (listeners_of email em).
Proof.
  induction em as [|[e h] em IH]; [reflexivity|].
  rewrite listeners_of_cons. cbn [existsb fst snd]. unfold registered at 1. cbn [fst snd].
  destruct e; cbn [event_name_eqb andb app existsb]; rewrite IH; reflexivity.
Qed.

(** [removeListener] takes the last registration of [f] out of the
    listeners of the event. *)
Lemma listeners_of_removeListener f em :
  listeners_of email (removeListener email f em) = remove_last f (listeners_of email em).
Proof.
  induction em as [|[e h] em IH]; [reflexivity|].
  cbn [removeListener]. rewrite listeners_of_cons. unfold registered at 1. cbn [fst snd].
  rewrite existsb_registered.
  destruct e; cbn [event_name_eqb andb app].
  - cbn [remove_last].
    destruct ((h =? f)%nat && negb (existsb (fun h' => (h' =? f)%nat) (listeners_of email em)));
      [reflexivity|].
    rewrite listeners_of_cons. cbn [fst snd event_name_eqb app]. rewrite IH. reflexivity.
  - rewrite listeners_of_cons. cbn [fst snd event_name_eqb app]. exact IH.
Qed.

Lemma existsb_filter_true (P : listener -> bool) f l :
  P f = true ->
  existsb (fun h => (h =? f)%nat) (List.filter P l) = existsb (fun h => (h =? f)%nat) l.
Proof.
  intros Hf. induction l as [|h l IH]; [reflexivity|]. cbn [List.filter existsb].
  destruct (Nat.eqb_spec h f) as [->|Hne].
  - rewrite Hf. cbn [existsb]. rewrite Nat.eqb_refl. reflexivity.
  - destruct (P h); cbn [existsb orb]; [|exact IH].
    destruct (Nat.eqb_spec h f); [contradiction|]. exact IH.
Qed.

Lemma filter_remove_last_in (P : listener -> bool) f l :
  P f = true -> List.filter P (remove_last f l) = remove_last f (List.filter P l).
Proof.
  intros Hf. induction l as [|h l IH]; [reflexivity|]. cbn [remove_last].
  destruct (Nat.eqb_spec h f) as [->|Hne]; cbn [andb].
  - cbn [List.filter]. rewrite Hf. cbn [remove_last]. rewrite Nat.eqb_refl. cbn [andb].
    rewrite (existsb_filter_true P f l Hf).
    destruct (existsb (fun h' => (h' =? f)%nat) l); cbn [negb]; [|reflexivity].
    cbn [List.filter]. rewrite Hf, IH. reflexivity.
  - cbn [List.filter]. destruct (P h); [|exact IH].
    cbn [remove_last]. destruct (Nat.eqb_spec h f); [contradiction|]. cbn [andb].
    rewrite IH. reflexivity.
Qed.

Lemma filter_remove_last_out (P : listener -> bool) f l :
  P f = false -> List.filter P (remove_last f l) = List.filter P l.
Proof.
  intros Hf. induction l as [|h l IH]; [reflexivity|]. cbn [remove_last].
  destruct (Nat.eqb_spec h f) as [->|Hne]; cbn [andb].
  - destruct (existsb (fun h' => (h' =? f)%nat) l); cbn [negb List.filter];
      rewrite ?Hf; [exact IH | reflexivity].
  - cbn [List.filter]. rewrite IH. reflexivity.
Qed.

Lemma leaves_alone_cons P a env :
  leaves_alone P (a :: env) = activity_leaves_alone P a && leaves_alone P env.
Proof. destruct a; reflexivity. Qed.

Lemma filter_seen_calls P (a : payload) ls :
  List.filter (seen_by P) (map (fun f => Called f email a) ls)
  = map (fun f => Called f email a) (List.filter P ls).
Proof.
  induction ls as [|h ls IH]; [reflexivity|]. cbn [map List.filter seen_by].
  destruct (P h); cbn [map]; rewrite IH; reflexivity.
Qed.

(** What the viewers in [P] see of one activity that leaves them alone. *)
Lemma act_seen P a s :
  activity_leaves_alone P a = true ->
  List.filter P (listeners_of email (emitter (snd (act a s))))
  = List.filter P (listeners_of email (emitter s))
  /\ exists evs,
       log (snd (act a s)) = log s ++ evs
       /\ List.filter (seen_by P) evs
          = match a with
            | OtherEmit o =>
                Emitted email (Mail o)
                  :: map (fun f => Called f email (Mail o))
                       (List.filter P (listeners_of email (emitter s)))
            | _ => []
            end.
Proof.
  intros Ha. destruct a as [cr up m c|q|o|f|f].
  - rewrite act_insert_run. destruct (db s) as [t|]; cbn [snd emitter log].
    + destruct (insert_row cr up _ t) as [[r t']| |]; cbn [snd emitter log];
        (split; [reflexivity|]); [exists [Inserted r] | exists [] | exists []];
        rewrite ?app_nil_r; split; reflexivity.
    + split; [reflexivity|]. exists []. rewrite app_nil_r. split; reflexivity.
  - rewrite act_del_run. destruct (db s) as [t|]; cbn [snd emitter log];
      (split; [reflexivity|]); exists []; rewrite app_nil_r; split; reflexivity.
  - cbn [act]. unfold emit. cbn [snd emitter log]. split; [reflexivity|].
    eexists. split; [reflexivity|]. cbn [List.filter seen_by]. rewrite filter_seen_calls. reflexivity.
  - cbn [act]. unfold self_on. cbn [snd emitter log]. cbn [activity_leaves_alone] in Ha.
    apply negb_true_iff in Ha. split.
    + rewrite listeners_of_on, List.filter_app. cbn [List.filter]. rewrite Ha, app_nil_r. reflexivity.
    + exists []. rewrite app_nil_r. split; reflexivity.
  - cbn [act]. unfold self_removeListener. cbn [snd emitter log]. cbn [activity_leaves_alone] in Ha.
    apply negb_true_iff in Ha. split.
    + rewrite listeners_of_removeListener. apply filter_remove_last_out. exact Ha.
    + exists []. rewrite app_nil_r. split; reflexivity.
Qed.

(** What the viewers in [P] see while nothing registers or removes them:
    every publication, each of them called in registration order before
    the next publication is entered. *)
Lemma suspended_seen P env : forall s,
  leaves_alone P env = true ->
  List.filter P (listeners_of email (emitter (snd (suspended env s))))
  = List.filter P (listeners_of email (emitter s))
  /\ List.filter (seen_by P) (new_events s (snd (suspended env s)))
     = flat_map (fun o => Emitted email (Mail o)
                            :: map (fun f => Called f email (Mail o))
                                 (List.filter P (listeners_of email (emitter s))))
                (published env).
Proof.
  induction env as [|a env IH]; intros s Henv.
  - cbn [suspended ret snd published flat_map]. split; [reflexivity|].
    rewrite (new_events_app s s []); [reflexivity | rewrite app_nil_r; reflexivity].
  - rewrite leaves_alone_cons in Henv. apply andb_true_iff in Henv as [Ha Henv].
    rewrite suspended_cons.
    destruct (act_seen P a s Ha) as (E1 & evs1 & L1 & S1).
    destruct (IH (snd (act a s)) Henv) as (E2 & S2).
    destruct (suspended_log env (snd (act a s))) as (_ & evs2 & L2 & _).
    rewrite (new_events_app _ _ _ L2) in S2.
    split; [rewrite E2; exact E1|].
    rewrite (new_events_app s _ (evs1 ++ evs2)) by (rewrite L2, L1, app_assoc; reflexivity).
    rewrite List.filter_app, S1, S2, E1.
    destruct a; reflexivity.
Qed.

Lemma new_events_trans s s1 s2 evs1 evs2 :
  log s1 = log s ++ evs1 -> log s2 = log s1 ++ evs2 ->
  new_events s s2 = new_events s s1 ++ new_events s1 s2.
Proof.
  intros L1 L2. rewrite (new_events_app _ _ _ L1), (new_events_app _ _ _ L2).
  apply new_events_app. rewrite L2, L1, app_assoc. reflexivity.
Qed.

Lemma new_events_suspended_app env1 env2 s :
  new_events s (snd (suspended (env1 ++ env2) s))
  = new_events s (snd (suspended env1 s))
    ++ new_events (snd (suspended env1 s)) (snd (suspended env2 (snd (suspended env1 s)))).
Proof.
  rewrite suspended_app.
  destruct (suspended_log env1 s) as (_ & evs1 & L1 & _).
  destruct (suspended_log env2 (snd (suspended env1 s))) as (_ & evs2 & L2 & _).
  eapply new_events_trans; eassumption.
Qed.

(** A registration or a removal is not a publication: it adds to the log
    what the activities after it add. *)
Lemma new_events_on f env s :
  new_events s (snd (suspended (OtherOn f :: env) s))
  = new_events (snd (act (OtherOn f) s)) (snd (suspended env (snd (act (OtherOn f) s)))).
Proof.
  rewrite suspended_cons.
  destruct (suspended_log env (snd (act (OtherOn f) s))) as (_ & evs & L & _).
  rewrite (new_events_app _ _ _ L). apply new_events_app. exact L.
Qed.

Lemma new_events_removeListener f env s :
  new_events s (snd (suspended (OtherRemoveListener f :: env) s))
  = new_events (snd (act (OtherRemoveListener f) s))
               (snd (suspended env (snd (act (OtherRemoveListener f) s)))).
Proof.
  rewrite suspended_cons.
  destruct (suspended_log env (snd (act (OtherRemoveListener f) s))) as (_ & evs & L & _).
  rewrite (new_events_app _ _ _ L). apply new_events_app. exact L.
Qed.

Lemma filter_called_seen P f evs :
  P f = true ->
  List.filter (called f) evs = List.filter (called f) (List.filter (seen_by P) evs).
Proof.
  intros Hf. induction evs as [|ev evs IH]; [reflexivity|].
  cbn [List.filter]. destruct (seen_by P ev) eqn:E.
  - cbn [List.filter]. rewrite IH. reflexivity.
  - replace (called f ev) with false; [exact IH|].
    destruct ev as [| |e a|h e a|]; try reflexivity.
    destruct e; [|reflexivity]. cbn [called seen_by] in *.
    destruct (Nat.eqb_spec h f); [congruence | reflexivity].
Qed.

Lemma filter_called_flat_map {A} f (k : A -> list event) (c : A -> list event) l :
  (forall o, List.filter (called f) (k o) = c o) ->
  List.filter (called f) (flat_map k l) = flat_map c l.
Proof.
  intros H. induction l as [|o l IH]; [reflexivity|].
  cbn [flat_map]. rewrite List.filter_app, H, IH. reflexivity.
Qed.

Lemma flat_map_nil {A B} (l : list A) : flat_map (fun _ => @nil B) l = [].
Proof. induction l; [reflexivity | assumption]. Qed.

Lemma flat_map_singleton {A B} (h : A -> B) (l : list A) :
  flat_map (fun o => [h o]) l = map h l.
Proof. induction l as [|o l IH]; [reflexivity|]. cbn [flat_map map app]. rewrite IH. reflexivity. Qed.

(** GET / registers the listener of the viewer with [self.on], and the
    'close' handler of the request removes it. *)
Lemma root_registers f s resp s' :
  root f s = (Returns resp, s') -> s' = snd (act (OtherOn f) s).
Proof.
  unfold root, mbind. intros H.
  destruct (knex_select None s) as [[rows| |] s1] eqn:E; try discriminate.
  assert (s1 = s) as ->.
  { unfold knex_select, with_table in E. destruct (db s) eqn:Edb; [|discriminate].
    cbn [bind] in E. injection E as _ <-. rewrite <- Edb. apply sink_eta. }
  unfold lift in H. destruct (forEach_deserialize rows); try discriminate.
  cbn [self_on ret] in H. injection H as _ <-. reflexivity.
Qed.

Lemma root_close_removes f s : root_close f s = act (OtherRemoveListener f) s.
Proof. reflexivity. Qed.

Lemma filter_delivery_calls (a : payload) ls :
  List.filter delivery (map (fun f => Called f email a) ls)
  = map (fun f => Called f email a) ls.
Proof. induction ls as [|h ls IH]; [reflexivity|]. cbn [map List.filter delivery]. rewrite IH. reflexivity. Qed.

(** What one activity adds to the deliveries of the log, and what it
    makes of the emitter. *)
Lemma act_delivery a s :
  exists evs,
    log (snd (act a s)) = log s ++ evs
    /\ List.filter delivery evs ++ deliveries (emitter (snd (act a s))) []
       = List.filter delivery evs
    /\ forall env,
         List.filter delivery evs ++ deliveries (emitter (snd (act a s))) env
         = deliveries (emitter s) (a :: env).
Proof.
  destruct a as [cr up m c|q|o|f|f].
  - rewrite act_insert_run. destruct (db s) as [t|]; cbn [snd emitter log].
    + destruct (insert_row cr up _ t) as [[r t']| |]; cbn [snd emitter log];
        [exists [Inserted r] | exists [] | exists []];
        rewrite ?app_nil_r; repeat split; reflexivity.
    + exists []. rewrite app_nil_r. repeat split; reflexivity.
  - rewrite act_del_run. destruct (db s) as [t|]; cbn [snd emitter log];
      exists []; rewrite app_nil_r; repeat split; reflexivity.
  - cbn [act]. unfold emit. cbn [snd emitter log]. eexists. split; [reflexivity|].
    cbn [List.filter delivery deliveries]. rewrite filter_delivery_calls, app_nil_r.
    split; [reflexivity|]. intros env. reflexivity.
  - cbn [act]. unfold self_on. cbn [snd emitter log]. exists []. rewrite app_nil_r.
    repeat split; reflexivity.
  - cbn [act]. unfold self_removeListener. cbn [snd emitter log]. exists []. rewrite app_nil_r.
    repeat split; reflexivity.
Qed.

(** Every publication is entered in the log followed at once by the calls
    of the listeners registered at that time, in the order in which they
    were registered. *)
Lemma suspended_deliveries env : forall s,
  List.filter delivery (new_events s (snd (suspended env s))) = deliveries (emitter s) env.
Proof.
  induction env as [|a env IH]; intros s.
  - cbn [suspended ret snd deliveries].
    rewrite (new_events_app s s []); [reflexivity | rewrite app_nil_r; reflexivity].
  - rewrite suspended_cons.
    destruct (act_delivery a s) as (evs1 & L1 & _ & D1).
    destruct (suspended_log env (snd (act a s))) as (_ & evs2 & L2 & _).
    specialize (IH (snd (act a s))). rewrite (new_events_app _ _ _ L2) in IH.
    rewrite (new_events_app s _ (evs1 ++ evs2)) by (rewrite L2, L1, app_assoc; reflexivity).
    rewrite List.filter_app, IH. apply D1.
Qed.

Lemma filter_called_delivery f evs :
  List.filter (called f) evs = List.filter (called f) (List.filter delivery evs).
Proof.
  induction evs as [|ev evs IH]; [reflexivity|].
  cbn [List.filter]. destruct (delivery ev) eqn:E.
  - cbn [List.filter]. rewrite IH. reflexivity.
  - replace (called f ev) with false; [exact IH|].
    destruct ev as [| |e a|h e a|]; try reflexivity.
    destruct e; [discriminate | reflexivity].
Qed.

Lemma filter_called_calls f (a : payload) ls :
  List.filter (called f) (map (fun h => Called h email a) ls)
  = repeat (Called f email a) (length (List.filter (viewer f) ls)).
Proof.
  induction ls as [|h ls IH]; [reflexivity|]. cbn [map List.filter called]. unfold viewer at 1.
  destruct (Nat.eqb_spec h f) as [->|_]; [|exact IH].
  cbn [length repeat]. rewrite IH. reflexivity.
Qed.

Lemma length_remove_last f l :
  length (List.filter (viewer f) (remove_last f l))
  = Nat.pred (length (List.filter (viewer f) l)).
Proof.
  assert (Hv : viewer f f = true) by apply Nat.eqb_refl.
  induction l as [|h l IH]; [reflexivity|]. cbn [remove_last].
  destruct (Nat.eqb_spec h f) as [->|Hne]; cbn [andb].
  - destruct (existsb (fun h' => (h' =? f)%nat) l) eqn:E; cbn [negb].
    + cbn [List.filter]. rewrite Hv. cbn [length Nat.pred]. rewrite IH.
      apply existsb_exists in E as (x & Hx & Ex).
      assert (Hin : In x (List.filter (viewer f) l)) by (apply filter_In; auto).
      destruct (List.filter (viewer f) l); [contradiction | reflexivity].
    + cbn [List.filter]. rewrite Hv. reflexivity.
  - assert (Hh : viewer f h = false) by (apply Nat.eqb_neq; exact Hne).
    cbn [List.filter]. rewrite Hh. exact IH.
Qed.

(** The calls of one listener among the deliveries. *)
Lemma filter_called_deliveries f env : forall em,
  List.filter (called f) (deliveries em env)
  = received f (length (List.filter (viewer f) (listeners_of email em))) env.
Proof.
  induction env as [|a env IH]; intros em; [reflexivity|].
  destruct a as [cr up m c|q|o|g|g]; cbn [deliveries received]; try apply IH.
  - cbn [List.filter called]. rewrite List.filter_app, filter_called_calls, IH. reflexivity.
  - rewrite IH, listeners_of_on, List.filter_app, length_app. cbn [List.filter].
    unfold viewer at 2. destruct (g =? f)%nat; cbn [length]; f_equal; lia.
  - rewrite IH, listeners_of_removeListener.
    destruct (Nat.eqb_spec g f) as [->|Hne]; [rewrite length_remove_last; reflexivity|].
    rewrite filter_remove_last_out; [reflexivity|].
    unfold viewer. destruct (Nat.eqb_spec g f); [contradiction | reflexivity].
Qed.

(** C8.  Over every sequence of publications, registrations and removals
    (and of inserts and deletes between them), from every state of the
    emitter: each 'email' event is entered in the log followed at once by
    the calls of the listeners registered at that time, in the order of
    their registration, before anything else is entered; the listener of a
    viewer is called, once per registration it then has, for exactly the
    records published while it is registered; and a viewer who was not
    registered, is registered once after the activities [pre] and, if its
    request closes, removed after the activities [mid] is called for
    exactly the records published during [mid], once each, in the order of
    their publication and each time before the next publication is
    entered, and for none published before or after. *)
Theorem viewer_sees_publications_while_subscribed env s f :
  let evs := new_events s (snd (suspended env s)) in
  List.filter delivery evs = deliveries (emitter s) env
  /\ List.filter (called f) evs
     = received f (length (List.filter (viewer f) (listeners_of email (emitter s)))) env
  /\ forall pre mid post (closes : bool),
       List.filter (viewer f) (listeners_of email (emitter s)) = [] ->
       leaves_alone (viewer f) pre = true ->
       leaves_alone (viewer f) mid = true ->
       leaves_alone (viewer f) post = true ->
       env = pre ++ OtherOn f :: mid
                 ++ (if closes then OtherRemoveListener f :: post else []) ->
       List.filter (called f) evs
       = map (fun o => Called f email (Mail o)) (published mid)
       /\ List.filter (seen_by (viewer f)) evs
          = flat_map (fun o => [Emitted email (Mail o)]) (published pre)
            ++ flat_map (fun o => [Emitted email (Mail o); Called f email (Mail o)])
                 (published mid)
            ++ flat_map (fun o => [Emitted email (Mail o)])
                 (published (if closes then post else [])).
Proof.
  intros evs.
  split; [apply suspended_deliveries|].
  split.
  { subst evs. rewrite filter_called_delivery, suspended_deliveries.
    apply filter_called_deliveries. }
  intros pre mid post closes H0 Hpre Hmid Hpost Henv.
  set (P := viewer f) in *.
  assert (Pf : P f = true) by (unfold P, viewer; apply Nat.eqb_refl).
  assert (Hseen : List.filter (seen_by P) evs
     = flat_map (fun o => [Emitted email (Mail o)]) (published pre)
       ++ flat_map (fun o => [Emitted email (Mail o); Called f email (Mail o)]) (published mid)
       ++ flat_map (fun o => [Emitted email (Mail o)])
            (published (if closes then post else []))).
  { subst evs env.
    rewrite new_events_suspended_app, List.filter_app.
    destruct (suspended_seen P pre s Hpre) as (Ea & Sa). rewrite H0 in Ea, Sa.
    rewrite Sa. cbn [map]. f_equal.
    set (sa := snd (suspended pre s)) in *.
    rewrite new_events_on. cbn [act]. unfold self_on at 1 2. cbn [snd].
    set (sb := Sink (db sa) (on email f (emitter sa)) (log sa)).
    assert (Eb : List.filter P (listeners_of email (emitter sb)) = [f]).
    { subst sb. cbn [emitter]. rewrite listeners_of_on, List.filter_app, Ea.
      cbn [List.filter app]. rewrite Pf. reflexivity. }
    rewrite new_events_suspended_app, List.filter_app.
    destruct (suspended_seen P mid sb Hmid) as (Ec & Sc). rewrite Eb in Ec, Sc.
    rewrite Sc. cbn [map]. f_equal.
    set (sc := snd (suspended mid sb)) in *.
    destruct closes.
    - rewrite new_events_removeListener. cbn [act]. unfold self_removeListener at 1 2.
      cbn [snd].
      set (sd := Sink (db sc) (removeListener email f (emitter sc)) (log sc)).
      assert (Ed : List.filter P (listeners_of email (emitter sd)) = []).
      { subst sd. cbn [emitter]. rewrite listeners_of_removeListener.
        rewrite (filter_remove_last_in P f _ Pf), Ec. cbn [remove_last existsb].
        rewrite Nat.eqb_refl. reflexivity. }
      destruct (suspended_seen P post sd Hpost) as (_ & Sd). rewrite Ed in Sd.
      exact Sd.
    - cbn [suspended ret snd published flat_map].
      rewrite (new_events_app sc sc []); [reflexivity | rewrite app_nil_r; reflexivity]. }
  split; [|exact Hseen].
  rewrite (filter_called_seen P f evs Pf), Hseen, !List.filter_app.
  rewrite (filter_called_flat_map f _ (fun _ => [])) by reflexivity.
  rewrite (filter_called_flat_map f _ (fun o => [Called f email (Mail o)]))
    by (intros o; cbn [List.filter called]; rewrite Nat.eqb_refl; reflexivity).
  rewrite (filter_called_flat_map f _ (fun _ => [])) by reflexivity.
  rewrite !flat_map_nil, !flat_map_singleton, app_nil_r. reflexivity.
Qed.

(** ** Schema creation *)

(** C5, as the code has it.  [createSchema] never throws: whatever
    failure the creation of the table meets, that the table exists or any
    other, is caught and emitted as an 'info' event, and the database is
    left as it was; without a failure the empty table is created.  Run a
    second time it leaves the table as the first run left it. *)
Theorem createSchema_swallows_every_failure json fault s :
  fst (createSchema json fault s) = Returns tt
  /\ db (snd (createSchema json fault s))
     = match creation_failure fault (db s) with
       | Some _ => db s
       | None => Some (Table json [] 0)
       end
  /\ new_events s (snd (createSchema json fault s))
     = match creation_failure fault (db s) with
       | Some err =>
           Emitted info (Message (message err))
             :: map (fun f => Called f info (Message (message err)))
                  (listeners_of info (emitter s))
       | None => []
       end
  /\ db (snd (createSchema json None (snd (createSchema json None s))))
     = db (snd (createSchema json None s)).
Proof.
  unfold createSchema, try_catch, createTable, creation_failure, emit, new_events.
  destruct fault as [e|]; destruct (db s) as [t|] eqn:E; cbn [fst snd db log emitter];
    rewrite ?E; cbn [fst snd db log emitter];
    rewrite ?drop_app_length, ?drop_all; auto.
Qed.

(** C5 as stated fails: a disk error during the creation of the table is
    not the failure of an existing table, and [createSchema] returns
    normally instead of passing it on. *)
Lemma createSchema_swallows_io_error :
  fst (createSchema TEXT (Some IoErr) (Sink None [] [])) = Returns tt
  /\ fst (createSchema TEXT (Some IoErr) (Sink None [] [])) <> Throws (SqliteError IoErr)
  /\ SqliteError IoErr <> SqliteError TableExists.
Proof. repeat split; discriminate. Qed.

Example sample_sink_value :
  sample_sink
  = Sink (Some (Table TEXT [sample_row] 1)) [(email, 7%nat)]
         [Inserted sample_row; Reread [row_to_js sample_row];
          Emitted email (Mail sample_record); Called 7%nat email (Mail sample_record);
          Done [1]].
Proof. vm_compute. reflexivity. Qed.

(** ** The streamed listing *)

Lemma stringify_to_object o : JSON.stringify (to_object o) = Some (element_text (to_object o)).
Proof. reflexivity. Qed.

Lemma JSONStream_rest_concat data :
  concat (JSONStream_rest [44%N] (map to_object data) ++ [[93%N]])
  = concat (map (fun d => 44%N :: element_text (to_object d)) data) ++ [93%N].
Proof.
  induction data as [|d data IH]; [reflexivity|].
  cbn [map JSONStream_rest app concat]. rewrite IH. rewrite <- app_assoc. reflexivity.
Qed.

Lemma join_concat (x : js_string) l :
  join [44%N] (x :: l) = x ++ concat (map (fun d => 44%N :: d) l).
Proof.
  revert x. induction l as [|y l IH]; intros x.
  - cbn. rewrite app_nil_r. reflexivity.
  - change (join [44%N] (x :: y :: l)) with (x ++ [44%N] ++ join [44%N] (y :: l)).
    rewrite IH. reflexivity.
Qed.

(** The body of the stream is the text [res.json] gives the rows as they
    are read, before [deserialize]. *)
Lemma api_email_stream_body s t :
  db s = Some t ->
  exists stream,
    api_email_stream s = (Returns stream, s)
    /\ status stream = 200
    /\ body stream = body (res_json (JArr (map to_object (map row_to_js (rows t))))).
Proof.
  intros Hdb. unfold api_email_stream, mbind. rewrite (knex_select_table s t Hdb).
  eexists. split; [reflexivity|]. split; [reflexivity|].
  unfold res_json. rewrite stringify_array. unfold body. cbn [written concat].
  rewrite app_nil_r.
  destruct (map row_to_js (rows t)) as [|o l]; [reflexivity|].
  cbn [map JSONStream_stringify concat]. rewrite stringify_to_object. cbn [default].
  rewrite JSONStream_rest_concat. cbn [app]. f_equal.
  rewrite join_concat, <- app_assoc. do 2 f_equal.
  rewrite !List.map_map. reflexivity.
Qed.

(** C4 fails on the code.  On the sink that holds the one message of the
    sample session, GET /api/email answers with the record decoded
    (subject Hi) and GET /api/email/stream with the row as it is stored
    (subject the JSON text of Hi, quotes included): the route never calls
    [deserialize]. *)
Theorem api_email_stream_is_not_decoded :
  exists listing stream,
    api_email sample_sink = (Returns listing, sample_sink)
    /\ api_email_stream sample_sink = (Returns stream, sample_sink)
    /\ JSON.parse (JStr (body listing)) = Returns (JArr [to_object sample_record])
    /\ JSON.parse (JStr (body stream)) = Returns (JArr [to_object (row_to_js sample_row)])
    /\ subject (cols sample_record) = JStr (lit "Hi")
    /\ subject (cols (row_to_js sample_row)) = JStr ([34%N] ++ lit "Hi" ++ [34%N])
    /\ body listing <> body stream.
Proof.
  eexists _, _. split; [vm_compute; reflexivity|]. split; [vm_compute; reflexivity|].
  split; [vm_compute; reflexivity|]. split; [vm_compute; reflexivity|].
  split; [reflexivity|]. split; [reflexivity|].
  vm_compute. discriminate.
Qed.




Lemma done_only_after_insert_witness :
  In (Done [2])
     (new_events sample_start
        (snd (on_end [OtherOn 7%nat; OtherInsert 1000 1001 sample_mail sample_connection]
                [OtherInsert 3000 3001 sample_mail sample_connection]
                [OtherDel (satisfies Eq (Integer 1))] None None 2000 2001
                sample_mail sample_connection sample_start)))
  /\ exists t r t' pre,
       let s1 := snd (suspended
                        [OtherOn 7%nat; OtherInsert 1000 1001 sample_mail sample_connection]
                        sample_start) in
       let s1' := Sink (Some t') (emitter s1) (log s1 ++ [Inserted r]) in
       let s2 := snd (suspended [OtherInsert 3000 3001 sample_mail sample_connection] s1') in
       let s3 := snd (suspended [OtherDel (satisfies Eq (Integer 1))]
                        (Sink (db s2) (emitter s2) (log s2 ++ [Reread [row_to_js r]]))) in
       let final :=
         snd (on_end [OtherOn 7%nat; OtherInsert 1000 1001 sample_mail sample_connection]
                [OtherInsert 3000 3001 sample_mail sample_connection]
                [OtherDel (satisfies Eq (Integer 1))] None None 2000 2001
                sample_mail sample_connection sample_start) in
       db s1 = Some t
       /\ insert_row 2000 2001 (insert_values sample_mail sample_connection) t = Returns (r, t')
       /\ In r (rows t')
       /\ [2] = [id r]
       /\ knex_insert None 2000 2001 (insert_values sample_mail sample_connection) s1
          = (Returns [2], s1')
       /\ In r (stored s1')
       /\ In r (stored s2)
       /\ knex_select_where None Eq (BindNumber (id r)) s2 = (Returns [row_to_js r], s2)
       /\ stored final = stored s3
       /\ (spares (id r) [OtherDel (satisfies Eq (Integer 1))] = true -> In r (stored final))
       /\ new_events sample_start final = pre ++ [Done [2]]
       /\ In (Inserted r) pre
       /\ ~ In (Done [2]) pre.
Proof.
  assert (H : In (Done [2])
     (new_events sample_start
        (snd (on_end [OtherOn 7%nat; OtherInsert 1000 1001 sample_mail sample_connection]
                [OtherInsert 3000 3001 sample_mail sample_connection]
                [OtherDel (satisfies Eq (Integer 1))] None None 2000 2001
                sample_mail sample_connection sample_start)))).
  { vm_compute. repeat (first [left; reflexivity | right]). }
  split; [exact H|].
  exact (done_only_after_insert
           [OtherOn 7%nat; OtherInsert 1000 1001 sample_mail sample_connection]
           [OtherInsert 3000 3001 sample_mail sample_connection]
           [OtherDel (satisfies Eq (Integer 1))] None None 2000 2001
           sample_mail sample_connection sample_start [2] H).
Defined.

Lemma ids_ascend_and_are_not_reused_witness :
  Z.of_nat (inserts (sample_history
                     ++ [OtherInsert 3000 3001 sample_mail sample_connection])) <= MAX_ROWID
  /\ (let s0 := snd (createSchema TEXT None (Sink None [] [])) in
      let s1 := snd (suspended sample_history s0) in
      let s2 := snd (suspended [OtherInsert 3000 3001 sample_mail sample_connection] s1) in
      map id (inserted (new_events s0 s2))
      = map Z.of_nat
          (List.seq 1 (inserts (sample_history
                                ++ [OtherInsert 3000 3001 sample_mail sample_connection])))
      /\ StronglySorted Z.lt (map id (inserted (new_events s0 s2)))
      /\ NoDup (map id (inserted (new_events s0 s2)))
      /\ Forall (fun r => Forall (fun r' => id r < id r') (inserted (new_events s1 s2)))
           (stored s1)).
Proof.
  assert (H : Z.of_nat (inserts (sample_history
                ++ [OtherInsert 3000 3001 sample_mail sample_connection])) <= MAX_ROWID)
    by (vm_compute; discriminate).
  split; [exact H|].
  exact (ids_ascend_and_are_not_reused TEXT [] [] sample_history
           [OtherInsert 3000 3001 sample_mail sample_connection] H).
Defined.


Lemma api_email_lists_in_insertion_order_witness :
  modelled_activities sample_history = true
  /\ (let s0 := snd (createSchema TEXT None (Sink None [] [])) in
      let s := snd (suspended sample_history s0) in
      let resp := expected_listing 0 [] sample_history in
      api_email s = (Returns (res_json (JArr (map to_object resp))), s)
      /\ forEach_deserialize (map row_to_js (stored s)) = Returns resp
      /\ map id resp = map id (stored s)
      /\ stored s `sublist_of` inserted (new_events s0 s)
      /\ StronglySorted Z.lt (map id resp)).
Proof.
  assert (H : modelled_activities sample_history = true) by (vm_compute; reflexivity).
  split; [exact H|].
  exact (api_email_lists_in_insertion_order TEXT [] [] sample_history H).
Defined.

Lemma viewer_sees_publications_while_subscribed_witness :
  List.filter (viewer 1%nat) (listeners_of email (emitter sample_start)) = []
  /\ leaves_alone (viewer 1%nat) [OtherEmit sample_record; OtherOn 3%nat] = true
  /\ leaves_alone (viewer 1%nat) [OtherEmit sample_record; OtherOn 2%nat; OtherEmit sample_record]
     = true
  /\ leaves_alone (viewer 1%nat) [OtherRemoveListener 3%nat; OtherEmit sample_record] = true
  /\ (let env :=
        [OtherEmit sample_record; OtherOn 3%nat]
        ++ OtherOn 1%nat :: [OtherEmit sample_record; OtherOn 2%nat; OtherEmit sample_record]
        ++ OtherRemoveListener 1%nat :: [OtherRemoveListener 3%nat; OtherEmit sample_record] in
      let evs := new_events sample_start (snd (suspended env sample_start)) in
      List.filter (called 1%nat) evs
      = map (fun o => Called 1%nat email (Mail o))
          (published [OtherEmit sample_record; OtherOn 2%nat; OtherEmit sample_record])
      /\ List.filter (seen_by (viewer 1%nat)) evs
         = flat_map (fun o => [Emitted email (Mail o)])
             (published [OtherEmit sample_record; OtherOn 3%nat])
           ++ flat_map (fun o => [Emitted email (Mail o); Called 1%nat email (Mail o)])
                (published [OtherEmit sample_record; OtherOn 2%nat; OtherEmit sample_record])
           ++ flat_map (fun o => [Emitted email (Mail o)])
                (published [OtherRemoveListener 3%nat; OtherEmit sample_record])).
Proof.
  assert (H1 : List.filter (viewer 1%nat) (listeners_of email (emitter sample_start)) = [])
    by reflexivity.
  assert (H2 : leaves_alone (viewer 1%nat) [OtherEmit sample_record; OtherOn 3%nat] = true)
    by reflexivity.
  assert (H3 : leaves_alone (viewer 1%nat)
                 [OtherEmit sample_record; OtherOn 2%nat; OtherEmit sample_record] = true)
    by reflexivity.
  assert (H4 : leaves_alone (viewer 1%nat)
                 [OtherRemoveListener 3%nat; OtherEmit sample_record] = true)
    by reflexivity.
  repeat (split; [assumption|]).
  exact (proj2 (proj2 (viewer_sees_publications_while_subscribed
           ([OtherEmit sample_record; OtherOn 3%nat]
            ++ OtherOn 1%nat
                 :: [OtherEmit sample_record; OtherOn 2%nat; OtherEmit sample_record]
            ++ OtherRemoveListener 1%nat
                 :: [OtherRemoveListener 3%nat; OtherEmit sample_record])
           sample_start 1%nat))
           [OtherEmit sample_record; OtherOn 3%nat]
           [OtherEmit sample_record; OtherOn 2%nat; OtherEmit sample_record]
           [OtherRemoveListener 3%nat; OtherEmit sample_record] true H1 H2 H3 H4 eq_refl).
Defined.

(** * Further properties *)

(** ** What [JSON.parse] returns *)

Lemma array_index_text k i : array_index k = Some i -> k = uint_units (N.to_uint i).
Proof.
  unfold array_index. destruct (read_digits k) as [d [|c r]]; [|discriminate].
  destruct (js_string_eqb _ k) eqn:E; [|discriminate]. cbn [andb].
  destruct (_ <? _)%N; [|discriminate]. intros H. injection H as <-.
  symmetry. apply js_string_eqb_eq. exact E.
Qed.

(** A key that is neither [k'] nor put before [k'] may follow it. *)
Lemma key_before_created k k' :
  js_string_eqb k' k = false -> precedes k k' = false -> key_before k' k = true.
Proof.
  unfold precedes, key_before. intros E H.
  destruct (array_index k') as [j|] eqn:Ej, (array_index k) as [i|] eqn:Ei;
    try reflexivity; try discriminate.
  - apply N.ltb_ge in H. apply N.ltb_lt.
    destruct (N.eq_dec i j) as [->|Hne]; [|lia].
    apply array_index_text in Ej, Ei. subst k k'.
    rewrite js_string_eqb_refl in E. discriminate.
  - rewrite E. reflexivity.
Qed.

Lemma precedes_before k k' : precedes k k' = true -> key_before k k' = true.
Proof.
  unfold precedes, key_before.
  destruct (array_index k), (array_index k'); (discriminate || exact (fun H => H)).
Qed.

Lemma precedes_trans k k' x :
  precedes k k' = true -> key_before k' x = true -> key_before k x = true.
Proof.
  unfold precedes, key_before.
  destruct (array_index k) as [i|], (array_index k') as [j|], (array_index x) as [m|];
    try discriminate; try reflexivity.
  rewrite !N.ltb_lt. lia.
Qed.

(** [CreateDataProperty] keeps the keys distinct and in enumeration
    order. *)
Lemma CreateDataProperty_ordered k v o :
  own_keys_ordered (map fst o) = true ->
  own_keys_ordered (map fst (CreateDataProperty o k v)) = true
  /\ forall x, key_before x k = true -> forallb (key_before x) (map fst o) = true ->
       forallb (key_before x) (map fst (CreateDataProperty o k v)) = true.
Proof.
  induction o as [|[k' v'] o IH]; intros Ho.
  - split; [reflexivity|]. intros x Hx _. cbn. rewrite Hx. reflexivity.
  - cbn [map fst own_keys_ordered] in Ho. apply andb_true_iff in Ho as [Hk' Ho].
    destruct (IH Ho) as [IH1 IH2]. cbn [CreateDataProperty].
    destruct (js_string_eqb k' k) eqn:E.
    + apply js_string_eqb_eq in E. subst k'. cbn [map fst own_keys_ordered forallb].
      split; [rewrite Hk', Ho; reflexivity|]. intros x Hx H. exact H.
    + destruct (precedes k k') eqn:P.
      * cbn [map fst own_keys_ordered forallb]. split.
        -- rewrite (precedes_before _ _ P), Hk', Ho. cbn [andb].
           rewrite !andb_true_r. apply forallb_forall. intros x Hx.
           rewrite forallb_forall in Hk'. eapply precedes_trans; [exact P | auto].
        -- intros x Hx H. cbn [map fst forallb] in H. rewrite Hx, H. reflexivity.
      * cbn [map fst own_keys_ordered forallb]. split.
        -- rewrite IH1, andb_true_r. apply IH2; [|exact Hk'].
           apply key_before_created; assumption.
        -- intros x Hx H. cbn [map fst forallb] in H. apply andb_true_iff in H as [H1 H2].
           rewrite H1. cbn [andb]. apply IH2; assumption.
Qed.

Lemma CreateDataProperty_values (P : value -> bool) k v o :
  P v = true -> forallb (fun kv => P (snd kv)) o = true ->
  forallb (fun kv => P (snd kv)) (CreateDataProperty o k v) = true.
Proof.
  intros Hv. induction o as [|[k' v'] o IH]; intros Ho.
  - cbn. rewrite Hv. reflexivity.
  - cbn [forallb snd] in Ho. apply andb_true_iff in Ho as [H1 H2].
    cbn [CreateDataProperty].
    destruct (js_string_eqb k' k); [cbn [forallb snd]; rewrite Hv, H2; reflexivity|].
    destruct (precedes k k'); cbn [forallb snd]; rewrite ?Hv, ?H1, ?H2, ?IH; auto.
Qed.

Lemma create_members_json m : forall o,
  json_value (JObj o) = true ->
  forallb (fun kv => json_value (snd kv)) m = true ->
  json_value (JObj (fold_left (fun o kv => CreateDataProperty o (fst kv) (snd kv)) m o)) = true.
Proof.
  induction m as [|[k v] m IH]; intros o Ho Hm; [exact Ho|].
  cbn [forallb snd] in Hm. apply andb_true_iff in Hm as [Hv Hm].
  cbn [fold_left fst snd]. apply IH; [|exact Hm].
  cbn [json_value] in *. apply andb_true_iff in Ho as [H1 H2].
  rewrite (proj1 (CreateDataProperty_ordered k v o H1)).
  rewrite (CreateDataProperty_values json_value k v o Hv H2). reflexivity.
Qed.

Lemma expect_value w : forall s v v' r, expect w s v = Returns (v', r) -> v' = v.
Proof.
  induction w as [|c w IH]; intros s v v' r H; cbn [expect] in H.
  - injection H as <- _. reflexivity.
  - destruct s as [|d s]; [discriminate|]. destruct (d =? c)%N; [|discriminate]. eauto.
Qed.

Lemma parse_int_json neg s v r : parse_int neg s = Returns (v, r) -> json_value v = true.
Proof.
  unfold parse_int. destruct s as [|c s]; [discriminate|].
  destruct (negb (is_digit c)); [discriminate|].
  destruct (if (c =? 48)%N then _ else _) as [d r'].
  destruct (starts_fraction_or_exponent r'); [discriminate|]. cbv zeta.
  destruct (neg && _); [discriminate|].
  destruct (Z.ltb_spec MAX_SAFE_INTEGER (Z.of_N (N.of_uint d))); [discriminate|].
  intros E. injection E as <- _. cbn [json_value]. apply Z.leb_le.
  destruct neg; lia.
Qed.

(** Whatever the parser reads is a value JSON text can hold. *)
Lemma parse_json fuel :
  (forall s v r, parse_value fuel s = Returns (v, r) -> json_value v = true)
  /\ (forall s l r, parse_elements fuel s = Returns (l, r) -> forallb json_value l = true)
  /\ (forall s m r, parse_members fuel s = Returns (m, r) ->
        forallb (fun kv => json_value (snd kv)) m = true).
Proof.
  induction fuel as [|fuel (IHv & IHe & IHm)]; [repeat split; discriminate|].
  split; [|split].
  - intros s v r H. cbn [parse_value] in H.
    destruct (skip_ws s) as [|c s']; [discriminate|].
    destruct (c =? 110)%N; [apply expect_value in H; subst; reflexivity|].
    destruct (c =? 116)%N; [apply expect_value in H; subst; reflexivity|].
    destruct (c =? 102)%N; [apply expect_value in H; subst; reflexivity|].
    destruct (c =? 34)%N.
    { apply bind_returns in H as ([u r'] & _ & E). injection E as <- _. reflexivity. }
    destruct (c =? 45)%N; [exact (parse_int_json _ _ _ _ H)|].
    destruct (is_digit c); [exact (parse_int_json _ _ _ _ H)|].
    destruct (c =? 91)%N.
    { destruct (skip_ws s') as [|c' r']; [discriminate|].
      destruct (c' =? 93)%N; [injection H as <- _; reflexivity|].
      apply bind_returns in H as ([l r''] & H & E). injection E as <- _.
      cbn [json_value]. eauto. }
    destruct (c =? 123)%N; [|discriminate].
    destruct (skip_ws s') as [|c' r']; [discriminate|].
    destruct (c' =? 125)%N; [injection H as <- _; reflexivity|].
    apply bind_returns in H as ([m r''] & H & E). injection E as <- _.
    apply create_members_json; [reflexivity | eauto].
  - intros s l r H. cbn [parse_elements] in H.
    apply bind_returns in H as ([v r1] & Hv & H). apply IHv in Hv.
    destruct (skip_ws r1) as [|c r2]; [discriminate|].
    destruct (c =? 44)%N.
    { apply bind_returns in H as ([l' r3] & H & E). injection E as <- _.
      cbn [forallb]. rewrite Hv. eauto. }
    destruct (c =? 93)%N; [|discriminate]. injection H as <- _.
    cbn [forallb]. rewrite Hv. reflexivity.
  - intros s m r H. cbn [parse_members] in H.
    destruct (skip_ws s) as [|c s1]; [discriminate|].
    destruct (c =? 34)%N; [|discriminate].
    apply bind_returns in H as ([k r1] & _ & H).
    destruct (skip_ws r1) as [|c1 r2]; [discriminate|].
    destruct (c1 =? 58)%N; [|discriminate].
    apply bind_returns in H as ([v r3] & Hv & H). apply IHv in Hv.
    destruct (skip_ws r3) as [|c3 r4]; [discriminate|].
    destruct (c3 =? 44)%N.
    { apply bind_returns in H as ([m' r5] & H & E). injection E as <- _.
      cbn [forallb snd]. rewrite Hv. eauto. }
    destruct (c3 =? 125)%N; [|discriminate]. injection H as <- _.
    cbn [forallb snd]. rewrite Hv. reflexivity.
Qed.

Lemma parse_returns_json arg v : JSON.parse arg = Returns v -> json_value v = true.
Proof.
  unfold JSON.parse. intros H. apply bind_returns in H as ([v' r] & H & E).
  destruct (skip_ws r); [|discriminate]. injection E as <-.
  exact (proj1 (parse_json _) _ _ _ H).
Qed.

(** What [deserialize] returns holds JSON values, under the id and the
    timestamps of the row. *)
Lemma deserialize_json o o' :
  deserialize o = Returns o' ->
  all_columns json_value (cols o') = true
  /\ id o' = id o /\ created_at o' = created_at o /\ updated_at o' = updated_at o.
Proof.
  intros H.
  destruct (deserialize_returns _ _ H)
    as (Hi & Hc & Hu & H1 & H2 & H3 & H4 & H5 & H6 & H7 & H8).
  split; [|auto]. unfold all_columns.
  rewrite (parse_returns_json _ _ H1), (parse_returns_json _ _ H2),
    (parse_returns_json _ _ H3), (parse_returns_json _ _ H4),
    (parse_returns_json _ _ H5), (parse_returns_json _ _ H6),
    (parse_returns_json _ _ H7), (parse_returns_json _ _ H8).
  reflexivity.
Qed.

(** ** The bodies of the listings *)

Lemma json_value_defined v : json_value v = true -> v <> JUndefined.
Proof. intros H ->. discriminate. Qed.

(** The text [res.json] sends for a JSON value denotes that value. *)
Lemma parse_res_json v :
  json_value v = true ->
  status (res_json v) = 200 /\ JSON.parse (JStr (body (res_json v))) = Returns v.
Proof.
  intros Hv. unfold res_json.
  rewrite (stringify_defined v (json_value_defined v Hv)).
  split; [reflexivity|]. unfold body. cbn [written concat]. rewrite app_nil_r.
  rewrite <- (revived_json_value v Hv) at 2.
  apply parse_text; [apply json_value_modelled; exact Hv | reflexivity].
Qed.

Lemma to_object_json o :
  safe_key o = true -> all_columns json_value (cols o) = true ->
  json_value (to_object o) = true.
Proof.
  unfold safe_key, safe, all_columns. intros Hk Hc.
  repeat (apply andb_true_iff in Hk as [Hk ?]).
  repeat (apply andb_true_iff in Hc as [Hc ?]).
  unfold to_object. cbn [json_value forallb snd map fst].
  repeat (apply andb_true_iff; split); try assumption; reflexivity.
Qed.



Lemma filter_Forall {A} (P : A -> Prop) (p : A -> bool) l :
  Forall P l -> Forall P (List.filter p l).
Proof.
  induction 1 as [|x l Hx _ IH]; [constructor|].
  cbn [List.filter]. destruct (p x); [constructor|]; assumption.
Qed.

Lemma safe_bound z : 0 <= z <= MAX_SAFE_INTEGER -> safe z = true.
Proof. intros H. unfold safe. apply Z.leb_le. lia. Qed.

(** The ids and the timestamps of the listing that a history is to give
    are integers a double holds exactly, when the readings of the clock
    are and the history has no more inserts than there are such integers. *)
Lemma expected_listing_safe env : forall i acc,
  safe_clock env = true -> 0 <= i -> i + Z.of_nat (inserts env) <= MAX_SAFE_INTEGER ->
  Forall (fun o => safe_key o = true) acc ->
  Forall (fun o => safe_key o = true) (expected_listing i acc env).
Proof.
  induction env as [|a env IH]; intros i acc Hc H0 Hn Hacc; [exact Hacc|].
  destruct a as [cr up m c|q|o|f|f]; cbn [expected_listing safe_clock inserts] in *.
  - apply andb_true_iff in Hc as [Hc Henv]. apply andb_true_iff in Hc as [Hcr Hup].
    destruct (i <? MAX_ROWID); [|apply IH; try assumption; lia].
    apply IH; [exact Henv | lia | lia |].
    apply Forall_app. split; [exact Hacc|]. constructor; [|constructor].
    unfold safe_key. cbn [id created_at updated_at]. rewrite Hcr, Hup, safe_bound by lia.
    reflexivity.
  - apply IH; try assumption. apply filter_Forall. exact Hacc.
  - apply IH; assumption.
  - apply IH; assumption.
  - apply IH; assumption.
Qed.

Lemma forEach_deserialize_safe l : forall resp,
  forEach_deserialize (map row_to_js l) = Returns resp ->
  Forall (fun o => safe_key o = true) resp ->
  forallb json_value (map to_object resp) = true.
Proof.
  induction l as [|r l IH]; intros resp H Hs.
  - injection H as <-. reflexivity.
  - cbn [map forEach_deserialize] in H.
    apply bind_returns in H as (o & Ho & H). apply bind_returns in H as (rest & Hr & H).
    injection H as <-. apply Forall_cons in Hs as [Hk Hs].
    cbn [map forallb]. rewrite (IH rest Hr Hs), andb_true_r.
    destruct (deserialize_json _ _ Ho) as (Hj & _).
    apply to_object_json; assumption.
Qed.

(** X2.  After any activity on a new table (the fields of the messages
    inserted being values of the model, the readings of the clock integers
    a double holds exactly, and the inserts no more than there are such
    integers), GET /api/email answers with status 200 and a body that is
    JSON text: parsed, it is the array of the messages inserted and not
    deleted or purged since, in the order in which they were inserted,
    each with its id, its two timestamps and its fields as [JSON.parse]
    gives them back.  The sink is left as it was. *)
Theorem api_email_body_parses json em lg env :
  modelled_activities env = true ->
  safe_clock env = true ->
  Z.of_nat (inserts env) <= MAX_SAFE_INTEGER ->
  let s := snd (suspended env (snd (createSchema json None (Sink None em lg)))) in
  exists resp,
    api_email s = (Returns resp, s)
    /\ status resp = 200
    /\ JSON.parse (JStr (body resp))
       = Returns (JArr (map to_object (expected_listing 0 [] env))).
Proof.
  intros Henv Hclock Hn s.
  destruct (api_email_expected json em lg env Henv) as (H1 & H2 & _). fold s in H1, H2.
  assert (Hj : json_value (JArr (map to_object (expected_listing 0 [] env))) = true).
  { cbn [json_value]. apply (forEach_deserialize_safe _ _ H2).
    apply expected_listing_safe; [exact Hclock | lia | lia | constructor]. }
  destruct (parse_res_json _ Hj) as [E1 E2].
  exists (res_json (JArr (map to_object (expected_listing 0 [] env)))).
  split; [exact H1|]. split; [exact E1 | exact E2].
Qed.

Lemma api_email_body_parses_witness :
  modelled_activities sample_history = true
  /\ safe_clock sample_history = true
  /\ Z.of_nat (inserts sample_history) <= MAX_SAFE_INTEGER
  /\ exists resp,
       api_email (snd (suspended sample_history sample_start))
       = (Returns resp, snd (suspended sample_history sample_start))
       /\ status resp = 200
       /\ JSON.parse (JStr (body resp))
          = Returns (JArr (map to_object (expected_listing 0 [] sample_history))).
Proof.
  assert (H1 : modelled_activities sample_history = true) by (vm_compute; reflexivity).
  assert (H2 : safe_clock sample_history = true) by (vm_compute; reflexivity).
  assert (H3 : Z.of_nat (inserts sample_history) <= MAX_SAFE_INTEGER)
    by (vm_compute; discriminate).
  split; [exact H1|]. split; [exact H2|]. split; [exact H3|].
  exact (api_email_body_parses TEXT [] [] sample_history H1 H2 H3).
Defined.



(** ** The last message *)

Lemma insert_desc_last r l :
  Forall (fun x => id r < id x) l -> insert_desc r l = l ++ [r].
Proof.
  induction 1 as [|x l Hx Hl IH]; [reflexivity|].
  cbn [insert_desc app]. destruct (Z.leb_spec (id x) (id r)); [lia|]. rewrite IH. reflexivity.
Qed.

(** On rows in ascending order of id, ordering by descending id reverses
    the scan. *)
Lemma orderBy_id_desc_sorted l :
  StronglySorted Z.lt (map id l) -> orderBy_id_desc l = rev l.
Proof.
  induction l as [|r l IH]; intros Hs; [reflexivity|].
  cbn [map] in Hs. apply StronglySorted_inv in Hs as [Hs Hr].
  cbn [orderBy_id_desc rev]. rewrite (IH Hs). apply insert_desc_last.
  apply List.Forall_forall. intros x Hx. apply in_rev in Hx.
  rewrite List.Forall_forall in Hr. apply Hr. apply in_map. exact Hx.
Qed.

Lemma take_1_rev {A} (l : list A) :
  take 1 (rev l) = match last l with Some x => [x] | None => [] end.
Proof.
  induction l as [|x l IH] using rev_ind; [reflexivity|].
  rewrite rev_app_distr, last_snoc. reflexivity.
Qed.

Lemma last_sorted_max l r :
  StronglySorted Z.lt (map id l) -> last l = Some r ->
  Forall (fun r' : record sqlite_value => id r' <= id r) l.
Proof.
  induction l as [|x l IH]; intros Hs Hl; [constructor|].
  cbn [map] in Hs. apply StronglySorted_inv in Hs as [Hs Hx].
  destruct l as [|y l].
  - injection Hl as ->. repeat constructor. lia.
  - change (last (x :: y :: l)) with (last (y :: l)) in Hl.
    specialize (IH Hs Hl). constructor; [|exact IH].
    rewrite List.Forall_forall in Hx.
    assert (Hin : In r (y :: l)).
    { apply list_elem_of_In. apply last_Some_elem_of. exact Hl. }
    specialize (Hx _ (in_map id _ _ Hin)). lia.
Qed.

Lemma api_email_latest_run s t :
  db s = Some t ->
  api_email_latest s
  = match take 1 (orderBy_id_desc (rows t)) with
    | [] => (Returns (res_send 404 (lit "Not found")), s)
    | r :: _ =>
        match deserialize (row_to_js r) with
        | Returns o => (Returns (res_json (to_object o)), s)
        | Throws e => (Throws e, s)
        | Unmodelled g => (Unmodelled g, s)
        end
    end.
Proof.
  intros Hdb. unfold api_email_latest, mbind, knex_select_desc_limit, with_table.
  rewrite Hdb. cbn [bind]. rewrite <- Hdb, sink_eta.
  destruct (take 1 (orderBy_id_desc (rows t))) as [|r l]; [reflexivity|].
  cbn [map]. unfold lift. destruct (deserialize (row_to_js r)); reflexivity.
Qed.

(** X4.  After any activity on a new table, GET /api/email/latest answers
    404 Not found when the table is empty, and otherwise with the last row
    of the table, decoded by [deserialize]: the row with the largest id,
    which is the one most recently inserted among those still stored.  A
    failure of [deserialize] is passed on.  The sink is left as it was. *)
Theorem api_email_latest_is_last_row json em lg env :
  let s := snd (suspended env (snd (createSchema json None (Sink None em lg)))) in
  api_email_latest s
  = match last (stored s) with
    | None => (Returns (res_send 404 (lit "Not found")), s)
    | Some r =>
        match deserialize (row_to_js r) with
        | Returns o => (Returns (res_json (to_object o)), s)
        | Throws e => (Throws e, s)
        | Unmodelled g => (Unmodelled g, s)
        end
    end
  /\ (forall r, last (stored s) = Some r -> Forall (fun r' => id r' <= id r) (stored s)).
Proof.
  intros s.
  destruct (suspended_consistent env _ (createSchema_consistent json em lg))
    as (_ & _ & [_ Hsorted] & _). fold s in Hsorted.
  destruct (suspended_table env (snd (createSchema json None (Sink None em lg))))
    as [t Ht]; [eexists; reflexivity|]. fold s in Ht.
  unfold stored in *. rewrite Ht in *. split.
  - rewrite (api_email_latest_run s t Ht), (orderBy_id_desc_sorted _ Hsorted), take_1_rev.
    destruct (last (rows t)); reflexivity.
  - intros r Hr. apply last_sorted_max; assumption.
Qed.

(** ** One message *)

Lemma api_email_id_run k s t :
  db s = Some t ->
  api_email_id (NumberToString (Finite k)) s
  = match filter (fun r => satisfies Eq (Integer k) (id r) = true) (rows t) with
    | [] => (Returns (res_send 404 (lit "Not found")), s)
    | r :: _ =>
        match deserialize (row_to_js r) with
        | Returns o => (Returns (res_json (to_object o)), s)
        | Throws e => (Throws e, s)
        | Unmodelled g => (Unmodelled g, s)
        end
    end.
Proof.
  intros Hdb. unfold api_email_id, mbind.
  rewrite knex_select_where_text, knex_select_where_run, Hdb. cbn [operand_of].
  rewrite <- Hdb, sink_eta.
  destruct (filter _ (rows t)) as [|r l]; [reflexivity|].
  cbn [map]. unfold lift. destruct (deserialize (row_to_js r)); reflexivity.
Qed.

Lemma filter_nil_in {A} (P : A -> Prop) `{!forall x, Decision (P x)} (l : list A) :
  (forall x, In x l -> ~ P x) -> filter P l = [].
Proof.
  induction l as [|x l IH]; intros Hl; [reflexivity|].
  rewrite filter_cons. destruct (decide (P x)) as [Hx|_].
  - exfalso. exact (Hl x (or_introl eq_refl) Hx).
  - apply IH. intros y Hy. apply Hl. right. exact Hy.
Qed.

(** In a table whose ids ascend, a row is the only one with its id. *)
Lemma filter_id_sorted l r :
  StronglySorted Z.lt (map id l) -> In r l ->
  filter (fun x : record sqlite_value => satisfies Eq (Integer (id r)) (id x) = true) l = [r].
Proof.
  induction l as [|x l IH]; intros Hs Hin; [destruct Hin|].
  cbn [map] in Hs. apply StronglySorted_inv in Hs as [Hs Hx].
  rewrite List.Forall_forall in Hx. rewrite filter_cons. cbn [satisfies].
  destruct Hin as [->|Hin].
  - destruct (decide ((id r =? id r) = true)) as [_|Hne]; [|rewrite Z.eqb_refl in Hne; congruence].
    f_equal. apply filter_nil_in. intros y Hy.
    specialize (Hx _ (in_map id _ _ Hy)).
    intros E. apply Z.eqb_eq in E. lia.
  - specialize (Hx _ (in_map id _ _ Hin)).
    destruct (decide ((id x =? id r) = true)) as [E|_]; [apply Z.eqb_eq in E; lia|].
    apply IH; assumption.
Qed.

Lemma filter_id_absent l k :
  ~ In k (map id l) ->
  filter (fun x : record sqlite_value => satisfies Eq (Integer k) (id x) = true) l = [].
Proof.
  intros Hk. apply filter_nil_in. intros y Hy E.
  cbn [satisfies] in E. apply Z.eqb_eq in E.
  apply Hk. rewrite <- E. apply in_map. exact Hy.
Qed.

Lemma forEach_deserialize_each l : forall resp,
  forEach_deserialize (map row_to_js l) = Returns resp ->
  Forall2 (fun r o => deserialize (row_to_js r) = Returns o) l resp.
Proof.
  induction l as [|r l IH]; intros resp H.
  - injection H as <-. constructor.
  - cbn [map forEach_deserialize] in H.
    apply bind_returns in H as (o & Ho & H). apply bind_returns in H as (rest & Hr & H).
    injection H as <-. constructor; auto.
Qed.

(** ** A parameter that is no number *)

Lemma operand_of_text p : numeric_text p = Returns None -> operand_of (BindString p) = Returns (Text p).
Proof. intros H. cbn [operand_of]. rewrite H. reflexivity. Qed.

Lemma filter_all {A} (P : A -> Prop) `{!forall x, Decision (P x)} (l : list A) :
  (forall x, P x) -> filter P l = l.
Proof.
  intros Hl. induction l as [|x l IH]; [reflexivity|].
  rewrite filter_cons. destruct (decide (P x)); [rewrite IH; reflexivity | exfalso; auto].
Qed.

Lemma filter_none {A} (P : A -> Prop) `{!forall x, Decision (P x)} (l : list A) :
  (forall x, ~ P x) -> filter P l = [].
Proof. intros Hl. apply filter_nil_in. auto. Qed.

(** ** Reading leaves the sink alone *)

Lemma with_table_reads {A} fault (q : table -> completion A) s :
  snd (with_table fault (fun t => let* a := q t in Returns (a, t)) s) = s.
Proof.
  unfold with_table. destruct fault; [reflexivity|].
  destruct (db s) as [t|] eqn:E; [|reflexivity].
  destruct (q t); cbn [bind snd]; [rewrite <- E; apply sink_eta | reflexivity | reflexivity].
Qed.

Lemma knex_select_reads fault s : snd (knex_select fault s) = s.
Proof. exact (with_table_reads fault (fun t => Returns (map row_to_js (rows t))) s). Qed.

Lemma knex_select_where_reads fault c b s : snd (knex_select_where fault c b s) = s.
Proof.
  rewrite knex_select_where_run. destruct fault; [reflexivity|].
  destruct (db s) as [t|] eqn:E; [|reflexivity].
  destruct (operand_of b); cbn [snd]; [rewrite <- E; apply sink_eta | reflexivity | reflexivity].
Qed.

Lemma knex_select_desc_limit_reads fault n s : snd (knex_select_desc_limit fault n s) = s.
Proof.
  exact (with_table_reads fault
           (fun t => Returns (map row_to_js (take n (orderBy_id_desc (rows t))))) s).
Qed.

(** A query that reads, followed by code that leaves the sink alone. *)
Lemma mbind_reads {A B} (m : M A) (k : A -> M B) s :
  snd (m s) = s -> (forall a, snd (k a s) = s) -> snd (mbind m k s) = s.
Proof.
  intros Hm Hk. unfold mbind. destruct (m s) as [[a| |] s1]; cbn [snd] in *; subst; auto.
Qed.

Lemma lift_ret_reads {A B} (c : completion A) (f : A -> B) s :
  snd (mbind (lift c) (fun a => ret (f a)) s) = s.
Proof. unfold mbind, lift. destruct c; reflexivity. Qed.

(** X5.  After any activity on a new table (the fields of the messages
    inserted being values of the model), GET /api/email/<id> agrees with
    the listing: for every record that GET /api/email lists it answers
    with that record, and for every integer that is the id of no listed
    record it answers 404 Not found.  The sink is left as it was. *)
Theorem api_email_id_agrees_with_listing json em lg env :
  modelled_activities env = true ->
  let s := snd (suspended env (snd (createSchema json None (Sink None em lg)))) in
  exists resp,
    api_email s = (Returns (res_json (JArr (map to_object resp))), s)
    /\ Forall (fun o => api_email_id (NumberToString (Finite (id o))) s
                        = (Returns (res_json (to_object o)), s)) resp
    /\ forall k, ~ In k (map id resp) ->
         api_email_id (NumberToString (Finite k)) s
         = (Returns (res_send 404 (lit "Not found")), s).
Proof.
  intros Henv s.
  destruct (suspended_consistent env _ (createSchema_consistent json em lg))
    as (_ & _ & [_ Hsorted] & _). fold s in Hsorted.
  destruct (suspended_decodable env (snd (createSchema json None (Sink None em lg))) Henv)
    as [[t Ht] Hdec]; [eexists; reflexivity | constructor |]. fold s in Ht, Hdec.
  unfold stored in *. rewrite Ht in *.
  destruct (forEach_deserialize_decodable _ Hdec) as (resp & Hresp & Hids).
  exists resp. split; [|split].
  - unfold api_email, mbind. rewrite (knex_select_table s t Ht).
    unfold lift. rewrite Hresp. reflexivity.
  - pose proof (forEach_deserialize_each _ _ Hresp) as Heach.
    assert (Hall : forall l resp,
              Forall2 (fun r o => deserialize (row_to_js r) = Returns o) l resp ->
              (forall r, In r l -> In r (rows t)) ->
              Forall (fun o => api_email_id (NumberToString (Finite (id o))) s
                               = (Returns (res_json (to_object o)), s)) resp).
    { induction 1 as [|r o l resp' Ho _ IH]; intros Hin; constructor.
      - destruct (deserialize_json _ _ Ho) as (_ & Hid & _). cbn [row_to_js id] in Hid.
        rewrite Hid, (api_email_id_run (id r) s t Ht).
        rewrite (filter_id_sorted _ r Hsorted) by (apply Hin; left; reflexivity).
        rewrite Ho. reflexivity.
      - apply IH. intros r' Hr'. apply Hin. right. exact Hr'. }
    exact (Hall _ _ Heach (fun r H => H)).
  - intros k Hk. rewrite (api_email_id_run k s t Ht), filter_id_absent; [reflexivity|].
    rewrite <- Hids. exact Hk.
Qed.

Lemma api_email_id_agrees_with_listing_witness :
  modelled_activities sample_history = true
  /\ exists resp,
       api_email (snd (suspended sample_history sample_start))
       = (Returns (res_json (JArr (map to_object resp))),
          snd (suspended sample_history sample_start))
       /\ Forall (fun o => api_email_id (NumberToString (Finite (id o)))
                             (snd (suspended sample_history sample_start))
                           = (Returns (res_json (to_object o)),
                              snd (suspended sample_history sample_start))) resp
       /\ forall k, ~ In k (map id resp) ->
            api_email_id (NumberToString (Finite k))
              (snd (suspended sample_history sample_start))
            = (Returns (res_send 404 (lit "Not found")),
               snd (suspended sample_history sample_start)).
Proof.
  assert (H : modelled_activities sample_history = true) by (vm_compute; reflexivity).
  split; [exact H|].
  exact (api_email_id_agrees_with_listing TEXT [] [] sample_history H).
Defined.

(** ** Deleting, for any parameter *)

(** The two deleting routes, for a parameter that SQLite compares as [o]. *)
Lemma delete_route_operand c p o t em lg reply :
  operand_of (BindString p) = Returns o ->
  (resp <- knex_select_where None c (BindString p) ;;
   match resp with
   | [] => ret (res_send 404 (lit "Not found"))
   | _ :: _ => knex_del_where None c (BindString p) ;;; ret reply
   end) (Sink (Some t) em lg)
  = match filter (fun r => satisfies c o (id r) = true) (rows t) with
    | [] => (Returns (res_send 404 (lit "Not found")), Sink (Some t) em lg)
    | _ :: _ =>
        (Returns reply,
         Sink (Some (Table (json_affinity t)
                       (filter (fun r => satisfies c o (id r) = false) (rows t))
                       (seq t))) em lg)
    end.
Proof.
  intros Ho. unfold mbind at 1. rewrite knex_select_where_run.
  cbn [db emitter log]. rewrite Ho.
  destruct (filter (fun r => satisfies c o (id r) = true) (rows t)) as [|r l] eqn:E;
    cbn [map]; [reflexivity|].
  unfold mbind. rewrite knex_del_where_run. cbn [db emitter log]. rewrite Ho. reflexivity.
Qed.

Lemma api_email_id_operand p o t em lg :
  operand_of (BindString p) = Returns o ->
  api_email_id p (Sink (Some t) em lg)
  = match filter (fun r => satisfies Eq o (id r) = true) (rows t) with
    | [] => (Returns (res_send 404 (lit "Not found")), Sink (Some t) em lg)
    | r :: _ =>
        match deserialize (row_to_js r) with
        | Returns o' => (Returns (res_json (to_object o')), Sink (Some t) em lg)
        | Throws e => (Throws e, Sink (Some t) em lg)
        | Unmodelled g => (Unmodelled g, Sink (Some t) em lg)
        end
    end.
Proof.
  intros Ho. unfold api_email_id, mbind. rewrite knex_select_where_run.
  cbn [db emitter log]. rewrite Ho.
  destruct (filter _ (rows t)) as [|r l]; [reflexivity|].
  cbn [map]. unfold lift. destruct (deserialize (row_to_js r)); reflexivity.
Qed.

Lemma filter_filter_false {A} (p : A -> bool) (l : list A) :
  filter (fun x => p x = true) (filter (fun x => p x = false) l) = [].
Proof.
  apply filter_nil_in. intros x Hx Hp. apply list_elem_of_In, list_elem_of_filter in Hx.
  destruct Hx as [Hf _]. congruence.
Qed.

(** X6.  When the handler of GET /api/email/purge/:id is given a parameter
    that SQLite does not read as a number (any text that is not, between
    white space, a decimal literal: an optional sign, digits with or
    without a point, and an optional exponent; so also 2abc), the
    parameter is compared with the id column as text, and every integer is
    less than any text: the purge removes every row of a table that is not
    empty and answers 200, and answers 404 on an empty table. *)
Theorem purge_with_text_parameter_removes_all p t em lg :
  numeric_text p = Returns None ->
  api_email_purge p (Sink (Some t) em lg)
  = match rows t with
    | [] => (Returns (res_send 404 (lit "Not found")), Sink (Some t) em lg)
    | _ :: _ =>
        (Returns (res_send 200 (lit "Purged records older than " ++ p)),
         Sink (Some (Table (json_affinity t) [] (seq t))) em lg)
    end.
Proof.
  intros Hp. unfold api_email_purge.
  rewrite (delete_route_operand Le p (Text p) t em lg _ (operand_of_text p Hp)).
  cbn [satisfies]. rewrite filter_all by reflexivity.
  rewrite filter_none by discriminate. reflexivity.
Qed.

Lemma purge_with_text_parameter_removes_all_witness :
  numeric_text (lit "2abc") = Returns None
  /\ api_email_purge (lit "2abc") (Sink (Some (Table TEXT [sample_row] 1)) [] [])
     = (Returns (res_send 200 (lit "Purged records older than " ++ lit "2abc")),
        Sink (Some (Table TEXT [] 1)) [] []).
Proof.
  assert (H : numeric_text (lit "2abc") = Returns None) by reflexivity.
  split; [exact H|].
  exact (purge_with_text_parameter_removes_all (lit "2abc") (Table TEXT [sample_row] 1) [] [] H).
Defined.

(** X7.  When the handlers of GET /api/email/:id and of GET
    /api/email/delete/:id are given such a parameter (the requests for
    /api/email/latest and /api/email/stream do not reach the first of
    them: their routes are registered before it), they find no row,
    whatever the table holds: both answer 404 Not found and leave the sink
    as it was. *)
Theorem text_parameter_finds_no_row p t em lg :
  numeric_text p = Returns None ->
  api_email_id p (Sink (Some t) em lg)
  = (Returns (res_send 404 (lit "Not found")), Sink (Some t) em lg)
  /\ api_email_delete p (Sink (Some t) em lg)
     = (Returns (res_send 404 (lit "Not found")), Sink (Some t) em lg).
Proof.
  intros Hp. split.
  - rewrite (api_email_id_operand p (Text p) t em lg (operand_of_text p Hp)).
    cbn [satisfies]. rewrite filter_none by discriminate. reflexivity.
  - unfold api_email_delete.
    rewrite (delete_route_operand Eq p (Text p) t em lg _ (operand_of_text p Hp)).
    cbn [satisfies]. rewrite filter_none by discriminate. reflexivity.
Qed.

Lemma text_parameter_finds_no_row_witness :
  numeric_text (lit "2abc") = Returns None
  /\ api_email_id (lit "2abc") (Sink (Some (Table TEXT [sample_row] 1)) [] [])
     = (Returns (res_send 404 (lit "Not found")), Sink (Some (Table TEXT [sample_row] 1)) [] [])
  /\ api_email_delete (lit "2abc") (Sink (Some (Table TEXT [sample_row] 1)) [] [])
     = (Returns (res_send 404 (lit "Not found")), Sink (Some (Table TEXT [sample_row] 1)) [] []).
Proof.
  assert (H : numeric_text (lit "2abc") = Returns None) by reflexivity.
  split; [exact H|].
  exact (text_parameter_finds_no_row (lit "2abc") (Table TEXT [sample_row] 1) [] [] H).
Defined.

(** X8.  Deleting is idempotent: after GET /api/email/delete/k, whatever
    it answered, no row has the id [k]: GET /api/email/k answers 404 Not
    found, a second GET /api/email/delete/k answers 404 Not found, and
    both leave the sink as the first request left it. *)
Theorem delete_then_not_found k t em lg :
  let s' := snd (api_email_delete (NumberToString (Finite k)) (Sink (Some t) em lg)) in
  api_email_id (NumberToString (Finite k)) s' = (Returns (res_send 404 (lit "Not found")), s')
  /\ api_email_delete (NumberToString (Finite k)) s'
     = (Returns (res_send 404 (lit "Not found")), s').
Proof.
  intros s'.
  assert (Ho : operand_of (BindString (NumberToString (Finite k))) = Returns (Integer k))
    by (apply operand_of_number_text).
  assert (Hs' : exists t', s' = Sink (Some t') em lg
            /\ filter (fun r => satisfies Eq (Integer k) (id r) = true) (rows t') = []).
  { subst s'. unfold api_email_delete.
    rewrite (delete_route_operand Eq _ (Integer k) t em lg _ Ho).
    destruct (filter (fun r => satisfies Eq (Integer k) (id r) = true) (rows t)) eqn:E;
      cbn [snd]; eexists; (split; [reflexivity|]); cbn [rows];
      [exact E | apply (filter_filter_false (fun r => satisfies Eq (Integer k) (id r)))]. }
  destruct Hs' as (t' & -> & Hnone). split.
  - rewrite (api_email_id_operand _ (Integer k) t' em lg Ho), Hnone. reflexivity.
  - unfold api_email_delete.
    rewrite (delete_route_operand Eq _ (Integer k) t' em lg _ Ho), Hnone. reflexivity.
Qed.

(** X9.  Purging is idempotent: after GET /api/email/purge/k, whatever it
    answered, no row has an id up to [k]: a second GET /api/email/purge/k
    answers 404 Not found and changes nothing, and so does GET
    /api/email/j for every [j] up to [k]. *)
Theorem purge_then_not_found k j t em lg :
  j <= k ->
  let s' := snd (api_email_purge (NumberToString (Finite k)) (Sink (Some t) em lg)) in
  api_email_purge (NumberToString (Finite k)) s'
  = (Returns (res_send 404 (lit "Not found")), s')
  /\ api_email_id (NumberToString (Finite j)) s'
     = (Returns (res_send 404 (lit "Not found")), s').
Proof.
  intros Hj s'.
  assert (Ho : forall i, operand_of (BindString (NumberToString (Finite i))) = Returns (Integer i))
    by (intros i; apply operand_of_number_text).
  assert (Hs' : exists t', s' = Sink (Some t') em lg
            /\ filter (fun r => satisfies Le (Integer k) (id r) = true) (rows t') = []).
  { subst s'. unfold api_email_purge.
    rewrite (delete_route_operand Le _ (Integer k) t em lg _ (Ho k)).
    destruct (filter (fun r => satisfies Le (Integer k) (id r) = true) (rows t)) eqn:E;
      cbn [snd]; eexists; (split; [reflexivity|]); cbn [rows];
      [exact E | apply (filter_filter_false (fun r => satisfies Le (Integer k) (id r)))]. }
  destruct Hs' as (t' & -> & Hnone). split.
  - unfold api_email_purge.
    rewrite (delete_route_operand Le _ (Integer k) t' em lg _ (Ho k)), Hnone. reflexivity.
  - rewrite (api_email_id_operand _ (Integer j) t' em lg (Ho j)).
    rewrite filter_nil_in; [reflexivity|].
    intros r Hr E. cbn [satisfies] in E. apply Z.eqb_eq in E.
    assert (Hin : r ∈ filter (fun r => satisfies Le (Integer k) (id r) = true) (rows t')).
    { apply list_elem_of_filter. split; [|apply list_elem_of_In; exact Hr].
      cbn [satisfies]. apply Z.leb_le. lia. }
    rewrite Hnone in Hin. inversion Hin.
Qed.

Lemma purge_then_not_found_witness :
  1 <= 5
  /\ api_email_purge (NumberToString (Finite 5))
       (snd (api_email_purge (NumberToString (Finite 5))
               (Sink (Some (Table TEXT [sample_row] 1)) [] [])))
     = (Returns (res_send 404 (lit "Not found")),
        snd (api_email_purge (NumberToString (Finite 5))
               (Sink (Some (Table TEXT [sample_row] 1)) [] [])))
  /\ api_email_id (NumberToString (Finite 1))
       (snd (api_email_purge (NumberToString (Finite 5))
               (Sink (Some (Table TEXT [sample_row] 1)) [] [])))
     = (Returns (res_send 404 (lit "Not found")),
        snd (api_email_purge (NumberToString (Finite 5))
               (Sink (Some (Table TEXT [sample_row] 1)) [] []))).
Proof.
  assert (H : 1 <= 5) by lia.
  split; [exact H|].
  exact (purge_then_not_found 5 1 (Table TEXT [sample_row] 1) [] [] H).
Defined.

(** X10.  The four routes that read (GET /api/email, /api/email/stream,
    /api/email/latest and /api/email/<id>) leave the table, the listeners
    and the log as they were, whatever the table holds, whatever the
    parameter is, and whether they answer or fail. *)
Theorem reading_routes_change_nothing s p :
  snd (api_email s) = s
  /\ snd (api_email_stream s) = s
  /\ snd (api_email_latest s) = s
  /\ snd (api_email_id p s) = s.
Proof.
  split; [|split; [|split]].
  - unfold api_email. apply mbind_reads; [apply knex_select_reads|].
    intros resp. apply lift_ret_reads.
  - unfold api_email_stream. pose proof (knex_select_reads None s) as H.
    destruct (knex_select None s) as [[stream| |] s']; exact H.
  - unfold api_email_latest. apply mbind_reads; [apply knex_select_desc_limit_reads|].
    intros [|o l]; [reflexivity | apply lift_ret_reads].
  - unfold api_email_id. apply mbind_reads; [apply knex_select_where_reads|].
    intros [|o l]; [reflexivity | apply lift_ret_reads].
Qed.

(** ** The handler when something fails *)

(** An insert that throws leaves the sink as it was. *)
Lemma knex_insert_throws fault cr up c s e :
  fst (knex_insert fault cr up c s) = Throws e -> knex_insert fault cr up c s = (Throws e, s).
Proof.
  rewrite knex_insert_run. destruct fault; [cbn; congruence|].
  destruct (db s) as [t|]; [|cbn; congruence].
  destruct (insert_row cr up c t) as [[r t']| |]; cbn; congruence.
Qed.

Lemma knex_select_where_id s t k :
  db s = Some t ->
  knex_select_where None Eq (BindNumber k) s
  = (Returns (map row_to_js (filter (fun r => satisfies Eq (Integer k) (id r) = true) (rows t))),
     s).
Proof.
  intros Hdb. rewrite knex_select_where_run, Hdb. cbn [operand_of].
  rewrite <- Hdb, sink_eta. reflexivity.
Qed.

Lemma existsb_id_false l k :
  existsb (fun x : record sqlite_value => id x =? k) l = false ->
  filter (fun r => satisfies Eq (Integer k) (id r) = true) l = [].
Proof.
  intros H. apply filter_nil_in. intros x Hx E. cbn [satisfies] in E.
  assert (Ht : existsb (fun x : record sqlite_value => id x =? k) l = true)
    by (apply existsb_exists; eauto).
  congruence.
Qed.

(** The largest id given out does not go down. *)
Lemma act_seq a s t :
  db s = Some t -> exists t', db (snd (act a s)) = Some t' /\ seq t <= seq t'.
Proof.
  intros Hdb.
  destruct (act_effect a s)
    as [(cr & up & m & c & t0 & r & t' & -> & Hdb' & Hins & ->)
       |[(q & t0 & -> & Hdb' & ->)
        |(em & evs & -> & Hevs)]]; cbn [db].
  - rewrite Hdb in Hdb'. injection Hdb' as <-. exists t'. split; [reflexivity|].
    destruct (insert_row_spec _ _ _ _ _ _ Hins) as (_ & -> & _ & -> & _). lia.
  - rewrite Hdb in Hdb'. injection Hdb' as <-. eexists. split; [reflexivity|]. cbn [seq]. lia.
  - exists t. split; [exact Hdb | lia].
Qed.

Lemma suspended_seq env : forall s t,
  db s = Some t -> exists t', db (snd (suspended env s)) = Some t' /\ seq t <= seq t'.
Proof.
  induction env as [|a env IH]; intros s t Hdb.
  - exists t. split; [exact Hdb | lia].
  - rewrite suspended_cons. destruct (act_seq a s t Hdb) as (t1 & H1 & L1).
    destruct (IH _ _ H1) as (t2 & H2 & L2). exists t2. split; [exact H2 | lia].
Qed.

(** X11.  When the insert of the handler fails, for whatever reason (the
    file, a missing table, the last id used up), the handler ends with that
    failure and with the sink exactly as the rest of the process left it
    before the insert: it has stored nothing, emitted nothing, and the done
    callback of the connection is never called. *)
Theorem failed_insert_is_never_acknowledged
    env1 env2 env3 fault1 fault2 cr up mail_object connection s e :
  fst (knex_insert fault1 cr up (insert_values mail_object connection)
         (snd (suspended env1 s))) = Throws e ->
  on_end env1 env2 env3 fault1 fault2 cr up mail_object connection s
  = (Throws e, snd (suspended env1 s))
  /\ forall record,
       ~ In (Done record)
            (new_events s
               (snd (on_end env1 env2 env3 fault1 fault2 cr up mail_object connection s))).
Proof.
  intros H. apply knex_insert_throws in H.
  assert (E : on_end env1 env2 env3 fault1 fault2 cr up mail_object connection s
              = (Throws e, snd (suspended env1 s)))
    by (rewrite on_end_unfold; cbv zeta; rewrite H; reflexivity).
  split; [exact E|]. intros record. rewrite E. cbn [snd].
  destruct (suspended_log env1 s) as (_ & evs & L & F).
  rewrite (new_events_app _ _ _ L). apply not_done_in, foreign_not_done, F.
Qed.

Lemma failed_insert_is_never_acknowledged_witness :
  fst (knex_insert (Some IoErr) 1000 1001 (insert_values sample_mail sample_connection)
         (snd (suspended [] sample_start))) = Throws (SqliteError IoErr)
  /\ on_end [] [] [] (Some IoErr) None 1000 1001 sample_mail sample_connection sample_start
     = (Throws (SqliteError IoErr), snd (suspended [] sample_start))
  /\ forall record,
       ~ In (Done record)
            (new_events sample_start
               (snd (on_end [] [] [] (Some IoErr) None 1000 1001
                       sample_mail sample_connection sample_start))).
Proof.
  assert (H : fst (knex_insert (Some IoErr) 1000 1001
                     (insert_values sample_mail sample_connection)
                     (snd (suspended [] sample_start))) = Throws (SqliteError IoErr))
    by reflexivity.
  split; [exact H|].
  exact (failed_insert_is_never_acknowledged [] [] [] (Some IoErr) None 1000 1001
           sample_mail sample_connection sample_start (SqliteError IoErr) H).
Defined.

(** X12.  When the insert of the handler has stored the row and the select
    that follows fails, the handler ends with that failure: the row is in
    the table the insert left, but nothing is emitted and the done callback
    is never called, so the client is not told that the message is
    stored.  The sink is as the insert and the rest of the process left
    it. *)
Theorem failed_select_leaves_row_unacknowledged
    env1 env2 env3 e cr up mail_object connection s t r t' :
  db (snd (suspended env1 s)) = Some t ->
  insert_row cr up (insert_values mail_object connection) t = Returns (r, t') ->
  let s1 := snd (suspended env1 s) in
  let s2 := snd (suspended env2 (Sink (Some t') (emitter s1) (log s1 ++ [Inserted r]))) in
  on_end env1 env2 env3 None (Some e) cr up mail_object connection s
  = (Throws (SqliteError e), s2)
  /\ In r (rows t')
  /\ In (Inserted r) (new_events s s2)
  /\ forall record, ~ In (Done record) (new_events s s2).
Proof.
  intros Hdb Hins s1 s2. change (db s1 = Some t) in Hdb.
  destruct (suspended_log env1 s) as (_ & evs1 & L1 & F1). fold s1 in L1.
  destruct (suspended_log env2 (Sink (Some t') (emitter s1) (log s1 ++ [Inserted r])))
    as (_ & evs2 & L2 & F2). fold s2 in L2. cbn [log] in L2.
  assert (Hnew : new_events s s2 = evs1 ++ Inserted r :: evs2).
  { apply new_events_app. rewrite L2, L1, <- !app_assoc. reflexivity. }
  split; [|split; [|split]].
  - rewrite on_end_unfold. cbv zeta. fold s1. rewrite knex_insert_run, Hdb, Hins.
    fold s2. rewrite knex_select_where_run. reflexivity.
  - destruct (insert_row_spec _ _ _ _ _ _ Hins) as (-> & _).
    apply in_app_iff. right. left. reflexivity.
  - rewrite Hnew. apply in_app_iff. right. left. reflexivity.
  - intros record. rewrite Hnew. intros Hin. apply in_app_iff in Hin as [Hin|[Hin|Hin]].
    + exact (not_done_in _ _ (foreign_not_done _ F1) Hin).
    + discriminate.
    + exact (not_done_in _ _ (foreign_not_done _ F2) Hin).
Qed.

Lemma failed_select_leaves_row_unacknowledged_witness :
  db (snd (suspended [] sample_start)) = Some (Table TEXT [] 0)
  /\ insert_row 1000 1001 (insert_values sample_mail sample_connection) (Table TEXT [] 0)
     = Returns (sample_row, Table TEXT [sample_row] 1)
  /\ on_end [] [] [] None (Some IoErr) 1000 1001 sample_mail sample_connection sample_start
     = (Throws (SqliteError IoErr),
        snd (suspended []
               (Sink (Some (Table TEXT [sample_row] 1))
                     (emitter (snd (suspended [] sample_start)))
                     (log (snd (suspended [] sample_start)) ++ [Inserted sample_row]))))
  /\ In sample_row (rows (Table TEXT [sample_row] 1))
  /\ In (Inserted sample_row)
        (new_events sample_start
           (snd (suspended []
                   (Sink (Some (Table TEXT [sample_row] 1))
                         (emitter (snd (suspended [] sample_start)))
                         (log (snd (suspended [] sample_start)) ++ [Inserted sample_row])))))
  /\ forall record,
       ~ In (Done record)
            (new_events sample_start
               (snd (suspended []
                       (Sink (Some (Table TEXT [sample_row] 1))
                             (emitter (snd (suspended [] sample_start)))
                             (log (snd (suspended [] sample_start)) ++ [Inserted sample_row]))))).
Proof.
  assert (H1 : db (snd (suspended [] sample_start)) = Some (Table TEXT [] 0)) by reflexivity.
  assert (H2 : insert_row 1000 1001 (insert_values sample_mail sample_connection)
                 (Table TEXT [] 0)
               = Returns (sample_row, Table TEXT [sample_row] 1))
    by (vm_compute; reflexivity).
  split; [exact H1|]. split; [exact H2|].
  exact (failed_select_leaves_row_unacknowledged [] [] [] IoErr 1000 1001
           sample_mail sample_connection sample_start _ _ _ H1 H2).
Defined.

(** X13.  When the row that the handler has inserted is no longer in the
    table at the time its select runs (a purge or a delete of another
    request came in between), the select finds nothing, [deserialize] is
    given undefined and throws a TypeError: the handler emits nothing and
    the done callback is never called. *)
Theorem row_deleted_before_reread_is_never_acknowledged
    env1 env2 env3 cr up mail_object connection s t r t' :
  db (snd (suspended env1 s)) = Some t ->
  insert_row cr up (insert_values mail_object connection) t = Returns (r, t') ->
  let s1 := snd (suspended env1 s) in
  let s2 := snd (suspended env2 (Sink (Some t') (emitter s1) (log s1 ++ [Inserted r]))) in
  existsb (fun x => id x =? id r) (stored s2) = false ->
  let s3 := snd (suspended env3 (Sink (db s2) (emitter s2) (log s2 ++ [Reread []]))) in
  on_end env1 env2 env3 None None cr up mail_object connection s = (Throws TypeError, s3)
  /\ forall record, ~ In (Done record) (new_events s s3).
Proof.
  intros Hdb Hins s1 s2 Hgone s3. change (db s1 = Some t) in Hdb.
  destruct (suspended_log env1 s) as (_ & evs1 & L1 & F1). fold s1 in L1.
  destruct (suspended_log env2 (Sink (Some t') (emitter s1) (log s1 ++ [Inserted r])))
    as (_ & evs2 & L2 & F2). fold s2 in L2. cbn [log] in L2.
  destruct (suspended_log env3 (Sink (db s2) (emitter s2) (log s2 ++ [Reread []])))
    as (_ & evs3 & L3 & F3). fold s3 in L3. cbn [log] in L3.
  destruct (suspended_table env2 (Sink (Some t') (emitter s1) (log s1 ++ [Inserted r])))
    as [t2 Ht2]; [eexists; reflexivity|]. fold s2 in Ht2.
  unfold stored in Hgone. rewrite Ht2 in Hgone.
  split.
  - rewrite on_end_unfold. cbv zeta. fold s1. rewrite knex_insert_run, Hdb, Hins.
    fold s2. cbn [id]. rewrite (knex_select_where_id s2 t2 (id r) Ht2).
    rewrite (existsb_id_false _ _ Hgone). cbn [map deserialize_first]. reflexivity.
  - intros record.
    rewrite (new_events_app s s3 (evs1 ++ Inserted r :: evs2 ++ Reread [] :: evs3))
      by (rewrite L3, L2, L1; repeat rewrite <- app_assoc; cbn [app];
          repeat rewrite <- app_assoc; reflexivity).
    intros Hin. apply in_app_iff in Hin as [Hin|[Hin|Hin]].
    + exact (not_done_in _ _ (foreign_not_done _ F1) Hin).
    + discriminate.
    + apply in_app_iff in Hin as [Hin|[Hin|Hin]].
      * exact (not_done_in _ _ (foreign_not_done _ F2) Hin).
      * discriminate.
      * exact (not_done_in _ _ (foreign_not_done _ F3) Hin).
Qed.

Lemma row_deleted_before_reread_is_never_acknowledged_witness :
  db (snd (suspended [] sample_start)) = Some (Table TEXT [] 0)
  /\ insert_row 1000 1001 (insert_values sample_mail sample_connection) (Table TEXT [] 0)
     = Returns (sample_row, Table TEXT [sample_row] 1)
  /\ existsb (fun x => id x =? id sample_row)
       (stored (snd (suspended [OtherDel (satisfies Le (Integer 1))]
                       (Sink (Some (Table TEXT [sample_row] 1))
                             (emitter (snd (suspended [] sample_start)))
                             (log (snd (suspended [] sample_start))
                                ++ [Inserted sample_row]))))) = false
  /\ on_end [] [OtherDel (satisfies Le (Integer 1))] [] None None 1000 1001
       sample_mail sample_connection sample_start
     = (Throws TypeError,
        Sink (Some (Table TEXT [] 1)) [] [Inserted sample_row; Reread []])
  /\ forall record,
       ~ In (Done record)
            (new_events sample_start
               (Sink (Some (Table TEXT [] 1)) [] [Inserted sample_row; Reread []])).
Proof.
  assert (H1 : db (snd (suspended [] sample_start)) = Some (Table TEXT [] 0)) by reflexivity.
  assert (H2 : insert_row 1000 1001 (insert_values sample_mail sample_connection)
                 (Table TEXT [] 0)
               = Returns (sample_row, Table TEXT [sample_row] 1))
    by (vm_compute; reflexivity).
  assert (H3 : existsb (fun x => id x =? id sample_row)
       (stored (snd (suspended [OtherDel (satisfies Le (Integer 1))]
                       (Sink (Some (Table TEXT [sample_row] 1))
                             (emitter (snd (suspended [] sample_start)))
                             (log (snd (suspended [] sample_start))
                                ++ [Inserted sample_row]))))) = false)
    by (vm_compute; reflexivity).
  split; [exact H1|]. split; [exact H2|]. split; [exact H3|].
  exact (row_deleted_before_reread_is_never_acknowledged
           [] [OtherDel (satisfies Le (Integer 1))] [] 1000 1001
           sample_mail sample_connection sample_start _ _ _ H1 H2 H3).
Defined.


(** ** The last id *)





(** ** The handler when nothing fails *)





(** ** The page *)

Lemma escapeHtmlChar_markup ver c :
  List.filter markup (lodash.escapeHtmlChar ver c) = [].
Proof.
  unfold lodash.escapeHtmlChar.
  destruct (N.eqb_spec c 38); [reflexivity|].
  destruct (N.eqb_spec c 60); [reflexivity|].
  destruct (N.eqb_spec c 62); [reflexivity|].
  destruct (N.eqb_spec c 34); [reflexivity|].
  destruct (N.eqb_spec c 39); [reflexivity|].
  destruct ((c =? 96)%N && lodash.escapes_backtick ver); [reflexivity|].
  cbn [List.filter]. unfold markup.
  destruct (N.eqb_spec c 60); [contradiction|].
  destruct (N.eqb_spec c 62); [contradiction|].
  destruct (N.eqb_spec c 34); [contradiction|].
  destruct (N.eqb_spec c 39); [contradiction|]. reflexivity.
Qed.

(** What [_.escape] returns has none of the characters of markup. *)
Lemma escape_string_markup ver s : List.filter markup (lodash.escape_string ver s) = [].
Proof.
  unfold lodash.escape_string. induction s as [|c s IH]; [reflexivity|].
  cbn [flat_map]. rewrite List.filter_app, escapeHtmlChar_markup, IH. reflexivity.
Qed.

Lemma escape_markup ver v : List.filter markup (lodash.escape ver v) = [].
Proof. apply escape_string_markup. Qed.

(** ** Listeners of the page *)

Lemma event_name_eqb_refl e : event_name_eqb e e = true.
Proof. destruct e; reflexivity. Qed.

(** Removing a listener that was just added gives the emitter back. *)
Lemma removeListener_on e f em : removeListener e f (on e f em) = em.
Proof.
  assert (Hreg : registered e f (e, f) = true)
    by (unfold registered; cbn [fst snd]; rewrite event_name_eqb_refl, Nat.eqb_refl; reflexivity).
  unfold on. induction em as [|x em IH].
  - cbn [app removeListener existsb]. rewrite Hreg. reflexivity.
  - cbn [app removeListener]. rewrite existsb_app. cbn [existsb]. rewrite Hreg.
    rewrite orb_true_r, andb_false_r. rewrite IH. reflexivity.
Qed.

(** X16.  Whatever the version of lodash, the time zone and the record,
    the characters of markup (the angle brackets and the two quotes) in a
    row that [render_item] makes are those of its template and no others:
    the id, the recipients, the sender, the subject and the date put none
    into the page. *)
Theorem render_item_markup_is_the_template ver DateToString item :
  List.filter markup (render_item ver DateToString item)
  = (lit "<><><" ++ [34; 34]%N ++ lit "><>"
     ++ lit "<><" ++ [34; 34]%N ++ lit "><>"
     ++ lit "<><" ++ [34; 34]%N ++ lit "><>"
     ++ lit "<><><><>")%list.
Proof.
  unfold render_item. cbv zeta.
  repeat rewrite List.filter_app.
  rewrite !escape_markup, escape_string_markup. reflexivity.
Qed.

(** X17.  When GET / has answered and registered the listener of the
    viewer, the 'close' handler of the request gives back exactly the sink
    the request found: the listener it removes is the one the request
    added, and every other listener keeps its place. *)
Theorem closed_page_leaves_no_listener f s resp s' :
  root f s = (Returns resp, s') ->
  listeners_of email (emitter s') = listeners_of email (emitter s) ++ [f]
  /\ snd (root_close f s') = s.
Proof.
  intros H. apply root_registers in H. subst s'. cbn [act self_on snd emitter].
  split; [apply listeners_of_on|].
  unfold root_close, self_removeListener. cbn [snd db emitter log].
  rewrite removeListener_on. apply sink_eta.
Qed.

Lemma closed_page_leaves_no_listener_witness :
  root 9%nat sample_sink
  = (Returns [sample_record],
     Sink (db sample_sink) (on email 9%nat (emitter sample_sink)) (log sample_sink))
  /\ listeners_of email (on email 9%nat (emitter sample_sink))
     = listeners_of email (emitter sample_sink) ++ [9%nat]
  /\ snd (root_close 9%nat
            (Sink (db sample_sink) (on email 9%nat (emitter sample_sink)) (log sample_sink)))
     = sample_sink.
Proof.
  assert (H : root 9%nat sample_sink
              = (Returns [sample_record],
                 Sink (db sample_sink) (on email 9%nat (emitter sample_sink))
                      (log sample_sink)))
    by (vm_compute; reflexivity).
  split; [exact H|].
  exact (closed_page_leaves_no_listener 9%nat sample_sink _ _ H).
Defined.

(** X18.  On the JSON values of the model (null, booleans, text, the
    integers of magnitude up to 2^53 - 1, which leaves out negative zero
    and fractions, and arrays and objects of such values, the keys of an
    object distinct and in the order of enumeration), [JSON.stringify], as
    the handler uses it, gives different texts to different values: two
    such values that are stored as the same text are the same value. *)
Theorem distinct_values_have_distinct_texts v w :
  json_value v = true -> json_value w = true ->
  JSON.stringify v = JSON.stringify w -> v = w.
Proof.
  intros Hv Hw E.
  rewrite (stringify_defined v (json_value_defined v Hv)) in E.
  rewrite (stringify_defined w (json_value_defined w Hw)) in E. injection E as E.
  pose proof (parse_text (JStr (element_text v)) v (json_value_modelled v Hv) eq_refl) as Pv.
  pose proof (parse_text (JStr (element_text v)) w (json_value_modelled w Hw) E) as Pw.
  rewrite (revived_json_value v Hv) in Pv. rewrite (revived_json_value w Hw) in Pw.
  congruence.
Qed.

Lemma distinct_values_have_distinct_texts_witness :
  json_value (JStr (lit "Hi")) = true
  /\ json_value (JStr (lit "Hi")) = true
  /\ JSON.stringify (JStr (lit "Hi")) = JSON.stringify (JStr (lit "Hi"))
  /\ JStr (lit "Hi") = JStr (lit "Hi").
Proof.
  assert (H1 : json_value (JStr (lit "Hi")) = true) by reflexivity.
  assert (H2 : JSON.stringify (JStr (lit "Hi")) = JSON.stringify (JStr (lit "Hi")))
    by reflexivity.
  split; [exact H1|]. split; [exact H1|]. split; [exact H2|].
  exact (distinct_values_have_distinct_texts _ _ H1 H1 H2).
Defined.

(** ** Without the table *)

Lemma act_no_table a s : db s = None -> db (snd (act a s)) = None.
Proof.
  intros Hdb.
  destruct (act_effect a s)
    as [(cr & up & m & c & t0 & r & t' & -> & Hdb' & Hins & ->)
       |[(q & t0 & -> & Hdb' & ->)
        |(em & evs & -> & Hevs)]]; cbn [db]; congruence.
Qed.

Lemma suspended_no_table env : forall s, db s = None -> db (snd (suspended env s)) = None.
Proof.
  induction env as [|a env IH]; intros s Hdb; [exact Hdb|].
  rewrite suspended_cons. apply IH, act_no_table, Hdb.
Qed.

Lemma with_table_missing {A} (q : table -> completion (A * table)) s :
  db s = None -> with_table None q s = (Throws (SqliteError NoSuchTable), s).
Proof. intros H. unfold with_table. rewrite H. reflexivity. Qed.

Lemma mbind_throws {A B} (m : M A) (k : A -> M B) s e :
  m s = (Throws e, s) -> mbind m k s = (Throws e, s).
Proof. intros H. unfold mbind. rewrite H. reflexivity. Qed.

(** X19.  In a database file that opens but has no emails table (its
    creation failed and [createSchema] swallowed the failure), every
    route that awaits its query fails with "no such table" and changes
    nothing, and so does the handler of a message, whatever the rest of
    the process does before its insert: nothing is stored or emitted and
    the done callback is never called.  GET /api/email/stream, which does
    not await its query, answers 200 with the text of the empty array. *)
Theorem without_table_every_request_fails s p f
    env1 env2 env3 fault2 cr up mail_object connection :
  db s = None ->
  api_email s = (Throws (SqliteError NoSuchTable), s)
  /\ api_email_stream s = (Returns (Response 200 [[91%N]; [93%N]]), s)
  /\ api_email_latest s = (Throws (SqliteError NoSuchTable), s)
  /\ api_email_id p s = (Throws (SqliteError NoSuchTable), s)
  /\ api_email_delete p s = (Throws (SqliteError NoSuchTable), s)
  /\ api_email_purge p s = (Throws (SqliteError NoSuchTable), s)
  /\ root f s = (Throws (SqliteError NoSuchTable), s)
  /\ on_end env1 env2 env3 None fault2 cr up mail_object connection s
     = (Throws (SqliteError NoSuchTable), snd (suspended env1 s))
  /\ db (snd (suspended env1 s)) = None
  /\ forall record, ~ In (Done record) (new_events s (snd (suspended env1 s))).
Proof.
  intros Hdb.
  split; [|split; [|split; [|split; [|split; [|split; [|split; [|split; [|split]]]]]]]].
  - unfold api_email, knex_select. apply mbind_throws, with_table_missing, Hdb.
  - unfold api_email_stream, knex_select. rewrite (with_table_missing _ s Hdb). reflexivity.
  - unfold api_email_latest, knex_select_desc_limit.
    apply mbind_throws, with_table_missing, Hdb.
  - unfold api_email_id, knex_select_where. apply mbind_throws, with_table_missing, Hdb.
  - unfold api_email_delete, knex_select_where. apply mbind_throws, with_table_missing, Hdb.
  - unfold api_email_purge, knex_select_where. apply mbind_throws, with_table_missing, Hdb.
  - unfold root, knex_select. apply mbind_throws, with_table_missing, Hdb.
  - rewrite on_end_unfold. cbv zeta.
    rewrite knex_insert_run, (suspended_no_table env1 s Hdb). reflexivity.
  - apply suspended_no_table, Hdb.
  - intros record. destruct (suspended_log env1 s) as (_ & evs & L & F).
    rewrite (new_events_app _ _ _ L). apply not_done_in, foreign_not_done, F.
Qed.

Lemma without_table_every_request_fails_witness :
  db (snd (createSchema TEXT (Some IoErr) (Sink None [] []))) = None
  /\ api_email (snd (createSchema TEXT (Some IoErr) (Sink None [] [])))
     = (Throws (SqliteError NoSuchTable), snd (createSchema TEXT (Some IoErr) (Sink None [] [])))
  /\ api_email_stream (snd (createSchema TEXT (Some IoErr) (Sink None [] [])))
     = (Returns (Response 200 [[91%N]; [93%N]]),
        snd (createSchema TEXT (Some IoErr) (Sink None [] []))).
Proof.
  assert (H : db (snd (createSchema TEXT (Some IoErr) (Sink None [] []))) = None)
    by reflexivity.
  split; [exact H|].
  pose proof (without_table_every_request_fails
                (snd (createSchema TEXT (Some IoErr) (Sink None [] [])))
                (lit "1") 7%nat [] [] [] None 1000 1001 sample_mail sample_connection H)
    as (H1 & H2 & _).
  split; [exact H1 | exact H2].
Defined.

(** ** The settings *)

Lemma or_else_truthy a b : ToBoolean b = true -> ToBoolean (or_else a b) = true.
Proof. intros H. unfold or_else. destruct (ToBoolean a) eqn:E; assumption. Qed.

(** X20.  Whatever options the sink is constructed with, none of its
    three settings is falsy: an option that is missing or falsy (the port
    0, the empty file name, null, false, NaN) gives way to the default, so
    that the port 0 cannot be chosen. *)
Theorem settings_are_never_falsy options self :
  RestSmtpSink options = Returns self ->
  ToBoolean (smtpport self) = true
  /\ ToBoolean (httpport self) = true
  /\ ToBoolean (filename self) = true
  /\ (forall o, options = JObj o -> ToBoolean (own_property o (lit "smtp")) = false ->
        smtpport self = JNum (Finite 2525)).
Proof.
  unfold RestSmtpSink. intros H.
  apply bind_returns in H as (smtp & Hs & H).
  apply bind_returns in H as (listen & Hl & H).
  apply bind_returns in H as (file & Hf & H). injection H as <-.
  cbn [smtpport httpport filename].
  repeat split; try (apply or_else_truthy; reflexivity).
  intros o -> Hfalsy.
  assert (E : own_property o (lit "smtp") = smtp) by (cbn [Get] in Hs; congruence).
  unfold or_else. rewrite <- E, Hfalsy. reflexivity.
Qed.

Lemma settings_are_never_falsy_witness :
  RestSmtpSink (JObj [(lit "smtp", JNum (Finite 0))])
  = Returns {| smtpport := JNum (Finite 2525);
               httpport := JNum (Finite 2526);
               filename := JStr (lit "rest-smtp-sink.sqlite") |}
  /\ ToBoolean (JNum (Finite 2525)) = true
  /\ ToBoolean (JNum (Finite 2526)) = true
  /\ ToBoolean (JStr (lit "rest-smtp-sink.sqlite")) = true
  /\ (forall o, JObj [(lit "smtp", JNum (Finite 0))] = JObj o ->
        ToBoolean (own_property o (lit "smtp")) = false ->
        JNum (Finite 2525) = JNum (Finite 2525)).
Proof.
  assert (H : RestSmtpSink (JObj [(lit "smtp", JNum (Finite 0))])
              = Returns {| smtpport := JNum (Finite 2525);
                           httpport := JNum (Finite 2526);
                           filename := JStr (lit "rest-smtp-sink.sqlite") |})
    by reflexivity.
  split; [exact H|].
  exact (settings_are_never_falsy _ _ H).
Defined.

(** ** A row that does not decode *)

(** X21.  The listings that decode are all or nothing: when the rows of
    the table decode up to a row on which [deserialize] throws (a column
    that is not JSON text), GET /api/email fails with what was thrown and
    answers with no record at all, and GET / fails in the same way,
    neither listing a row nor registering the listener of the viewer;
    both leave the sink as it was, while GET /api/email/stream, which does
    not decode, still answers. *)
Theorem undecodable_row_fails_the_listing s t l1 r l2 resp e f :
  db s = Some t ->
  rows t = l1 ++ r :: l2 ->
  forEach_deserialize (map row_to_js l1) = Returns resp ->
  deserialize (row_to_js r) = Throws e ->
  api_email s = (Throws e, s)
  /\ root f s = (Throws e, s)
  /\ exists stream, api_email_stream s = (Returns stream, s).
Proof.
  intros Hdb Hrows Hl1 Hr.
  assert (Hall : forEach_deserialize (map row_to_js (rows t)) = Throws e).
  { rewrite Hrows. clear Hrows. revert resp Hl1.
    induction l1 as [|x l1 IH]; intros resp Hl1.
    - cbn [app map forEach_deserialize]. rewrite Hr. reflexivity.
    - cbn [app map forEach_deserialize] in *.
      apply bind_returns in Hl1 as (o & Ho & Hl1).
      apply bind_returns in Hl1 as (rest & Hrest & _).
      rewrite Ho. cbn [bind]. rewrite (IH rest Hrest). reflexivity. }
  split; [|split].
  - unfold api_email, mbind. rewrite (knex_select_table s t Hdb). unfold lift.
    rewrite Hall. reflexivity.
  - unfold root, mbind. rewrite (knex_select_table s t Hdb). unfold lift.
    rewrite Hall. reflexivity.
  - destruct (api_email_stream_body s t Hdb) as (stream & H & _). eauto.
Qed.

Lemma undecodable_row_fails_the_listing_witness :
  db (Sink (Some (Table TEXT [sample_row;
                              Record 2 1000 1001
                                (Columns SqlNull SqlNull SqlNull (SqlText (lit "Hi"))
                                   SqlNull SqlNull SqlNull SqlNull)] 2)) [] [])
  = Some (Table TEXT [sample_row;
                      Record 2 1000 1001
                        (Columns SqlNull SqlNull SqlNull (SqlText (lit "Hi"))
                           SqlNull SqlNull SqlNull SqlNull)] 2)
  /\ rows (Table TEXT [sample_row;
                        Record 2 1000 1001
                          (Columns SqlNull SqlNull SqlNull (SqlText (lit "Hi"))
                             SqlNull SqlNull SqlNull SqlNull)] 2)
     = [sample_row]
       ++ Record 2 1000 1001
            (Columns SqlNull SqlNull SqlNull (SqlText (lit "Hi"))
               SqlNull SqlNull SqlNull SqlNull) :: []
  /\ forEach_deserialize (map row_to_js [sample_row]) = Returns [sample_record]
  /\ deserialize (row_to_js (Record 2 1000 1001
                               (Columns SqlNull SqlNull SqlNull (SqlText (lit "Hi"))
                                  SqlNull SqlNull SqlNull SqlNull)))
     = Throws SyntaxError
  /\ api_email
       (Sink (Some (Table TEXT [sample_row;
                                Record 2 1000 1001
                                  (Columns SqlNull SqlNull SqlNull (SqlText (lit "Hi"))
                                     SqlNull SqlNull SqlNull SqlNull)] 2)) [] [])
     = (Throws SyntaxError,
        Sink (Some (Table TEXT [sample_row;
                                Record 2 1000 1001
                                  (Columns SqlNull SqlNull SqlNull (SqlText (lit "Hi"))
                                     SqlNull SqlNull SqlNull SqlNull)] 2)) [] []).
Proof.
  set (r := Record 2 1000 1001
              (Columns SqlNull SqlNull SqlNull (SqlText (lit "Hi"))
                 SqlNull SqlNull SqlNull SqlNull)).
  assert (H1 : db (Sink (Some (Table TEXT [sample_row; r] 2)) [] [])
               = Some (Table TEXT [sample_row; r] 2)) by reflexivity.
  assert (H2 : rows (Table TEXT [sample_row; r] 2) = [sample_row] ++ r :: []) by reflexivity.
  assert (H3 : forEach_deserialize (map row_to_js [sample_row]) = Returns [sample_record])
    by (vm_compute; reflexivity).
  assert (H4 : deserialize (row_to_js r) = Throws SyntaxError) by (vm_compute; reflexivity).
  split; [exact H1|]. split; [exact H2|]. split; [exact H3|]. split; [exact H4|].
  exact (proj1 (undecodable_row_fails_the_listing _ _ _ r _ _ _ 7%nat H1 H2 H3 H4)).
Defined.
